(** * Escrow settlement engine of the P2P escrow bot: a shallow embedding

    The development follows the deposit and settlement branches of
    [src/handlers/callbackHandler.js] and the fee table of
    [src/config/feeConfig.js].  Token amounts are JavaScript numbers, that
    is IEEE 754 binary64 values, and are modelled by Rocq's primitive
    floats, which have the same arithmetic.  Integer minor units ("wei")
    are JavaScript [BigInt]s and are modelled by [Z]; where the escrow
    document stores them it stores their decimal string, as the code
    does.  A handler is a function on the stored document and the trace
    of what it tells the users and asks of the transfer collaborator; one
    callback runs to its end before the next one starts.

    The second part covers the rest of the bot: the dispatch of the
    callback data, the declines and the older branches of the callback
    handler, the fee tiers of the [/deal] command, the room scripts, the
    deposit address service and the two versions of the vault
    contract. *)

From Stdlib Require Import ZArith List String Ascii Bool Lia.
From Stdlib Require Import Floats.PrimFloat Floats.FloatOps Floats.SpecFloat.
From Stdlib Require Import Numbers.DecimalString Numbers.DecimalZ.
From Stdlib Require Import Numbers.DecimalN.
From Stdlib Require Floats.FloatAxioms.
Import ListNotations.

Set Warnings "-inexact-float".

Local Open Scope string_scope.
Local Open Scope list_scope.
Local Open Scope float_scope.

(** ** JavaScript values used by the handlers *)

Module JS.

(** [ToBoolean] on a number: [0], [-0] and [NaN] are falsy. *)
Definition truthy (x : float) : bool := negb (is_zero x || is_nan x).

(** [x || y] on numbers. *)
Definition or_else (x y : float) : float := if truthy x then x else y.

(** [ToBoolean] on a string-valued field.  A field that is absent
    ([undefined] or [null]) is read only through truthiness tests in the
    handlers, so it is represented by the empty string. *)
Definition truthy_str (s : string) : bool :=
  match s with EmptyString => false | _ => true end.

(** [ToBoolean] on a message identifier field ([null] or a number). *)
Definition truthy_id (i : option Z) : bool :=
  match i with Some n => negb (n =? 0)%Z | None => false end.

(** An [undefined] number field takes part in arithmetic as [NaN]. *)
Definition num (o : option float) : float :=
  match o with Some x => x | None => nan end.

(** [o || 0] on an optional number field. *)
Definition num_or0 (o : option float) : float :=
  match o with Some x => or_else x 0 | None => 0 end.

(** [x > y], [x >= y] are [y < x], [y <= x]; all comparisons with [NaN]
    are false, as in IEEE 754. *)
Definition gt (x y : float) : bool := y <? x.
Definition ge (x y : float) : bool := y <=? x.

(** The exact integer part [floor (m * 2^e)] of a finite float. *)
Definition floorZ (s : bool) (m : positive) (e : Z) : Z :=
  let v := if s then Zneg m else Zpos m in
  if (0 <=? e)%Z then (v * 2 ^ e)%Z else (v / 2 ^ (- e))%Z.

(** The float nearest to an integer (exact below [2^53]). *)
Definition of_Z (z : Z) : float :=
  SF2Prim (binary_normalize prec emax z 0 false).

(** [Math.floor]. *)
Definition Math_floor (x : float) : float :=
  match Prim2SF x with
  | S754_finite s m e =>
      if (0 <=? e)%Z then x
      else let z := floorZ s m e in
           if (z =? 0)%Z then 0 else of_Z z
  | _ => x
  end.

(** [Math.abs]. *)
Definition Math_abs (x : float) : float := abs x.

(** [Math.min] of two numbers: [NaN] if either is [NaN], and [-0] is
    smaller than [+0]. *)
Definition Math_min (x y : float) : float :=
  if is_nan x || is_nan y then nan
  else if x <? y then x
  else if y <? x then y
  else if get_sign x then x else y.

(** The float nearest to the rational [n / d] ([d] positive), which is
    what [Number] and [parseFloat] return on a decimal literal. *)
Definition of_ratio (n : Z) (d : positive) : float :=
  let den := S754_finite false d 0 in
  match n with
  | Z0 => 0
  | Zpos p => SF2Prim (SFdiv prec emax (S754_finite false p 0) den)
  | Zneg p => SF2Prim (SFdiv prec emax (S754_finite true p 0) den)
  end.

(** The result of [x.toFixed(d)], kept as the number it denotes rather
    than as its characters: the decimal with [d] fractional digits whose
    scaled value is the integer [n] (so the string reads [n / 10^d]), or
    one of the other strings [toFixed] produces ("NaN", "Infinity" and
    the exponent form used from [1e21] on), which denote [x] itself. *)
Inductive Fixed : Type :=
| FxDecimal (n : Z) (d : Z)
| FxOther (x : float).

(** Rounding of [m * 2^e * 10^d] to the nearest integer, the larger one
    on a tie, as [toFixed] prescribes for the magnitude. *)
Definition round_scaled (m : positive) (e d : Z) : Z :=
  let num := (Zpos m * 10 ^ d)%Z in
  if (0 <=? e)%Z then (num * 2 ^ e)%Z
  else ((2 * num + 2 ^ (- e)) / (2 * 2 ^ (- e)))%Z.

(** [Number.prototype.toFixed]: a [RangeError] ([None]) unless
    [0 <= d <= 100]. *)
Definition toFixed (x : float) (d : Z) : option Fixed :=
  if ((d <? 0) || (100 <? d))%Z then None
  else Some
    match Prim2SF x with
    | S754_zero _ => FxDecimal 0 d
    | S754_finite s m e =>
        if 1e21 <=? abs x then FxOther x
        else let n := round_scaled m e d in
             FxDecimal (if s then (- n)%Z else n) d
    | _ => FxOther x
    end.

(** [parseFloat] of a [toFixed] result. *)
Definition parseFloat (f : Fixed) : float :=
  match f with
  | FxDecimal n d => of_ratio n (Z.to_pos (10 ^ d))
  | FxOther x => x
  end.

(** [BigInt(s)] on a string: a [SyntaxError] ([None]) unless [s] is a
    decimal integer literal.  The empty string converts to [0n].  The
    prefixed (hexadecimal, octal, binary), explicitly positive and
    blank-padded spellings, which no writer of the wei field produces,
    are not recognised. *)
Definition BigInt (s : string) : option Z :=
  match s with
  | EmptyString => Some 0%Z
  | _ => option_map Z.of_int (NilZero.int_of_string s)
  end.

(** [BigInt.prototype.toString]. *)
Definition BigInt_toString (z : Z) : string :=
  NilZero.string_of_int (Z.to_int z).

(** ASCII lower-casing, which is what [toLowerCase] does to the
    characters of a transaction hash or an address. *)
Definition lower_ascii (c : ascii) : ascii :=
  let n := nat_of_ascii c in
  if ((65 <=? n) && (n <=? 90))%nat then ascii_of_nat (n + 32) else c.

Fixpoint toLowerCase (s : string) : string :=
  match s with
  | EmptyString => EmptyString
  | String c s' => String (lower_ascii c) (toLowerCase s')
  end.

End JS.

(** ** The [ethers] conversions *)

Module Ethers.

(** [ethers.parseUnits(str, decimals)] on a [toFixed] result: the
    scaled integer; it throws ([None]) on a string that is not a
    decimal with at most [decimals] fractional digits. *)
Definition parseUnits (f : JS.Fixed) (decimals : Z) : option Z :=
  match f with
  | JS.FxDecimal n d => if (d <=? decimals)%Z
                        then Some (n * 10 ^ (decimals - d))%Z else None
  | JS.FxOther _ => None
  end.

(** [Number(ethers.formatUnits(wei, decimals))]: the float nearest to
    [wei / 10^decimals]; [formatUnits] throws ([None]) on a negative
    decimals count. *)
Definition formatUnits_Number (wei : Z) (decimals : Z) : option float :=
  if (decimals <? 0)%Z then None
  else Some (JS.of_ratio wei (Z.to_pos (10 ^ decimals))).

End Ethers.

(** ** The fee table ([src/config/feeConfig.js]) *)

Module FeeConfig.

Definition upper_ascii (c : ascii) : ascii :=
  let n := nat_of_ascii c in
  if ((97 <=? n) && (n <=? 122))%nat then ascii_of_nat (n - 32) else c.

(** [toUpperCase] on the letters of a chain name. *)
Fixpoint toUpperCase (s : string) : string :=
  match s with
  | EmptyString => EmptyString
  | String c s' => String (upper_ascii c) (toUpperCase s')
  end.

(** [NETWORK_FEES[category].BSC] and [NETWORK_FEES[category].TRON]. *)
Definition NETWORK_FEES_BSC (hasBioTag : bool) : float :=
  if hasBioTag then 0.2 else 0.3.
Definition NETWORK_FEES_TRON (hasBioTag : bool) : float :=
  if hasBioTag then 2.0 else 3.0.

Definition getNetworkFee (chain : string) (hasBioTag : bool) : float :=
  let chainUpper := toUpperCase chain in
  if ((chainUpper =? "BSC") || (chainUpper =? "BNB"))%string
  then NETWORK_FEES_BSC hasBioTag
  else if ((chainUpper =? "TRON") || (chainUpper =? "TRX"))%string
  then NETWORK_FEES_TRON hasBioTag
  else NETWORK_FEES_BSC hasBioTag.

Definition getServiceFee (sellerHasTag buyerHasTag : bool) : float :=
  if sellerHasTag && buyerHasTag then 0.25
  else if sellerHasTag || buyerHasTag then 0.5
  else 0.75.

End FeeConfig.

(** ** Data model *)

(** The states of a trade ([escrow.status]). *)
Inductive Status : Type :=
| draft | awaiting_details | awaiting_deposit | deposited | in_fiat_transfer
| ready_to_release | disputed | completed | refunded.

Definition Status_eqb (a b : Status) : bool :=
  match a, b with
  | draft, draft | awaiting_details, awaiting_details
  | awaiting_deposit, awaiting_deposit | deposited, deposited
  | in_fiat_transfer, in_fiat_transfer | ready_to_release, ready_to_release
  | disputed, disputed | completed, completed | refunded, refunded => true
  | _, _ => false
  end.

(** [statuses.includes(s)]. *)
Definition includes (l : list Status) (s : Status) : bool :=
  existsb (Status_eqb s) l.

(** The escrow document.  Only the fields read or written by the
    settlement and deposit handlers appear.  Number fields hold floats
    ([0] when never set), except those the code tests against [null] or
    with [typeof], which are optional. *)
#[projections(primitive)] Record Escrow : Type := mkEscrow {
  escrowId : string;
  status : Status;
  (* parties and negotiated attributes *)
  buyerId : option Z;
  sellerId : option Z;
  buyerAddress : string;
  sellerAddress : string;
  depositAddress : string;
  token : string;
  chain : string;
  groupId : Z;
  contractAddress : string;
  quantity : float;
  feeRate : option float;
  networkFee : option float;
  (* ledger *)
  depositAmount : float;
  confirmedAmount : float;
  accumulatedDepositAmount : float;
  accumulatedDepositAmountWei : string;
  transactionHash : string;
  partialTransactionHashes : list string;
  depositTransactionFromAddress : string;
  lastCheckedBlock : Z;
  (* consent *)
  buyerConfirmedRelease : bool;
  sellerConfirmedRelease : bool;
  adminConfirmedRelease : bool;
  buyerConfirmedRefund : bool;
  sellerConfirmedRefund : bool;
  pendingReleaseAmount : option float;
  pendingRefundAmount : option float;
  releaseConfirmationMessageId : option Z;
  refundConfirmationMessageId : option Z;
  (* settlement *)
  releaseTransactionHash : string;
  partialReleaseTransactionHashes : list string;
  refundTransactionHash : string;
  completedAt : option Z;
  buyerClosedTrade : bool;
  sellerClosedTrade : bool
}.

(** Field assignment [e.f = v].  The assignment function of a field is
    obtained from the constructor applied to all projections by replacing
    the projection assigned to. *)
Class Setter {T : Type} (proj : Escrow -> T) := setter : T -> Escrow -> Escrow.
Arguments setter {T} proj {Setter} _ _.

Definition rebuild (e : Escrow) : Escrow :=
  mkEscrow (escrowId e) (status e) (buyerId e) (sellerId e) (buyerAddress e)
    (sellerAddress e) (depositAddress e) (token e) (chain e) (groupId e)
    (contractAddress e) (quantity e) (feeRate e) (networkFee e)
    (depositAmount e) (confirmedAmount e) (accumulatedDepositAmount e)
    (accumulatedDepositAmountWei e) (transactionHash e)
    (partialTransactionHashes e) (depositTransactionFromAddress e)
    (lastCheckedBlock e) (buyerConfirmedRelease e) (sellerConfirmedRelease e)
    (adminConfirmedRelease e) (buyerConfirmedRefund e)
    (sellerConfirmedRefund e) (pendingReleaseAmount e)
    (pendingRefundAmount e) (releaseConfirmationMessageId e)
    (refundConfirmationMessageId e) (releaseTransactionHash e)
    (partialReleaseTransactionHashes e) (refundTransactionHash e)
    (completedAt e) (buyerClosedTrade e) (sellerClosedTrade e).

Ltac assign proj :=
  let v := fresh "v" in
  let e := fresh "e" in
  intros v e;
  let body := eval cbv beta delta [rebuild] in (rebuild e) in
  match eval pattern (proj e) in body with
  | ?g _ => let r := eval cbv beta in (g v) in exact r
  end.

#[global] Instance set_status : Setter status.
Proof. assign status. Defined.
#[global] Instance set_quantity : Setter quantity.
Proof. assign quantity. Defined.
#[global] Instance set_depositAmount : Setter depositAmount.
Proof. assign depositAmount. Defined.
#[global] Instance set_confirmedAmount : Setter confirmedAmount.
Proof. assign confirmedAmount. Defined.
#[global] Instance set_accumulatedDepositAmount : Setter accumulatedDepositAmount.
Proof. assign accumulatedDepositAmount. Defined.
#[global] Instance set_accumulatedDepositAmountWei :
  Setter accumulatedDepositAmountWei.
Proof. assign accumulatedDepositAmountWei. Defined.
#[global] Instance set_transactionHash : Setter transactionHash.
Proof. assign transactionHash. Defined.
#[global] Instance set_partialTransactionHashes : Setter partialTransactionHashes.
Proof. assign partialTransactionHashes. Defined.
#[global] Instance set_depositTransactionFromAddress :
  Setter depositTransactionFromAddress.
Proof. assign depositTransactionFromAddress. Defined.
#[global] Instance set_lastCheckedBlock : Setter lastCheckedBlock.
Proof. assign lastCheckedBlock. Defined.
#[global] Instance set_buyerConfirmedRelease : Setter buyerConfirmedRelease.
Proof. assign buyerConfirmedRelease. Defined.
#[global] Instance set_sellerConfirmedRelease : Setter sellerConfirmedRelease.
Proof. assign sellerConfirmedRelease. Defined.
#[global] Instance set_adminConfirmedRelease : Setter adminConfirmedRelease.
Proof. assign adminConfirmedRelease. Defined.
#[global] Instance set_buyerConfirmedRefund : Setter buyerConfirmedRefund.
Proof. assign buyerConfirmedRefund. Defined.
#[global] Instance set_sellerConfirmedRefund : Setter sellerConfirmedRefund.
Proof. assign sellerConfirmedRefund. Defined.
#[global] Instance set_pendingReleaseAmount : Setter pendingReleaseAmount.
Proof. assign pendingReleaseAmount. Defined.
#[global] Instance set_pendingRefundAmount : Setter pendingRefundAmount.
Proof. assign pendingRefundAmount. Defined.
#[global] Instance set_releaseTransactionHash : Setter releaseTransactionHash.
Proof. assign releaseTransactionHash. Defined.
#[global] Instance set_partialReleaseTransactionHashes :
  Setter partialReleaseTransactionHashes.
Proof. assign partialReleaseTransactionHashes. Defined.
#[global] Instance set_refundTransactionHash : Setter refundTransactionHash.
Proof. assign refundTransactionHash. Defined.
#[global] Instance set_completedAt : Setter completedAt.
Proof. assign completedAt. Defined.
#[global] Instance set_buyerClosedTrade : Setter buyerClosedTrade.
Proof. assign buyerClosedTrade. Defined.
#[global] Instance set_sellerClosedTrade : Setter sellerClosedTrade.
Proof. assign sellerClosedTrade. Defined.

Notation "e <| p := v |>" := (setter p v e)
  (at level 1, left associativity, p at level 0, v at level 200,
   format "e  <| p  :=  v |>").

(** The callback context: who clicked, on which message, and what the
    collaborators outside the handler answer about the click.
    [configAdmin] is the admin test on the [config] lists and
    [middlewareAdmin] the [isAdmin(ctx)] test of the admin middleware;
    [editCaptionOk] tells whether Telegram accepts the caption edit the
    refund handler waits for; [now] is the clock. *)
Record Ctx : Type := mkCtx {
  userId : Z;
  callbackMessageId : option Z;
  configAdmin : bool;
  middlewareAdmin : bool;
  editCaptionOk : bool;
  now : Z
}.

(** A transfer observed on chain, as the deposit-detection collaborator
    reports it ([hash] is empty when the record carries none;
    [valueDecimal] is [Number(tx.valueDecimal)]). *)
Record Transfer : Type := mkTransfer {
  from : string;
  to : string;
  hash : string;
  valueDecimal : float
}.

(** The arguments of [BlockchainService.releaseFunds] and
    [BlockchainService.refundFunds]. *)
Record TransferCall : Type := mkCall {
  call_token : string;
  call_chain : string;
  call_to : string;
  call_amount : float;
  call_amountWei : option string;
  call_groupId : Z;
  call_contract : string
}.

(** What the transfer collaborator does: it throws, resolves to nothing,
    or resolves to [{success, transactionHash}]. *)
Inductive TransferResult : Type :=
| TxThrows (message : string)
| TxNull
| TxResult (success : bool) (transactionHash : string).

(** The blockchain collaborator ([services/BlockchainService]), which is
    outside the modelled code. *)
Record Services : Type := mkServices {
  getTokenDecimals : string -> string -> Z;
  releaseFunds : TransferCall -> TransferResult;
  refundFunds : TransferCall -> TransferResult;
  getTokenTransfersViaRPC : string -> string -> string -> Z -> list Transfer;
  getTokenTransactions : string -> string -> string -> list Transfer;
  getLatestBlockNumber : string -> option Z
}.

(** Exceptions. *)
Inductive Err : Type :=
| NetAmountTooLow         (* "Net amount after fees is too low/negative" *)
| AmountAfterNetworkFee   (* "Release amount (..) after network fee (..) is <= 0" *)
| NoResult                (* "... transaction failed - no result returned" *)
| NoTransactionHash       (* "... succeeded but no transaction hash returned" *)
| TypeError
| SyntaxError
| RangeError
| Collaborator (message : string).

(** The messages shown to the users. *)
Inductive Signal : Type :=
| NoActiveEscrow          (* "No active escrow found." *)
| EscrowNotFound          (* "Escrow not found." *)
| ConfirmationInvalid     (* "This release confirmation is no longer valid or has already been processed." *)
| ExpiredRequest          (* "Expired request." *)
| AlreadySettled          (* "This deal has already been settled." *)
| OnlyAdmin               (* "Only admin can confirm admin release." *)
| OnlyParties             (* "Only buyer, seller, or admin can approve release." *)
| AccessDenied            (* "Access denied." *)
| OnlySeller              (* "Only the seller can confirm release." *)
| ProcessingAdminRelease  (* "Processing admin release..." *)
| ProcessingRelease (admin : bool)
                          (* "Admin confirmed. Processing release..." or
                             "Both parties approved. Processing release..." *)
| ApprovalRecorded        (* "Your approval has been recorded. Waiting for confirmation..." *)
| WaitingOtherParty       (* "Confirmed. Waiting for other party..." *)
| ProcessingRefund        (* "Processing refund..." *)
| Releasing               (* "Releasing..." *)
| MissingAddressOrZero    (* "Cannot release funds: missing buyer address or zero amount." *)
| ExceedsBalance (available : float)
                          (* "Release amount exceeds available balance (..)." *)
| NonPositiveAmount       (* "Release amount must be greater than 0." *)
| NetTooSmall             (* "Net amount too small." *)
| InvalidAmount           (* "Invalid amount." *)
| ReleaseComplete (partial : bool) (amount : float)
                          (* "Deal Complete!" or "Partial Release Complete!" *)
| AdminReleaseComplete (amount : float)
                          (* "Admin Release Complete!" *)
| RefundComplete (amount : float)
                          (* "Refund Partial/Full Complete!" *)
| ReleaseFailed (e : Err) (* "Release failed ..." / "Error releasing funds: .." *)
| RefundFailed (e : Err)  (* "Refund failed: .." *)
| CheckingDeposit         (* "Checking for your deposit..." *)
| NoDepositAddress        (* "No active deposit address found." *)
| DepositConfirmed (amount : float)
                          (* "Deposit confirmed: .." *)
| SendFiatPrompt          (* "Buyer ..: Please send the agreed fiat amount ..." *)
| NoNewDeposit            (* "No new deposit found yet. ..." *)
| ErrorOccurred.          (* "An error occurred" *)

(** What a handler does to the outside, in order. *)
Inductive Event : Type :=
| Answer (s : Signal)              (* safeAnswerCbQuery(ctx, ..) *)
| Reply (s : Signal)               (* ctx.reply(..) or sendMessage(..) *)
| CallRelease (c : TransferCall)   (* BlockchainService.releaseFunds(..) *)
| CallRefund (c : TransferCall).   (* BlockchainService.refundFunds(..) *)

(** The transfer collaborator calls of a trace. *)
Fixpoint transfers (t : list Event) : list TransferCall :=
  match t with
  | [] => []
  | CallRelease c :: t' | CallRefund c :: t' => c :: transfers t'
  | _ :: t' => transfers t'
  end.

(** ** The handler monad

    A handler runs against the stored document of the trade (absent when
    no document has the identifier) and appends to the trace.  It ends by
    falling off its end or by [return], or it throws. *)

Record World : Type := mkWorld {
  db : option Escrow;
  trace : list Event
}.

Inductive Res (A : Type) : Type :=
| Val (a : A)
| Returned
| Thrown (e : Err).
Arguments Val {A} a.
Arguments Returned {A}.
Arguments Thrown {A} e.

Definition Handler (A : Type) : Type := World -> Res A * World.

Definition ret {A} (a : A) : Handler A := fun w => (Val a, w).

Definition bind {A B} (m : Handler A) (k : A -> Handler B) : Handler B :=
  fun w => match m w with
           | (Val a, w') => k a w'
           | (Returned, w') => (Returned, w')
           | (Thrown e, w') => (Thrown e, w')
           end.

Notation "x <- m ;; k" := (bind m (fun x => k))
  (at level 61, m at next level, right associativity).
Notation "m ;; k" := (bind m (fun _ => k))
  (at level 61, right associativity).

(** [return;] *)
Definition return_ {A} : Handler A := fun w => (Returned, w).

(** [throw e;] *)
Definition throw {A} (e : Err) : Handler A := fun w => (Thrown e, w).

(** [try { body } catch (e) { handler }] *)
Definition try_catch {A} (body : Handler A) (handler : Err -> Handler A)
  : Handler A :=
  fun w => match body w with
           | (Thrown e, w') => handler e w'
           | r => r
           end.

Definition emit (ev : Event) : Handler unit :=
  fun w => (Val tt, mkWorld (db w) (trace w ++ [ev])).

Definition answer (s : Signal) : Handler unit := emit (Answer s).
Definition reply (s : Signal) : Handler unit := emit (Reply s).

(** [return safeAnswerCbQuery(ctx, s);] *)
Definition answer_return {A} (s : Signal) : Handler A :=
  answer s ;; return_.

(** [if (c) body] where [body] may return or throw. *)
Definition when (c : bool) (body : Handler unit) : Handler unit :=
  if c then body else ret tt.

(** A computation without effects that may throw. *)
Inductive Try (A : Type) : Type :=
| Ok (a : A)
| Fail (e : Err).
Arguments Ok {A} a.
Arguments Fail {A} e.

Definition lift {A} (t : Try A) : Handler A :=
  match t with Ok a => ret a | Fail e => throw e end.

(** The value of a conversion, or the exception [e] when it has none. *)
Definition orFail {A} (e : Err) (o : option A) : Try A :=
  match o with Some a => Ok a | None => Fail e end.

(** [Escrow.findOne({escrowId, status: {$in: statuses}})], and
    [Escrow.findOne({escrowId})] when no status filter is given. *)
Definition findOne (filter : option (list Status))
  : Handler (option Escrow) :=
  fun w => (Val match db w, filter with
                | Some e, Some statuses =>
                    if includes statuses (status e) then Some e else None
                | Some e, None => Some e
                | None, _ => None
                end, w).

(** [Escrow.findById(escrow._id)]: the document as last saved. *)
Definition findById : Handler Escrow :=
  fun w => match db w with
           | Some e => (Val e, w)
           | None => (Thrown TypeError, w)
           end.

(** [escrow.save()] *)
Definition save (e : Escrow) : Handler unit :=
  fun w => (Val tt, mkWorld (Some e) (trace w)).

(** The exported callback: the handler body inside the outer
    [try { .. } catch (error) { answer "An error occurred" }], run on a
    stored document with an empty trace. *)
Definition run (h : Handler unit) (stored : option Escrow) : World :=
  match h (mkWorld stored []) with
  | (Thrown _, w) => mkWorld (db w) (trace w ++ [Answer ErrorOccurred])
  | (_, w) => w
  end.

(** ** The handlers of [callbackHandler.js] *)

(** [Number(a) === Number(b)] on a stored party identifier and the
    identifier of the clicking user. *)
Definition same_id (stored : option Z) (user : Z) : bool :=
  match stored with Some i => (i =? user)%Z | None => false end.

(** [!stored || (clicked && stored !== clicked)]: the click does not
    refer to the prompt recorded on the trade. *)
Definition stale (stored clicked : option Z) : bool :=
  negb (JS.truthy_id stored)
  || (JS.truthy_id clicked
      && match stored, clicked with
         | Some a, Some b => negb (a =? b)%Z
         | _, _ => true
         end).

(** [if (!found) return ..;] *)
Definition require {A} (found : option A) (otherwise : Handler A)
  : Handler A :=
  match found with Some a => ret a | None => otherwise end.

Definition settlement_statuses : list Status :=
  [deposited; in_fiat_transfer; ready_to_release; disputed].

Definition EPSILON : float := 0.00001.

(** *** Deposit detection: [check_deposit] (lines 1390-1520) *)

(** The two tests of the filter on the hashes already on the trade, with
    its case-insensitive comparison. *)
Definition recorded (escrow : Escrow) (h : string) : bool :=
  (JS.truthy_str (transactionHash escrow)
   && (JS.toLowerCase (transactionHash escrow) =? JS.toLowerCase h)%string)
  || existsb (fun p => (JS.toLowerCase p =? JS.toLowerCase h)%string)
             (partialTransactionHashes escrow).

(** The predicate of [txs.filter(..)]: a transfer into the vault whose
    hash, if it has one, is not yet recorded on the trade. *)
Definition is_new_deposit (escrow : Escrow) (vaultAddr : string)
           (tx : Transfer) : bool :=
  if negb (JS.toLowerCase (to tx) =? vaultAddr)%string then false
  else if negb (JS.truthy_str (hash tx)) then true
  else negb (recorded escrow (hash tx)).

(** The body of [for (const tx of newDeposits)]. *)
Definition record_hash (escrow : Escrow) (tx : Transfer) : Escrow :=
  if negb (JS.truthy_str (hash tx)) then escrow
  else if negb (JS.truthy_str (transactionHash escrow)) then
    escrow <| transactionHash := hash tx |>
           <| depositTransactionFromAddress := from tx |>
  else if negb (existsb (String.eqb (hash tx))
                        (partialTransactionHashes escrow))
          && negb (transactionHash escrow =? hash tx)%string
       then escrow <| partialTransactionHashes :=
                        partialTransactionHashes escrow ++ [hash tx] |>
  else escrow.

(** [newDeposits.reduce((sum, tx) => sum + Number(tx.valueDecimal), 0)] *)
Definition sum_values (l : list Transfer) : float :=
  fold_left (fun sum tx => sum + valueDecimal tx) l 0.

(** The transfers the collaborator reports for the vault: the RPC scan
    from the last checked block, or the indexer when the scan is empty. *)
Definition observed (svc : Services) (escrow : Escrow) : list Transfer :=
  match getTokenTransfersViaRPC svc (token escrow) (chain escrow)
          (depositAddress escrow) (lastCheckedBlock escrow) with
  | [] => getTokenTransactions svc (token escrow) (chain escrow)
            (depositAddress escrow)
  | txs => txs
  end.

Definition newDeposits (svc : Services) (escrow : Escrow) : list Transfer :=
  filter (is_new_deposit escrow (JS.toLowerCase (depositAddress escrow)))
         (observed svc escrow).

Definition check_deposit (svc : Services) : Handler unit :=
  answer CheckingDeposit ;;
  found <- findOne (Some [awaiting_deposit; deposited]) ;;
  escrow <- require found (reply NoDepositAddress ;; return_) ;;
  when (negb (JS.truthy_str (depositAddress escrow)))
       (reply NoDepositAddress ;; return_) ;;
  let newDeposits := newDeposits svc escrow in
  let newAmount := sum_values newDeposits in
  let previousAmount := depositAmount escrow in
  let totalAmount := previousAmount + newAmount in
  if JS.gt newAmount 0 then
    let escrow :=
      match getLatestBlockNumber svc (chain escrow) with
      | Some latest => if (latest =? 0)%Z then escrow
                       else escrow <| lastCheckedBlock := latest |>
      | None => escrow
      end in
    let escrow := fold_left record_hash newDeposits escrow in
    let escrow := escrow <| depositAmount := totalAmount |>
                         <| confirmedAmount := totalAmount |>
                         <| status := deposited |> in
    save escrow ;;
    reply (DepositConfirmed newAmount) ;;
    when (JS.truthy_id (buyerId escrow)) (reply SendFiatPrompt)
  else
    reply NoNewDeposit.

(** *** The amounts the release handlers start from *)

(** [wei && wei !== "0" ? wei : null] *)
Definition totalDepositedWei (e : Escrow) : option string :=
  let wei := accumulatedDepositAmountWei e in
  if JS.truthy_str wei && negb (wei =? "0")%string then Some wei else None.

(** [Number(accumulatedDepositAmount || depositAmount ||
    confirmedAmount || 0)] *)
Definition totalDeposited (e : Escrow) : float :=
  JS.or_else (accumulatedDepositAmount e)
    (JS.or_else (depositAmount e) (JS.or_else (confirmedAmount e) 0)).

(** [totalDepositedWei
      ? Number(ethers.formatUnits(BigInt(totalDepositedWei), decimals))
      : totalDeposited] *)
Definition formattedTotalDeposited (e : Escrow) (decimals : Z) : Try float :=
  match totalDepositedWei e with
  | Some wei =>
      match JS.BigInt wei with
      | Some n => orFail RangeError (Ethers.formatUnits_Number n decimals)
      | None => Fail SyntaxError
      end
  | None => Ok (totalDeposited e)
  end.

(** [ethers.parseUnits(x.toFixed(decimals), decimals)], [None] when
    either call throws. *)
Definition parseFixed (x : float) (decimals : Z) : option Z :=
  match JS.toFixed x decimals with
  | Some f => Ethers.parseUnits f decimals
  | None => None
  end.

(** The [try] block computing [proportionalWei.toString()]; [None] when
    it throws (a conversion fails or the divisor is [0n]). *)
Definition proportionalWei (wei : string) (amount formatted : float)
           (decimals : Z) : option string :=
  match parseFixed amount decimals, parseFixed formatted decimals,
        JS.BigInt wei with
  | Some amountWei, Some totalDepositedAmountWei, Some total =>
      if (totalDepositedAmountWei =? 0)%Z then None
      else Some (JS.BigInt_toString
                   (Z.quot (total * amountWei) totalDepositedAmountWei))
  | _, _, _ => None
  end.

(** [try { parseUnits(amount.toFixed(decimals), decimals).toString() }
    catch { null }] *)
Definition directWei (amount : float) (decimals : Z) : option string :=
  option_map JS.BigInt_toString (parseFixed amount decimals).

(** The [amountWeiOverride] of a settlement of [amount]. *)
Definition amountWeiOverride (totalWei : option string)
           (amount formatted : float) (decimals : Z) : option string :=
  let isFull := JS.Math_abs (amount - formatted) <? EPSILON in
  match totalWei with
  | Some wei =>
      if isFull then Some wei
      else if JS.gt formatted 0 then
        match proportionalWei wei amount formatted decimals with
        | Some s => Some s
        | None => directWei amount decimals
        end
      else directWei amount decimals
  | None => directWei amount decimals
  end.

(** What is left in the integer mirror after [override] has gone:
    [BigInt(totalDepositedWei) - BigInt(amountWeiOverride)], stored as
    ["0"] when negative.  The conversions may throw. *)
Definition remainingWei (wei override : string) : Try string :=
  match JS.BigInt wei, JS.BigInt override with
  | Some a, Some b =>
      let remaining := (a - b)%Z in
      Ok (if (remaining <? 0)%Z then "0" else JS.BigInt_toString remaining)
  | _, _ => Fail SyntaxError
  end.

(** The assignments of a full release: the trade completes and the
    ledger is zeroed. *)
Definition complete_release (ctx : Ctx) (paid : float) (e : Escrow)
  : Escrow :=
  let e := if negb (JS.truthy (quantity e)) || (quantity e <=? 0)
           then e <| quantity := paid |> else e in
  e <| status := completed |>
    <| completedAt := Some (now ctx) |>
    <| accumulatedDepositAmount := 0 |>
    <| depositAmount := 0 |>
    <| confirmedAmount := 0 |>
    <| accumulatedDepositAmountWei := "0" |>.

(** The assignments of a partial release: the remainder becomes the
    balance, in the decimal fields and, when both the mirror and the
    override exist, in the integer mirror. *)
Definition keep_remainder (remaining : float)
           (totalWei override : option string) (e : Escrow) : Try Escrow :=
  let e := e <| accumulatedDepositAmount := remaining |>
             <| depositAmount := remaining |>
             <| confirmedAmount := remaining |> in
  match totalWei, override with
  | Some w, Some o =>
      if JS.truthy_str o then
        match remainingWei w o with
        | Ok r => Ok (e <| accumulatedDepositAmountWei := r |>)
        | Fail err => Fail err
        end
      else Ok e
  | _, _ => Ok e
  end.

(** The checks on what the transfer collaborator resolved to, in the
    release handlers. *)
Definition release_hash (r : TransferResult) : Try string :=
  match r with
  | TxThrows m => Fail (Collaborator m)
  | TxNull | TxResult false _ => Fail NoResult
  | TxResult true h => if JS.truthy_str h then Ok h
                       else Fail NoTransactionHash
  end.

Definition release_call (e : Escrow) (amount : float)
           (override : option string) : TransferCall :=
  mkCall (token e) (chain e) (buyerAddress e) amount override
         (groupId e) (contractAddress e).

(** [await BlockchainService.releaseFunds(..)] *)
Definition callRelease (svc : Services) (c : TransferCall)
  : Handler TransferResult :=
  emit (CallRelease c) ;;
  match releaseFunds svc c with
  | TxThrows m => throw (Collaborator m)
  | r => ret r
  end.

(** [net = gross - (gross * feeRate) / 100 - networkFee] *)
Definition netPayout (gross feeRatePercent networkFeeFlat : float) : float :=
  gross - (gross * feeRatePercent) / 100 - networkFeeFlat.

(** *** [release_confirm_yes_] (lines 2348-2989) *)

(** The approval the click records (lines 2386-2408). *)
Definition record_release_click (ctx : Ctx) (escrow : Escrow) : Escrow :=
  let isBuyer := same_id (buyerId escrow) (userId ctx) in
  let isSeller := same_id (sellerId escrow) (userId ctx) in
  let isAdmin := configAdmin ctx in
  let escrow := if isBuyer
                then escrow <| buyerConfirmedRelease := true |>
                else escrow in
  let escrow := if isSeller
                then escrow <| sellerConfirmedRelease := true |>
                else escrow in
  if isAdmin && negb isBuyer && negb isSeller
  then escrow <| adminConfirmedRelease := true |>
  else escrow.

(** [canExecute = adminApproved || bothPartiesApproved] *)
Definition canExecute (e : Escrow) : bool :=
  adminConfirmedRelease e
  || (buyerConfirmedRelease e && sellerConfirmedRelease e).

(** Lines 2522-2989: the settlement once the approvals suffice. *)
Definition release_settle (svc : Services) (ctx : Ctx)
           (updatedEscrow : Escrow) : Handler unit :=
  when (JS.truthy_str (releaseTransactionHash updatedEscrow)
        || includes [completed; refunded] (status updatedEscrow))
       (answer_return AlreadySettled) ;;
  let decimals :=
    getTokenDecimals svc (token updatedEscrow) (chain updatedEscrow) in
  let totalWei := totalDepositedWei updatedEscrow in
  formatted <- lift (formattedTotalDeposited updatedEscrow decimals) ;;
  when (negb (JS.truthy_str (buyerAddress updatedEscrow))
        || (totalDeposited updatedEscrow <=? 0))
       (answer_return MissingAddressOrZero) ;;
  let releaseAmount :=
    match pendingReleaseAmount updatedEscrow with
    | Some pending => pending
    | None => formatted
    end in
  when (JS.gt releaseAmount formatted)
       (answer_return (ExceedsBalance formatted)) ;;
  when (releaseAmount <=? 0) (answer_return NonPositiveAmount) ;;
  let override :=
    amountWeiOverride totalWei releaseAmount formatted decimals in
  let feeRateVal := JS.num (feeRate updatedEscrow) in
  let networkFee := JS.num (networkFee updatedEscrow) in
  let grossReleaseAmount := releaseAmount in
  let actualAmountToUser :=
    netPayout grossReleaseAmount feeRateVal networkFee in
  when (actualAmountToUser <=? 0) (answer_return NetTooSmall) ;;
  try_catch
    (releaseResult <-
       callRelease svc (release_call updatedEscrow actualAmountToUser None) ;;
     h <- lift (release_hash releaseResult) ;;
     let updatedEscrow :=
       updatedEscrow
         <| releaseTransactionHash := h |>
         <| partialReleaseTransactionHashes :=
              partialReleaseTransactionHashes updatedEscrow ++ [h] |> in
     let maxAmountToContract := formatted - networkFee in
     let maxServiceFee := (maxAmountToContract * feeRateVal) / 100 in
     let maxReceivable := maxAmountToContract - maxServiceFee in
     let isPartialRelease :=
       JS.gt (JS.Math_abs (actualAmountToUser - maxReceivable)) EPSILON in
     let finish (e : Escrow) : Escrow :=
       (complete_release ctx actualAmountToUser e)
         <| buyerClosedTrade := false |>
         <| sellerClosedTrade := false |> in
     updatedEscrow <-
       (if isPartialRelease then
          let remainingAmount := formatted - grossReleaseAmount in
          if remainingAmount <? EPSILON then ret (finish updatedEscrow)
          else lift (keep_remainder remainingAmount totalWei override
                                    updatedEscrow)
        else ret (finish updatedEscrow)) ;;
     save (updatedEscrow <| pendingReleaseAmount := None |>) ;;
     reloadedEscrow <- findById ;;
     let isActuallyFullRelease :=
       Status_eqb (status reloadedEscrow) completed in
     reply (ReleaseComplete (negb isActuallyFullRelease) actualAmountToUser))
    (fun error => answer_return (ReleaseFailed error)).

Definition release_confirm_yes (svc : Services) (ctx : Ctx) : Handler unit :=
  found <- findOne (Some settlement_statuses) ;;
  escrow <- require found (answer_return NoActiveEscrow) ;;
  when (stale (releaseConfirmationMessageId escrow) (callbackMessageId ctx))
       (answer_return ConfirmationInvalid) ;;
  when (includes [completed; refunded] (status escrow))
       (answer_return AlreadySettled) ;;
  when (negb (same_id (buyerId escrow) (userId ctx))
        && negb (same_id (sellerId escrow) (userId ctx))
        && negb (configAdmin ctx))
       (answer_return OnlyParties) ;;
  save (record_release_click ctx escrow) ;;
  updatedEscrow <- findById ;;
  (if canExecute updatedEscrow
   then answer (ProcessingRelease (adminConfirmedRelease updatedEscrow))
   else answer_return ApprovalRecorded) ;;
  release_settle svc ctx updatedEscrow.

(** *** [admin_release_confirm_yes_] (lines 1886-2347) *)

(** [typeof feeRate === "number" ? feeRate : 0.75] *)
Definition feeRate_or_default (e : Escrow) : float :=
  match feeRate e with Some r => r | None => 0.75 end.

(** The release amount the admin handler derives when no partial amount
    is pending (lines 1976-2001): the payout after both fees, floored to
    cents, is divided by [1 - feeRate/100]. *)
Definition grossed_up (e : Escrow) : float :=
  let totalDeposited := totalDeposited e in
  let networkFee := JS.num (networkFee e) in
  let feeRateDecimal := feeRate_or_default e / 100 in
  let grossFee := totalDeposited * feeRateDecimal in
  let totalDeductions := networkFee + grossFee in
  let targetPayout := totalDeposited - totalDeductions in
  let targetPayout := JS.Math_floor (targetPayout * 100) / 100 in
  let releaseAmount :=
    if targetPayout <=? 0 then totalDeposited - networkFee
    else if JS.ge feeRateDecimal 1 then totalDeposited - networkFee
    else targetPayout / (1 - feeRateDecimal) in
  if JS.gt releaseAmount totalDeposited then totalDeposited
  else releaseAmount.

(** Lines 1938-2347: the settlement after the admin approval is saved. *)
Definition admin_release_settle (svc : Services) (ctx : Ctx)
           (updatedEscrow : Escrow) : Handler unit :=
  let decimals :=
    getTokenDecimals svc (token updatedEscrow) (chain updatedEscrow) in
  let totalWei := totalDepositedWei updatedEscrow in
  formatted <- lift (formattedTotalDeposited updatedEscrow decimals) ;;
  when (negb (JS.truthy_str (buyerAddress updatedEscrow))
        || (totalDeposited updatedEscrow <=? 0))
       (answer_return MissingAddressOrZero) ;;
  let releaseAmount :=
    match pendingReleaseAmount updatedEscrow with
    | Some pending => pending
    | None => grossed_up updatedEscrow
    end in
  let networkFee := JS.num_or0 (networkFee updatedEscrow) in
  let feeRateVal := feeRate_or_default updatedEscrow in
  let netAmount := netPayout releaseAmount feeRateVal networkFee in
  when (netAmount <=? 0) (throw NetAmountTooLow) ;;
  callRelease svc (release_call updatedEscrow netAmount None) ;;
  when (JS.gt releaseAmount formatted)
       (answer_return (ExceedsBalance formatted)) ;;
  when (releaseAmount <=? 0) (answer_return NonPositiveAmount) ;;
  let override :=
    amountWeiOverride totalWei releaseAmount formatted decimals in
  try_catch
    (let amountToRelease := releaseAmount - networkFee in
     when (amountToRelease <=? 0) (throw AmountAfterNetworkFee) ;;
     releaseResult <-
       callRelease svc
         (release_call updatedEscrow amountToRelease override) ;;
     h <- lift (release_hash releaseResult) ;;
     let updatedEscrow :=
       updatedEscrow
         <| releaseTransactionHash := h |>
         <| partialReleaseTransactionHashes :=
              partialReleaseTransactionHashes updatedEscrow ++ [h] |> in
     let isPartialRelease :=
       JS.ge (JS.Math_abs (releaseAmount - formatted)) EPSILON in
     let remainingAmount := formatted - releaseAmount in
     let isActuallyFullRelease := remainingAmount <? EPSILON in
     updatedEscrow <-
       (if isPartialRelease && negb isActuallyFullRelease
        then lift (keep_remainder remainingAmount totalWei override
                                  updatedEscrow)
        else ret (complete_release ctx releaseAmount updatedEscrow)) ;;
     save (updatedEscrow <| pendingReleaseAmount := None |>
                         <| adminConfirmedRelease := false |>) ;;
     reply (AdminReleaseComplete releaseAmount))
    (fun releaseError => reply (ReleaseFailed releaseError)).

Definition admin_release_confirm_yes (svc : Services) (ctx : Ctx)
  : Handler unit :=
  found <- findOne (Some settlement_statuses) ;;
  escrow <- require found (answer_return NoActiveEscrow) ;;
  when (stale (releaseConfirmationMessageId escrow) (callbackMessageId ctx))
       (answer_return ConfirmationInvalid) ;;
  when (includes [completed; refunded] (status escrow))
       (answer_return AlreadySettled) ;;
  when (negb (configAdmin ctx)) (answer_return OnlyAdmin) ;;
  save (escrow <| adminConfirmedRelease := true |>) ;;
  answer ProcessingAdminRelease ;;
  updatedEscrow <- findById ;;
  admin_release_settle svc ctx updatedEscrow.

(** *** [refund_confirm_yes_] (lines 3020-3245) *)

Definition refund_call (e : Escrow) (amount : float) : TransferCall :=
  mkCall (token e) (chain e) (sellerAddress e) amount None
         (groupId e) (contractAddress e).

(** [await BlockchainService.refundFunds(..)] followed by
    [refundResult.transactionHash]. *)
Definition callRefund (svc : Services) (c : TransferCall) : Handler string :=
  emit (CallRefund c) ;;
  match refundFunds svc c with
  | TxThrows m => throw (Collaborator m)
  | TxNull => throw TypeError
  | TxResult _ h => ret h
  end.

(** The approval the click records (lines 3034-3048). *)
Definition record_refund_click (ctx : Ctx) (escrow : Escrow) : Escrow :=
  let isBuyer := same_id (buyerId escrow) (userId ctx) in
  let isSeller := same_id (sellerId escrow) (userId ctx) in
  let isUserAdmin := middlewareAdmin ctx in
  let escrow := if isBuyer
                then escrow <| buyerConfirmedRefund := true |>
                else escrow in
  let escrow := if isSeller
                then escrow <| sellerConfirmedRefund := true |>
                else escrow in
  if isUserAdmin && negb isBuyer && negb isSeller
  then escrow <| buyerConfirmedRefund := true |>
              <| sellerConfirmedRefund := true |>
  else escrow.

(** [buyerConfirmedRefund && sellerConfirmedRefund] *)
Definition bothConfirmedRefund (e : Escrow) : bool :=
  buyerConfirmedRefund e && sellerConfirmedRefund e.

(** [Number(accumulatedDepositAmount || depositAmount || 0)] *)
Definition refund_totalDeposited (e : Escrow) : float :=
  JS.or_else (accumulatedDepositAmount e) (JS.or_else (depositAmount e) 0).

(** [Math.min(pendingRefundAmount || totalDeposited, totalDeposited)] *)
Definition refundAmount (e : Escrow) : float :=
  let totalDeposited := refund_totalDeposited e in
  let pendingAmt :=
    match pendingRefundAmount e with
    | Some p => JS.or_else p totalDeposited
    | None => totalDeposited
    end in
  JS.Math_min pendingAmt totalDeposited.

(** Lines 3160-3169: the network fee comes off the refund unless that
    leaves nothing. *)
Definition refund_payable (refundAmountNum networkFee : float) : float :=
  let amountToContract := refundAmountNum - networkFee in
  if amountToContract <=? 0 then refundAmountNum else amountToContract.

(** Lines 3119-3244: the refund once both flags are set. *)
Definition refund_settle (svc : Services) (updatedEscrow : Escrow)
  : Handler unit :=
  answer ProcessingRefund ;;
  let totalDeposited := refund_totalDeposited updatedEscrow in
  let refundAmount := refundAmount updatedEscrow in
  when (refundAmount <=? 0) (answer_return InvalidAmount) ;;
  let decimals :=
    getTokenDecimals svc (token updatedEscrow) (chain updatedEscrow) in
  let isFullAmount :=
    JS.Math_abs (refundAmount - totalDeposited) <? EPSILON in
  refundAmountStr <-
    lift (orFail RangeError (JS.toFixed refundAmount decimals)) ;;
  let refundAmountNum := JS.parseFloat refundAmountStr in
  let networkFee := JS.num_or0 (networkFee updatedEscrow) in
  let actualAmountToUser := refund_payable refundAmountNum networkFee in
  try_catch
    (h <- callRefund svc (refund_call updatedEscrow actualAmountToUser) ;;
     let updatedEscrow := updatedEscrow <| refundTransactionHash := h |> in
     let isPartial := negb isFullAmount in
     let zeroed (e : Escrow) : Escrow :=
       e <| status := refunded |>
         <| accumulatedDepositAmount := 0 |>
         <| depositAmount := 0 |>
         <| confirmedAmount := 0 |> in
     let updatedEscrow :=
       if isPartial then
         let remaining := totalDeposited - refundAmount in
         if remaining <? EPSILON then zeroed updatedEscrow
         else updatedEscrow <| accumulatedDepositAmount := remaining |>
                            <| depositAmount := remaining |>
                            <| confirmedAmount := remaining |>
       else zeroed updatedEscrow in
     save (updatedEscrow <| pendingRefundAmount := None |>) ;;
     reply (RefundComplete refundAmount))
    (fun error => reply (RefundFailed error)).

Definition refund_confirm_yes (svc : Services) (ctx : Ctx) : Handler unit :=
  found <- findOne None ;;
  escrow <- require found (answer_return EscrowNotFound) ;;
  when (stale (refundConfirmationMessageId escrow) (callbackMessageId ctx))
       (answer_return ExpiredRequest) ;;
  when (negb (same_id (buyerId escrow) (userId ctx))
        && negb (same_id (sellerId escrow) (userId ctx))
        && negb (middlewareAdmin ctx))
       (answer_return AccessDenied) ;;
  save (record_refund_click ctx escrow) ;;
  updatedEscrow <- findById ;;
  let showButtons := negb (bothConfirmedRefund updatedEscrow) in
  when (showButtons && editCaptionOk ctx)
       (answer_return WaitingOtherParty) ;;
  when (bothConfirmedRefund updatedEscrow)
       (refund_settle svc updatedEscrow).

(** *** [fiat_release_confirm_] (lines 3831-4081) *)

Definition fiat_release_confirm (svc : Services) (ctx : Ctx) : Handler unit :=
  found <- findOne (Some [in_fiat_transfer; deposited; ready_to_release;
                          disputed]) ;;
  escrow <- require found (answer_return NoActiveEscrow) ;;
  when (negb (same_id (sellerId escrow) (userId ctx)))
       (answer_return OnlySeller) ;;
  let decimals := getTokenDecimals svc (token escrow) (chain escrow) in
  amount <- lift (formattedTotalDeposited escrow decimals) ;;
  when (negb (JS.truthy_str (buyerAddress escrow)) || (amount <=? 0))
       (reply MissingAddressOrZero ;; return_) ;;
  answer Releasing ;;
  try_catch
    (let networkFee := JS.num_or0 (networkFee escrow) in
     let amountToContract := amount - networkFee in
     releaseResult <-
       callRelease svc (mkCall (token escrow) (chain escrow)
                          (buyerAddress escrow) amountToContract None
                          (groupId escrow) "") ;;
     h <- match releaseResult with
          | TxResult _ h => if JS.truthy_str h then ret h
                            else throw NoTransactionHash
          | _ => throw NoTransactionHash
          end ;;
     save ((complete_release ctx amount escrow)
             <| releaseTransactionHash := h |>) ;;
     reply (ReleaseComplete false amount))
    (fun error => reply (ReleaseFailed error) ;; return_).

(** *** The clicks the consent handlers let through *)

(** [release_confirm_yes_] reaches its approval bookkeeping when the
    trade is in a settlement state, the click refers to the recorded
    prompt, and the user is the buyer, the seller or an admin. *)
Definition release_click_accepted (ctx : Ctx) (e : Escrow) : bool :=
  includes settlement_statuses (status e)
  && negb (stale (releaseConfirmationMessageId e) (callbackMessageId ctx))
  && (same_id (buyerId e) (userId ctx) || same_id (sellerId e) (userId ctx)
      || configAdmin ctx).

(** [admin_release_confirm_yes_] reaches its settlement when the trade is
    in a settlement state, the click refers to the recorded prompt, and
    the user is an admin. *)
Definition admin_click_accepted (ctx : Ctx) (e : Escrow) : bool :=
  includes settlement_statuses (status e)
  && negb (stale (releaseConfirmationMessageId e) (callbackMessageId ctx))
  && configAdmin ctx.

(** [refund_confirm_yes_] reaches its approval bookkeeping when the click
    refers to the recorded prompt and the user is the buyer, the seller
    or an admin; the state of the trade is not looked at. *)
Definition refund_click_accepted (ctx : Ctx) (e : Escrow) : bool :=
  negb (stale (refundConfirmationMessageId e) (callbackMessageId ctx))
  && (same_id (buyerId e) (userId ctx) || same_id (sellerId e) (userId ctx)
      || middlewareAdmin ctx).

(** A canonical decimal spelling of a non-negative integer. *)
Definition nonneg_integer_string (s : string) : Prop :=
  exists n : Z, (0 <= n)%Z /\ s = JS.BigInt_toString n.

(** The amount a release click asks for: the pending partial amount, or
    the whole balance [formatted]. *)
Definition requestedRelease (e : Escrow) (formatted : float) : float :=
  match pendingReleaseAmount e with
  | Some pending => pending
  | None => formatted
  end.

(** ** Scenario data

    The trade of the round-trip scenarios: 1000 USDT on BSC (a token of
    18 decimals) held for the trade, the fee rate of a trade with one
    tagged party (0.5 percent) and the BSC network fee without tag (0.3),
    the prompts of both directions outstanding, nobody having approved
    yet. *)

Definition sample_trade : Escrow :=
  {| escrowId := "P2P1001"; status := deposited;
     buyerId := Some 11%Z; sellerId := Some 22%Z;
     buyerAddress := "0xB0B"; sellerAddress := "0x5E11";
     depositAddress := "0xA017"; token := "USDT"; chain := "BSC";
     groupId := (-1007)%Z; contractAddress := "0xA017";
     quantity := 1000;
     feeRate := Some (FeeConfig.getServiceFee true false);
     networkFee := Some (FeeConfig.getNetworkFee "BSC" false);
     depositAmount := 1000; confirmedAmount := 1000;
     accumulatedDepositAmount := 1000;
     accumulatedDepositAmountWei := "1000000000000000000000";
     transactionHash := "0xd1"; partialTransactionHashes := [];
     depositTransactionFromAddress := "0x5E11"; lastCheckedBlock := 5%Z;
     buyerConfirmedRelease := false; sellerConfirmedRelease := false;
     adminConfirmedRelease := false; buyerConfirmedRefund := false;
     sellerConfirmedRefund := false; pendingReleaseAmount := None;
     pendingRefundAmount := None;
     releaseConfirmationMessageId := Some 500%Z;
     refundConfirmationMessageId := Some 600%Z;
     releaseTransactionHash := ""; partialReleaseTransactionHashes := [];
     refundTransactionHash := ""; completedAt := None;
     buyerClosedTrade := false; sellerClosedTrade := false |}.

(** The same trade before any deposit was seen. *)
Definition funding_trade : Escrow :=
  sample_trade <| status := awaiting_deposit |>
               <| depositAmount := 0 |>
               <| confirmedAmount := 0 |>
               <| accumulatedDepositAmount := 0 |>
               <| accumulatedDepositAmountWei := "" |>
               <| transactionHash := "" |>.

(** A blockchain collaborator whose transfers succeed and which reports
    the given transfers for the vault. *)
Definition sample_services (seen : list Transfer) : Services :=
  {| getTokenDecimals := fun _ _ => 18%Z;
     releaseFunds := fun _ => TxResult true "0xre1ea5e";
     refundFunds := fun _ => TxResult true "0xrefund";
     getTokenTransfersViaRPC := fun _ _ _ _ => seen;
     getTokenTransactions := fun _ _ _ => [];
     getLatestBlockNumber := fun _ => Some 100%Z |}.

(** Clicks on the release prompt (message 500) and on the refund prompt
    (message 600) by the buyer (user 11), the seller (user 22) and an
    admin who is no party (user 99). *)
Definition click (user prompt : Z) (admin : bool) : Ctx :=
  {| userId := user; callbackMessageId := Some prompt;
     configAdmin := admin; middlewareAdmin := admin;
     editCaptionOk := true; now := 1700000000%Z |}.

Definition buyer_release_click : Ctx := click 11 500 false.
Definition seller_release_click : Ctx := click 22 500 false.
Definition admin_release_click : Ctx := click 99 500 true.
Definition buyer_refund_click : Ctx := click 11 600 false.
Definition seller_refund_click : Ctx := click 22 600 false.
Definition admin_refund_click : Ctx := click 99 600 true.

(** * The rest of the bot

    The callback dispatch, the declines and the older branches of
    [callbackHandler.js], the fee tiers, the room scripts, the deposit
    address service and the vault contract. *)

(** ** String methods used outside the settlement handlers *)

Module JSString.

(** [s.startsWith(p)] *)
Definition startsWith (s p : string) : bool := String.prefix p s.

(** [s.includes(sub)] *)
Fixpoint includes (s sub : string) : bool :=
  String.prefix sub s
  || match s with
     | EmptyString => false
     | String _ s' => includes s' sub
     end.

(** [s.substring(n)] *)
Fixpoint substring_from (n : nat) (s : string) : string :=
  match n, s with
  | O, _ => s
  | S n', String _ s' => substring_from n' s'
  | S _, EmptyString => EmptyString
  end.

(** [s.replace(pat, "")] with a string pattern: the first occurrence of
    [pat] is taken out, and [s] is returned as it is when there is none. *)
Fixpoint remove_first (s pat : string) : string :=
  if String.prefix pat s then substring_from (String.length pat) s
  else match s with
       | EmptyString => EmptyString
       | String c s' => String c (remove_first s' pat)
       end.

(** [s.split(sep)] with a separator of one character. *)
Fixpoint split (sep : ascii) (s : string) : list string :=
  match s with
  | EmptyString => [EmptyString]
  | String c s' =>
      if Ascii.eqb c sep then EmptyString :: split sep s'
      else match split sep s' with
           | h :: t => String c h :: t
           | [] => [String c EmptyString]
           end
  end.

End JSString.

(** ** The dispatch of the exported callback ([callbackHandler.js],
    lines 450-4802)

    The callback is one chain of [if .. else if ..] on the callback data;
    the first test that holds selects the branch.  A branch is named
    after its test, with the line of the test where the same test occurs
    twice. *)

Inductive Branch : Type :=
| select_role | step2_select_chain | step3_select_coin | set_token_generic
| set_chain | set_token | cancel_role_selection | approve_deal_summary
| step4_select_chain | step4_select_coin | close_trade
| confirm_sent_deposit_branch | check_deposit_branch | fiat_sent_buyer
| fiat_received_seller_partial | buyer_received_tokens
| fiat_received_seller | release_confirm_no_1739
| admin_release_confirm_no_branch | admin_release_confirm_yes_branch
| release_confirm_yes_branch | release_confirm_no_2990
| refund_confirm_yes_3020 | refund_confirm_no_3246 | partial_continue_branch
| partial_pay_remaining_branch | fiat_release_cancel | refund_confirm_no_3433
| refund_confirm_yes_3472 | fiat_release_confirm_branch | confirm_branch
| reject_branch | withdraw_cancel | withdraw_proceed | withdraw_confirm
| leaderboard_buyers | leaderboard_sellers | leaderboard_main
| leaderboard_period | tron_verify_received_confirm_branch
| tron_verify_received | tron_verify_not_received_confirm
| tron_verify_not_received | tron_verify_cancel.

Definition dispatch (callbackData : string) : option Branch :=
  let equals (s : string) := (callbackData =? s)%string in
  let startsWith := JSString.startsWith callbackData in
  if equals "select_role_buyer" || equals "select_role_seller" then Some select_role
  else if startsWith "step2_select_chain_" then Some step2_select_chain
  else if startsWith "step3_select_coin_" then Some step3_select_coin
  else if startsWith "set_token_generic_" then Some set_token_generic
  else if startsWith "set_chain_" then Some set_chain
  else if startsWith "set_token_" then Some set_token
  else if equals "cancel_role_selection" then Some cancel_role_selection
  else if equals "approve_deal_summary" then Some approve_deal_summary
  else if startsWith "step4_select_chain_" then Some step4_select_chain
  else if startsWith "step4_select_coin_" then Some step4_select_coin
  else if startsWith "close_trade_" then Some close_trade
  else if equals "confirm_sent_deposit" then Some confirm_sent_deposit_branch
  else if equals "check_deposit" then Some check_deposit_branch
  else if startsWith "fiat_sent_buyer_" then Some fiat_sent_buyer
  else if startsWith "fiat_received_seller_partial_"
       then Some fiat_received_seller_partial
  else if startsWith "buyer_received_tokens_yes_"
          || startsWith "buyer_received_tokens_no_"
       then Some buyer_received_tokens
  else if startsWith "fiat_received_seller_yes_"
          || startsWith "fiat_received_seller_no_"
       then Some fiat_received_seller
  else if startsWith "release_confirm_no_" then Some release_confirm_no_1739
  else if startsWith "admin_release_confirm_no_"
       then Some admin_release_confirm_no_branch
  else if startsWith "admin_release_confirm_yes_"
       then Some admin_release_confirm_yes_branch
  else if startsWith "release_confirm_yes_"
       then Some release_confirm_yes_branch
  else if startsWith "release_confirm_no_" then Some release_confirm_no_2990
  else if startsWith "refund_confirm_yes_" then Some refund_confirm_yes_3020
  else if startsWith "refund_confirm_no_" then Some refund_confirm_no_3246
  else if startsWith "partial_continue_" then Some partial_continue_branch
  else if startsWith "partial_pay_remaining_"
       then Some partial_pay_remaining_branch
  else if startsWith "fiat_release_cancel_" then Some fiat_release_cancel
  else if startsWith "refund_confirm_no_" then Some refund_confirm_no_3433
  else if startsWith "refund_confirm_yes_" then Some refund_confirm_yes_3472
  else if startsWith "fiat_release_confirm_"
       then Some fiat_release_confirm_branch
  else if startsWith "confirm_" then Some confirm_branch
  else if startsWith "reject_" then Some reject_branch
  else if equals "withdraw_cancel" then Some withdraw_cancel
  else if equals "withdraw_proceed" then Some withdraw_proceed
  else if equals "withdraw_confirm" then Some withdraw_confirm
  else if equals "leaderboard_buyers" then Some leaderboard_buyers
  else if equals "leaderboard_sellers" then Some leaderboard_sellers
  else if equals "leaderboard_main" then Some leaderboard_main
  else if startsWith "leaderboard_period_" then Some leaderboard_period
  else if startsWith "tron_verify_received_confirm_"
       then Some tron_verify_received_confirm_branch
  else if startsWith "tron_verify_received_" then Some tron_verify_received
  else if startsWith "tron_verify_not_received_confirm_"
       then Some tron_verify_not_received_confirm
  else if startsWith "tron_verify_not_received_"
       then Some tron_verify_not_received
  else if startsWith "tron_verify_cancel_" then Some tron_verify_cancel
  else None.

(** The identifier a branch reads off the callback data:
    [callbackData.replace(prefix, "")]. *)
Definition id_after (prefix callbackData : string) : string :=
  JSString.remove_first callbackData prefix.

(** [callbackData.includes("_yes_") ? callbackData.replace(yes, "")
      : callbackData.replace(no, "")], as the two-button branches read
    their identifier. *)
Definition id_after_yes_no (yes no callbackData : string) : string :=
  if JSString.includes callbackData "_yes_"
  then JSString.remove_first callbackData yes
  else JSString.remove_first callbackData no.

(** [callbackData.split("_")[2]], as [close_trade_] reads its identifier
    ([None] is [undefined]). *)
Definition close_trade_id (callbackData : string) : option string :=
  nth_error (JSString.split "_" callbackData) 2.

(** The escrow identifier each branch reads off its callback data
    ([None] for the branches that read none, and for [undefined]). *)
Definition escrowId_read (b : Branch) (callbackData : string)
  : option string :=
  let after prefix := Some (id_after prefix callbackData) in
  match b with
  | close_trade => close_trade_id callbackData
  | fiat_sent_buyer => after "fiat_sent_buyer_"
  | fiat_received_seller_partial => after "fiat_received_seller_partial_"
  | buyer_received_tokens =>
      Some (id_after_yes_no "buyer_received_tokens_yes_"
              "buyer_received_tokens_no_" callbackData)
  | fiat_received_seller =>
      Some (id_after_yes_no "fiat_received_seller_yes_"
              "fiat_received_seller_no_" callbackData)
  | release_confirm_no_1739 | release_confirm_no_2990 =>
      after "release_confirm_no_"
  | admin_release_confirm_no_branch => after "admin_release_confirm_no_"
  | admin_release_confirm_yes_branch => after "admin_release_confirm_yes_"
  | release_confirm_yes_branch => after "release_confirm_yes_"
  | refund_confirm_yes_3020 | refund_confirm_yes_3472 =>
      after "refund_confirm_yes_"
  | refund_confirm_no_3246 | refund_confirm_no_3433 =>
      after "refund_confirm_no_"
  | partial_continue_branch => after "partial_continue_"
  | partial_pay_remaining_branch => after "partial_pay_remaining_"
  | fiat_release_confirm_branch => after "fiat_release_confirm_"
  | tron_verify_received_confirm_branch =>
      after "tron_verify_received_confirm_"
  | tron_verify_received => after "tron_verify_received_"
  | tron_verify_not_received_confirm =>
      after "tron_verify_not_received_confirm_"
  | tron_verify_not_received => after "tron_verify_not_received_"
  | tron_verify_cancel => after "tron_verify_cancel_"
  | _ => None
  end.

(** The buttons the handlers of this file put under their prompts: the
    callback data is the prefix followed by the escrow identifier, and
    the click is meant for the branch named. *)
Definition buttons : list (string * Branch) :=
  [ ("fiat_sent_buyer_", fiat_sent_buyer);                       (* 1509 *)
    ("fiat_received_seller_yes_", fiat_received_seller);         (* 1559 *)
    ("fiat_received_seller_no_", fiat_received_seller);          (* 1563 *)
    ("fiat_received_seller_partial_", fiat_received_seller_partial);
    ("fiat_release_confirm_", fiat_release_confirm_branch);      (* 1710 *)
    ("fiat_release_cancel_", fiat_release_cancel);               (* 1714 *)
    ("close_trade_", close_trade);                               (* 2218 *)
    ("release_confirm_yes_", release_confirm_yes_branch);        (* 2487 *)
    ("release_confirm_no_", release_confirm_no_1739);            (* 2491 *)
    ("refund_confirm_yes_", refund_confirm_yes_3020);            (* 3097 *)
    ("refund_confirm_no_", refund_confirm_no_3246);              (* 3101 *)
    ("buyer_received_tokens_yes_", buyer_received_tokens);       (* 4020 *)
    ("buyer_received_tokens_no_", buyer_received_tokens);        (* 4024 *)
    ("tron_verify_received_confirm_",
     tron_verify_received_confirm_branch);                       (* 4699 *)
    ("tron_verify_cancel_", tron_verify_cancel);                 (* 4705 *)
    ("tron_verify_not_received_confirm_",
     tron_verify_not_received_confirm);                          (* 4755 *)
    ("tron_verify_received_", tron_verify_received);             (* 4790 *)
    ("tron_verify_not_received_", tron_verify_not_received) ].   (* 4794 *)

(** A click on a button built for the escrow [id] reaches the branch the
    button is meant for, and the branch reads [id] back. *)
Definition routes_back (id : string) (button : string * Branch) : Prop :=
  let data := (fst button ++ id)%string in
  dispatch data = Some (snd button)
  /\ match escrowId_read (snd button) data with
     | Some read => read = id
     | None => snd button = fiat_release_cancel
     end.

(** The identifier the [/deal] command gives a new escrow
    ([BioCheckService.js], line 387): [`P2PMMX${counter.seq}`], for a
    sequence number below [1e21], which JavaScript prints in full. *)
Definition newEscrowId (seq : N) : string :=
  "P2PMMX" ++ NilZero.string_of_uint (N.to_uint seq).

(** [String.prefix] by recursion on the prefix, which computes on a
    literal followed by an unknown identifier. *)
Fixpoint prefix_lit (p s : string) {struct p} : bool :=
  match p with
  | EmptyString => true
  | String a p' =>
      match s with
      | EmptyString => false
      | String b s' => if Ascii.eqb a b then prefix_lit p' s' else false
      end
  end.

(** ** The fee tier of a deal ([services/BioCheckService.js] and the
    [/deal] command) *)

Module BioCheckService.

(** What [telegram.getChat(userId)] does: it throws, with the
    [error_code] and the [description] (which may be absent) of the
    [response] when the error carries one, or it resolves to a chat,
    whose [bio] may be absent. *)
Inductive ChatReply : Type :=
| ChatThrows (response : option (Z * option string))
| Chat (bio : option string).

(** [(bio || "").toLowerCase().includes("@room")] *)
Definition hasRoom (bio : option string) : bool :=
  JSString.includes
    (JS.toLowerCase (match bio with Some b => b | None => "" end)) "@room".

(** [checkUserBio] (lines 15-29): a failing lookup counts as no tag. *)
Definition checkUserBio (getChat : Z -> ChatReply) (userId : Z) : bool :=
  match getChat userId with
  | Chat bio => hasRoom bio
  | ChatThrows _ => false
  end.

Inductive Tier : Type := no_tag | one_tag | both_tags.

(** [determineTier] (lines 37-63). *)
Definition determineTier (getChat : Z -> ChatReply) (buyerId sellerId : Z)
  : Tier :=
  let buyerHasRoom := checkUserBio getChat buyerId in
  let sellerHasRoom := checkUserBio getChat sellerId in
  let count := ((if buyerHasRoom then 1 else 0)
                + (if sellerHasRoom then 1 else 0))%nat in
  if (count =? 0)%nat then no_tag
  else if (count =? 1)%nat then one_tag
  else both_tags.

End BioCheckService.

Module Deal.

Import BioCheckService.

(** [e.response && e.response.error_code === 400 &&
    e.response.description.includes("chat not found")]; [None] when the
    test itself throws, the description being absent. *)
Definition chat_not_found (response : option (Z * option string))
  : option bool :=
  match response with
  | Some (error_code, description) =>
      if (error_code =? 400)%Z then
        match description with
        | Some d => Some (JSString.includes d "chat not found")
        | None => None
        end
      else Some false
  | None => Some false
  end.

(** The loop of [checkBio] (lines 335-361) from attempt [attempt] on,
    with [remaining] attempts to go; [getChat n] is what the [n]-th
    lookup of the user does.  [None] when the error escapes the loop. *)
Fixpoint checkBio_from (getChat : nat -> ChatReply) (attempt remaining : nat)
  : option bool :=
  match remaining with
  | O => Some false
  | S remaining' =>
      match getChat attempt with
      | Chat bio => Some (hasRoom bio)
      | ChatThrows response =>
          match chat_not_found response with
          | Some true => Some false
          | Some false => checkBio_from getChat (S attempt) remaining'
          | None => None
          end
      end
  end.

Definition maxRetries : nat := 3.

Definition checkBio (getChat : nat -> ChatReply) : option bool :=
  checkBio_from getChat 1 maxRetries.

(** Lines 330-366: the two flags of the deal.  An error that escapes
    [checkBio] is caught around both lookups, and the flags keep what
    they had; without a counterparty only the initiator is looked up. *)
Definition bioTags (initiator counterparty : nat -> ChatReply)
           (counterpartyId : option Z) : bool * bool :=
  match checkBio initiator with
  | None => (false, false)
  | Some initiatorHasTag =>
      if JS.truthy_id counterpartyId then
        match checkBio counterparty with
        | None => (initiatorHasTag, false)
        | Some counterpartyHasTag => (initiatorHasTag, counterpartyHasTag)
        end
      else (initiatorHasTag, false)
  end.

(** The tier of the new deal (lines 371-376). *)
Definition tier (initiatorHasTag counterpartyHasTag : bool) : Tier :=
  if initiatorHasTag && counterpartyHasTag then both_tags
  else if initiatorHasTag || counterpartyHasTag then one_tag
  else no_tag.

(** The network fee written on the new escrow (lines 378-379). *)
Definition networkFee (initiatorHasTag counterpartyHasTag : bool) : float :=
  let hasBioTag := initiatorHasTag || counterpartyHasTag in
  FeeConfig.getNetworkFee "BSC" hasBioTag.

End Deal.

(** ** The pool of deal rooms ([models/GroupPool.js]) *)

Module GroupPool.

Inductive Status : Type := available | assigned | completed | archived.

(** An entry of the [contracts] map. *)
Record ContractRef : Type := mkRef {
  address : string;
  network : string
}.

(** The document of a room.  The dates and the invite link, which the
    modelled code does not read, are left out; an absent title or escrow
    identifier is the empty string. *)
Record t : Type := mk {
  groupId : string;
  groupTitle : string;
  status : Status;
  assignedEscrowId : string;
  feePercent : option float;
  contracts : list (string * ContractRef)
}.

(** [group.feePercent = fee] *)
Definition with_feePercent (fee : float) (g : t) : t :=
  mk (groupId g) (groupTitle g) (status g) (assignedEscrowId g) (Some fee)
     (contracts g).

(** [group.contracts.get(key)] *)
Fixpoint get (key : string) (m : list (string * ContractRef))
  : option ContractRef :=
  match m with
  | [] => None
  | (k, v) :: m' => if (k =? key)%string then Some v else get key m'
  end.

End GroupPool.

(** ** The room fee scripts ([scripts/setRoomFees.js], lines 1-62, and
    the fee migration in [scripts/list-contracts.js], lines 40-111) *)

Module SetRoomFees.

(** [\d] *)
Definition is_digit (c : ascii) : bool :=
  let n := nat_of_ascii c in ((48 <=? n) && (n <=? 57))%nat.

(** [(\d+)] at the start of [s]: the longest run of digits. *)
Fixpoint digits (s : string) : string :=
  match s with
  | EmptyString => EmptyString
  | String c s' => if is_digit c then String c (digits s') else EmptyString
  end.

(** The literal part of the pattern at the start of [s], letters
    compared without regard to case (the [i] flag); the rest of [s]. *)
Fixpoint literal_ci (pat s : string) : option string :=
  match pat with
  | EmptyString => Some s
  | String a pat' =>
      match s with
      | EmptyString => None
      | String b s' =>
          if Ascii.eqb (FeeConfig.upper_ascii a) (FeeConfig.upper_ascii b)
          then literal_ci pat' s' else None
      end
  end.

(** The pattern [/MM Room (\d+)/i] at the start of [s]: the group. *)
Definition room_at (s : string) : option string :=
  match literal_ci "MM Room " s with
  | Some rest => match digits rest with
                 | EmptyString => None
                 | d => Some d
                 end
  | None => None
  end.

(** [title.match(/MM Room (\d+)/i)]: the group of the leftmost match. *)
Fixpoint room_match (title : string) : option string :=
  match room_at title with
  | Some d => Some d
  | None => match title with
            | EmptyString => None
            | String _ title' => room_match title'
            end
  end.

(** [parseInt(d, 10)] on a run of digits.  The number is kept as an
    integer: the comparisons with the room numbers below give the same
    answers on it as on the float JavaScript rounds it to. *)
Definition parseInt (d : string) : option N :=
  option_map N.of_uint (NilZero.uint_of_string d).

(** The fee of a room number (lines 31-42), [None] when out of range. *)
Definition feeOfRoom (roomNumber : N) : option float :=
  if ((1 <=? roomNumber) && (roomNumber <=? 10))%N then Some 0
  else if ((11 <=? roomNumber) && (roomNumber <=? 15))%N then Some 0.25
  else if ((16 <=? roomNumber) && (roomNumber <=? 20))%N then Some 0.5
  else None.

(** The fee the script gives a room of this title, [None] when it skips
    the room. *)
Definition feeOfTitle (title : string) : option float :=
  match room_match title with
  | None => None
  | Some d => match parseInt d with
              | Some roomNumber => feeOfRoom roomNumber
              | None => None
              end
  end.

(** The loop over the rooms: the rooms as saved, and [updated]. *)
Fixpoint setRoomFees (groups : list GroupPool.t) : list GroupPool.t * nat :=
  match groups with
  | [] => ([], O)
  | group :: rest =>
      let (rest', updated) := setRoomFees rest in
      match feeOfTitle (GroupPool.groupTitle group) with
      | Some feePercent =>
          (GroupPool.with_feePercent feePercent group :: rest', S updated)
      | None => (group :: rest', updated)
      end
  end.

End SetRoomFees.

Module MigrateFees.

(** The rule of the migration (lines 57-67): the new fee of a room, or
    [None] when no rule matches its fee. *)
Definition newFee (oldFee : option float) : option float :=
  match oldFee with
  | Some f => if f =? 0.25 then Some 0
              else if f =? 0.5 then Some 0.25
              else if f =? 0.75 then Some 0.5
              else None
  | None => None
  end.

(** [oldFee !== newFee] on numbers. *)
Definition changed (oldFee : option float) (newFee : float) : bool :=
  match oldFee with
  | Some f => negb (f =? newFee)
  | None => true
  end.

(** The loop: the rooms as saved, [updatedCount] and [skippedCount]. *)
Fixpoint migrateFees (groups : list GroupPool.t)
  : list GroupPool.t * (nat * nat) :=
  match groups with
  | [] => ([], (O, O))
  | group :: rest =>
      let '(rest', (updatedCount, skippedCount)) := migrateFees rest in
      match newFee (GroupPool.feePercent group) with
      | None => (group :: rest', (updatedCount, S skippedCount))
      | Some fee =>
          if changed (GroupPool.feePercent group) fee
          then (GroupPool.with_feePercent fee group :: rest',
                (S updatedCount, skippedCount))
          else (group :: rest', (updatedCount, skippedCount))
      end
  end.

End MigrateFees.

(** ** The deposit address of a trade ([AddressAssignmentService], in
    [scripts/setRoomFees.js], lines 63-231 and again lines 232-371) *)

Module AddressAssignmentService.

(** A document of the [Contract] collection ([models/GroupPool.js],
    lines 72-88). *)
Record Contract : Type := mkContract {
  name : string;
  token : string;
  network : string;
  address : string;
  status : string
}.

(** What a query does: it throws, or it resolves. *)
Inductive Lookup (A : Type) : Type :=
| Throws (message : string)
| Resolves (a : A).
Arguments Throws {A} message.
Arguments Resolves {A} a.

(** The database: the escrow of an identifier, the room of a group
    identifier, and the [Contract] collection in its natural order. *)
Record Db : Type := mkDb {
  findEscrow : string -> Lookup (option Escrow);
  findGroup : Z -> Lookup (option GroupPool.t);
  allContracts : Lookup (list Contract)
}.

(** What [assignDepositAddress] resolves to ([address] and
    [contractAddress] are the same string), or the error it throws. *)
Inductive Assigned : Type :=
| Address (address : string)
| NoContract (token network : string)
    (* "No EscrowVault contract found for .. on ..." *)
| Rethrown (message : string).

Definition normalizeChainToNetwork (chain : string) : string :=
  if negb (JS.truthy_str chain) then "BSC"
  else
    let upper := FeeConfig.toUpperCase chain in
    if ((upper =? "BNB") || (upper =? "BEP-20"))%string then "BSC"
    else if (upper =? "ETHEREUM")%string then "ETH"
    else if ((upper =? "MATIC") || (upper =? "POLYGON"))%string
    then "POLYGON"
    else upper.

(** The contract of the room for the token (the [if (group.contracts)]
    block): the entry of the key [TOKEN_NETWORK], or else the entry of
    the key [TOKEN] when it is on the network. *)
Definition groupContract (group : GroupPool.t)
           (normalizedToken normalizedNetwork : string)
  : option GroupPool.ContractRef :=
  let key1 := normalizedToken in
  let key2 := (normalizedToken ++ "_" ++ normalizedNetwork)%string in
  match GroupPool.get key2 (GroupPool.contracts group) with
  | Some c => Some c
  | None =>
      match GroupPool.get key1 (GroupPool.contracts group) with
      | Some c => if (GroupPool.network c =? normalizedNetwork)%string
                  then Some c else None
      | None => None
      end
  end.

(** [Contract.findOne({name: "EscrowVault", token, network,
    status: "deployed"})] on the collection. *)
Definition deployedVault (normalizedToken normalizedNetwork : string)
           (c : Contract) : bool :=
  ((name c =? "EscrowVault") && (token c =? normalizedToken)
   && (network c =? normalizedNetwork) && (status c =? "deployed"))%string.

(** The query on the [Contract] collection and what follows it. *)
Definition fromCollection (db : Db)
           (normalizedToken normalizedNetwork : string) : Assigned :=
  match allContracts db with
  | Throws m => Rethrown m
  | Resolves all =>
      match find (deployedVault normalizedToken normalizedNetwork) all with
      | Some contract => Address (address contract)
      | None => NoContract normalizedToken normalizedNetwork
      end
  end.

(** [escrow.groupId]; the parameter [groupId] of [assignDepositAddress]
    hides the name of the field. *)
Definition groupIdOf (escrow : Escrow) : Z := groupId escrow.

(** [assignDepositAddress(escrowId, token, network, amount, feePercent,
    groupId)]; an absent [token] or [network] is the empty string.  The
    amount and the fee percentage have no part in the result. *)
Definition assignDepositAddress (db : Db) (escrowId token network : string)
           (groupId : option Z) : Assigned :=
  let normalizedToken := FeeConfig.toUpperCase token in
  let normalizedNetwork :=
    if JS.truthy_str network then normalizeChainToNetwork network
    else "BSC" in
  let resolved :=
    if negb (JS.truthy_id groupId) then
      match findEscrow db escrowId with
      | Throws m => Throws m
      | Resolves (Some escrow) =>
          if JS.truthy_id (Some (groupIdOf escrow)) then
            Resolves
              (Some (groupIdOf escrow),
               if JS.truthy_str (chain escrow)
                  && negb (JS.truthy_str network)
               then normalizeChainToNetwork (chain escrow)
               else normalizedNetwork)
          else Resolves (groupId, normalizedNetwork)
      | Resolves None => Resolves (groupId, normalizedNetwork)
      end
    else Resolves (groupId, normalizedNetwork) in
  match resolved with
  | Throws m => Rethrown m
  | Resolves (groupId, normalizedNetwork) =>
      let normalizedNetwork := FeeConfig.toUpperCase normalizedNetwork in
      let fromGroup :=
        match groupId with
        | Some id =>
            if JS.truthy_id groupId then
              match findGroup db id with
              | Resolves (Some group) =>
                  match groupContract group normalizedToken
                          normalizedNetwork with
                  | Some assignedContract =>
                      if JS.truthy_str (GroupPool.address assignedContract)
                      then Some (GroupPool.address assignedContract)
                      else None
                  | None => None
                  end
              | Resolves None => None
              | Throws _ => None
              end
            else None
        | None => None
        end in
      match fromGroup with
      | Some address => Address address
      | None => fromCollection db normalizedToken normalizedNetwork
      end
  end.

End AddressAssignmentService.

(** A database with one deployed vault for USDT on BSC, no escrow and
    no room. *)
Definition sample_db : AddressAssignmentService.Db :=
  {| AddressAssignmentService.findEscrow :=
       fun _ => AddressAssignmentService.Resolves None;
     AddressAssignmentService.findGroup :=
       fun _ => AddressAssignmentService.Resolves None;
     AddressAssignmentService.allContracts :=
       AddressAssignmentService.Resolves
         [AddressAssignmentService.mkContract
            "EscrowVault" "USDT" "BSC" "0xA017" "deployed"] |}.

(** ** The vault contract ([unnamed/part_000] and [unnamed/part_001])

    The two files hold two versions of the Solidity contract
    [EscrowVault].  They differ in how they call the token: the first
    through the interface, the second through [_safeTransfer]. *)

Module EscrowVault.

Local Open Scope Z_scope.

(** An address, as a number; [0] is [address(0)]. *)
Definition address : Type := Z.

Inductive Version : Type :=
| Interface    (* part_000: [token.transfer(to, amount)] *)
| SafeTransfer (* part_001: [_safeTransfer(token, to, amount)] *).

(** The storage of the contract; [token] is immutable. *)
Record State : Type := mkState {
  owner : address;
  token : address;
  feeWallet : address
}.

Inductive Event : Type :=
| Released (to : address) (amount : Z)
| Refunded (to : address) (amount : Z)
| FeeWalletUpdated (wallet : address).

(** What comes back from a call to a token contract: the call reverts,
    or it returns no data (as does a call to an address without code,
    and a token whose [transfer] returns nothing), a word that is a
    boolean, or data that does not decode to a boolean. *)
Inductive Returndata : Type :=
| NoData
| BoolWord (b : bool)
| Malformed.

Inductive CallResult : Type :=
| Reverted
| Returned (data : Returndata).

(** The token contracts, which are outside the vault: what
    [transfer(to, amount)] sent by the vault [from] to the token does,
    and what [balanceOf(account)] returns ([None] when that call
    reverts). *)
Record Tokens : Type := mkTokens {
  transfer : address -> address -> address -> Z -> CallResult;
  balanceOf : address -> address -> option Z
}.

(** The external functions. *)
Inductive Call : Type :=
| setOwner (_owner : address)
| setFeeWallet (_feeWallet : address)
| release (to : address) (amount : Z)
| refund (to : address) (amount : Z)
| withdrawToken (erc20Token to : address).

(** What a transaction leaves behind when it succeeds, in order: the
    token transfers it asked for and the events it emitted. *)
Inductive Effect : Type :=
| TokenTransfer (erc20 to : address) (amount : Z)
| Emit (e : Event).

(** A transaction reverts, with its reason string if it has one, and
    then changes nothing; or it succeeds. *)
Inductive Outcome : Type :=
| Revert (reason : option string)
| Success (s : State) (effects : list Effect).

(** [constructor(_token, _feeWallet)] sent by [sender]. *)
Definition constructor (sender _token _feeWallet : address) : State :=
  mkState sender _token _feeWallet.

(** The call of the token's [transfer]: the transaction goes on, or it
    reverts.  Through the interface the call reverts with the token, and
    when the data returned is not a boolean, and the boolean is thrown
    away; [_safeTransfer] requires that the call succeeds and returns
    nothing or [true]. *)
Inductive Step : Type :=
| GoesOn
| Reverts (reason : option string).

Definition callTransfer (v : Version) (tokens : Tokens)
           (this erc20 to : address) (amount : Z) : Step :=
  match v, transfer tokens erc20 this to amount with
  | Interface, Reverted => Reverts None
  | Interface, Returned (BoolWord _) => GoesOn
  | Interface, Returned _ => Reverts None
  | SafeTransfer, Reverted => Reverts (Some "TRANSFER_FAILED")
  | SafeTransfer, Returned NoData => GoesOn
  | SafeTransfer, Returned (BoolWord true) => GoesOn
  | SafeTransfer, Returned (BoolWord false) =>
      Reverts (Some "TRANSFER_FAILED")
  | SafeTransfer, Returned Malformed => Reverts None
  end.

(** A transaction: the function [c] of the vault at address [this]
    called by [sender]. *)
Definition exec (v : Version) (tokens : Tokens) (this sender : address)
           (c : Call) (s : State) : Outcome :=
  if negb (sender =? owner s) then Revert (Some "not-owner")
  else
    match c with
    | setOwner _owner => Success (mkState _owner (token s) (feeWallet s)) []
    | setFeeWallet _feeWallet =>
        Success (mkState (owner s) (token s) _feeWallet)
                [Emit (FeeWalletUpdated _feeWallet)]
    | release to amount =>
        match callTransfer v tokens this (token s) to amount with
        | Reverts reason => Revert reason
        | GoesOn => Success s [TokenTransfer (token s) to amount;
                               Emit (Released to amount)]
        end
    | refund to amount =>
        match callTransfer v tokens this (token s) to amount with
        | Reverts reason => Revert reason
        | GoesOn => Success s [TokenTransfer (token s) to amount;
                               Emit (Refunded to amount)]
        end
    | withdrawToken erc20Token to =>
        if to =? 0 then Revert (Some "zero-to")
        else
          match balanceOf tokens erc20Token this with
          | None => Revert None
          | Some bal =>
              if negb (bal >? 0) then Revert (Some "no-balance")
              else
                match callTransfer v tokens this erc20Token to bal with
                | Reverts reason => Revert reason
                | GoesOn => Success s [TokenTransfer erc20Token to bal]
                end
          end
    end.

(** A sequence of transactions, each a sender and a call: the storage
    and the effects of those that succeed. *)
Fixpoint run (v : Version) (tokens : Tokens) (this : address)
         (txs : list (address * Call)) (s : State) : State * list Effect :=
  match txs with
  | [] => (s, [])
  | (sender, c) :: txs' =>
      match exec v tokens this sender c s with
      | Revert _ => run v tokens this txs' s
      | Success s' effects =>
          let (s'', effects') := run v tokens this txs' s' in
          (s'', effects ++ effects')
      end
  end.

End EscrowVault.

(** ** The branches of [callbackHandler.js] that withdraw approvals

    These branches make no transfer and throw nothing of their own, so
    each is a function from the stored document to the document it
    leaves and what it tells the user.  The texts are given without
    their emoji. *)

Inductive Told : Type :=
| Answered (text : string)   (* safeAnswerCbQuery(ctx, text) *)
| Messaged (text : string).  (* ctx.reply(text) *)

(** [callbackMessageId && stored && stored !== callbackMessageId]: the
    test of the decline branches for a click on an old prompt. *)
Definition expired (stored clicked : option Z) : bool :=
  JS.truthy_id clicked && JS.truthy_id stored
  && match stored, clicked with
     | Some a, Some b => negb (a =? b)%Z
     | _, _ => true
     end.

(** *** [refund_confirm_no_] (lines 3246-3271) *)

Definition refund_confirm_no (ctx : Ctx) (stored : option Escrow)
  : option Escrow * list Told :=
  match stored with
  | None => (stored, [Answered "Not found."])
  | Some escrow =>
      let can := same_id (buyerId escrow) (userId ctx)
                 || same_id (sellerId escrow) (userId ctx)
                 || middlewareAdmin ctx in
      if negb can then (stored, [Answered "Denied."])
      else (Some (escrow <| buyerConfirmedRefund := false |>
                         <| sellerConfirmedRefund := false |>
                         <| pendingRefundAmount := None |>),
            [Answered "Cancelled."])
  end.

(** *** [admin_release_confirm_no_] (lines 1824-1885) *)

Definition admin_release_confirm_no (ctx : Ctx) (stored : option Escrow)
  : option Escrow * list Told :=
  let found :=
    match stored with
    | Some e => if includes settlement_statuses (status e)
                then Some e else None
    | None => None
    end in
  match found with
  | None => (stored, [Answered "No active escrow found."])
  | Some escrow =>
      if expired (releaseConfirmationMessageId escrow)
                 (callbackMessageId ctx)
      then (stored, [Answered "This request has expired."])
      else if negb (configAdmin ctx)
      then (stored, [Answered "Only admin can cancel admin release."])
      else (Some (escrow <| adminConfirmedRelease := false |>
                         <| pendingReleaseAmount := None |>),
            [Answered "Admin release cancelled"])
  end.

(** *** [release_confirm_no_] (lines 1739-1823)

    This branch also knows a party by its user name.  The user names
    are not among the modelled fields of the document, so they come as
    arguments: those of the buyer and the seller on the document (empty
    when absent), the one of the clicking user ([ctx.from.username ||
    ""]), and the admins of the configuration. *)

Record Names : Type := mkNames {
  buyerUsername : string;
  sellerUsername : string;
  fromUsername : string;
  adminUsernames : list string;
  adminIds : list string
}.

Definition release_confirm_no (ctx : Ctx) (names : Names)
           (stored : option Escrow) : option Escrow * list Told :=
  let found :=
    match stored with
    | Some e => if includes settlement_statuses (status e)
                then Some e else None
    | None => None
    end in
  match found with
  | None => (stored, [Answered "No active escrow found."])
  | Some escrow =>
      if expired (releaseConfirmationMessageId escrow)
                 (callbackMessageId ctx)
      then (stored, [Answered "This request has expired."])
      else
        let normalizedUsername := JS.toLowerCase (fromUsername names) in
        let isBuyerIdMatch :=
          JS.truthy_id (buyerId escrow)
          && same_id (buyerId escrow) (userId ctx) in
        let isBuyerUsernameMatch :=
          JS.truthy_str (buyerUsername names)
          && (JS.toLowerCase (buyerUsername names)
              =? normalizedUsername)%string in
        let isBuyer := isBuyerIdMatch || isBuyerUsernameMatch in
        let isSellerIdMatch :=
          JS.truthy_id (sellerId escrow)
          && same_id (sellerId escrow) (userId ctx) in
        let isSellerUsernameMatch :=
          JS.truthy_str (sellerUsername names)
          && (JS.toLowerCase (sellerUsername names)
              =? normalizedUsername)%string in
        let isSeller := isSellerIdMatch || isSellerUsernameMatch in
        let isAdmin :=
          existsb (fun name =>
                     JS.truthy_str name
                     && (JS.toLowerCase name =? normalizedUsername)%string)
                  (adminUsernames names)
          || existsb (String.eqb (JS.BigInt_toString (userId ctx)))
                     (adminIds names) in
        if negb isBuyer && negb isSeller && negb isAdmin
        then (stored,
              [Answered "Only buyer, seller, or admin can decline."])
        else (Some (escrow <| buyerConfirmedRelease := false |>
                           <| sellerConfirmedRelease := false |>),
              [Answered "Release cancelled.";
               Messaged "Release cancelled by user."])
  end.

(** *** [reject_] (lines 4382-4412) *)

(** [const [, action] = callbackData.split("_")] *)
Definition action_of (callbackData : string) : option string :=
  nth_error (JSString.split "_" callbackData) 1.

Definition reject (callbackData : string) (stored : option Escrow)
  : option Escrow * list Told :=
  if match action_of callbackData with
     | Some action => (action =? "refund")%string
     | None => false
     end
  then (stored,
        [Answered "Refund functionality requires seller address. Please contact admin for refunds."])
  else
    let found :=
      match stored with
      | Some e => if includes settlement_statuses (status e)
                  then Some e else None
      | None => None
      end in
    (match found with
     | Some escrow =>
         Some (escrow <| buyerConfirmedRelease := false |>
                      <| sellerConfirmedRelease := false |>
                      <| buyerConfirmedRefund := false |>
                      <| sellerConfirmedRefund := false |>)
     | None => stored
     end,
     [Answered "Transaction rejected";
      Messaged "Transaction has been rejected by one of the parties. Please restart the process if needed."]).

(** *** [confirm_] (lines 4082-4381)

    The older release path: the callback data is
    [confirm_<action>_<role>_<amount>]. *)







(** *** [tron_verify_received_confirm_] (lines 4581-4682)

    The fields of the manual verification, which are not among the
    modelled fields of the document, come beside it. *)

Record TronPending : Type := mkTronPending {
  tronPendingTxHash : option string;
  tronPendingAmount : option float;
  tronManualVerificationPending : bool
}.

Inductive TronTold : Type :=
| TronAnswered (text : string)
| DepositFound (overDelivered : bool) (total : float) (txCount : nat)
    (* the photo with the caption "Extra .. received" or "Exact .. found" *)
| PaymentReceived   (* "Payment Received! Use /release After Fund Transfer to Seller .." *).

(** [adminById] is [config.getAllAdminIds().includes(String(userId))].
    An absent pending hash is pushed on the list of hashes as
    [undefined], which the list of strings of the model does not keep;
    the branch then throws at [txHash.substring] (line 4641). *)
Definition tron_verify_received_confirm (adminById : bool)
           (stored : option (Escrow * TronPending))
  : option (Escrow * TronPending) * list TronTold :=
  match stored with
  | None => (stored, [TronAnswered "Escrow not found."])
  | Some (escrow, pending) =>
      if negb adminById then (stored, [TronAnswered "Admin only."])
      else
        let txHash := tronPendingTxHash pending in
        let amount := JS.num (tronPendingAmount pending) in
        let expectedAmount := quantity escrow in
        let tolerance := 0.01 in
        let pending :=
          mkTronPending (tronPendingTxHash pending)
                        (tronPendingAmount pending) false in
        let currentAccumulated := accumulatedDepositAmount escrow in
        let newAccumulated := currentAccumulated + amount in
        let escrow := escrow <| accumulatedDepositAmount := newAccumulated |> in
        let escrow :=
          if negb (JS.truthy_str (transactionHash escrow)) then
            escrow <| transactionHash :=
                        match txHash with Some h => h | None => "" end |>
          else
            escrow <| partialTransactionHashes :=
                        partialTransactionHashes escrow
                        ++ match txHash with Some h => [h] | None => [] end |>
          in
        let escrow := escrow <| depositAmount := newAccumulated |> in
        let escrow :=
          if JS.ge newAccumulated (expectedAmount - tolerance) then
            let escrow := escrow <| confirmedAmount := newAccumulated |> in
            if includes [draft; awaiting_details; awaiting_deposit]
                        (status escrow)
            then escrow <| status := deposited |>
            else escrow
          else escrow in
        let overDelivered :=
          JS.gt expectedAmount 0
          && JS.gt (newAccumulated - expectedAmount) tolerance in
        let totalTxCount := S (List.length (partialTransactionHashes escrow)) in
        (Some (escrow, pending),
         TronAnswered "Confirmed funds received."
         :: match txHash with
            | None => [TronAnswered "An error occurred"]
            | Some _ =>
                DepositFound overDelivered newAccumulated totalTxCount
                :: if JS.truthy_id (buyerId escrow)
                   then [PaymentReceived] else []
            end)
  end.

(** ** The choice of roles ([select_role_buyer] and [select_role_seller],
    lines 450-546) *)

#[global] Instance set_buyerId : Setter buyerId.
Proof. assign buyerId. Defined.
#[global] Instance set_sellerId : Setter sellerId.
Proof. assign sellerId. Defined.

Module SelectRole.

(** The fields of the document this branch reads and writes beside the
    identifiers of the parties. *)
Record Roles : Type := mkRoles {
  buyerUsername : option string;
  sellerUsername : option string;
  buyerStatsParticipationRecorded : bool;
  sellerStatsParticipationRecorded : bool;
  roleSelectionMessageId : option Z;
  tradeDetailsStep : string;
  step2MessageId : option Z
}.

(** What the branch does to the outside, in order. *)
Inductive Did : Type :=
| Answered (text : string)
| RecordParticipation (telegramId : Z) (username : option string)
| UpdateRoleSelectionMessage
| SendStep2Prompt.

(** [ctx.telegram.sendPhoto] resolves to a message or throws an error,
    which may carry a description. *)
Inductive Photo : Type :=
| Sent (message_id : Z)
| PhotoThrows (description : option string).

(** The click and the collaborators: the user name of the clicking user,
    whether [UserStatsService.recordParticipation] resolves for a user,
    and what [sendPhoto] does. *)
Record Env : Type := mkEnv {
  username : option string;
  recordParticipation : Z -> bool;
  sendPhoto : Photo
}.

(** The [catch] of the exported handler (lines 4802-4810): an error
    whose description has "message is not modified" is dropped, any
    other is answered. *)
Definition caught (description : option string) : list Did :=
  match description with
  | Some d =>
      if JS.truthy_str d && JSString.includes d "message is not modified"
      then [] else [Answered "An error occurred"]
  | None => [Answered "An error occurred"]
  end.

(** [escrow.id && escrow.id === userId] *)
Definition is_user (id : option Z) (userId : Z) : bool :=
  JS.truthy_id id && same_id id userId.

(** [escrow.id && escrow.id !== userId] *)
Definition is_other (id : option Z) (userId : Z) : bool :=
  JS.truthy_id id && negb (same_id id userId).

(** Lines 491-517: once both roles are taken, the participation of
    each party is recorded unless it already was; a failure of the
    statistics service is swallowed. *)
Definition recordStats (env : Env) (escrow : Escrow) (r : Roles)
  : Roles * list Did :=
  if JS.truthy_id (buyerId escrow) && JS.truthy_id (sellerId escrow) then
    let (r, did) :=
      match buyerId escrow with
      | Some id =>
          if negb (buyerStatsParticipationRecorded r) then
            (if recordParticipation env id
             then mkRoles (buyerUsername r) (sellerUsername r) true
                          (sellerStatsParticipationRecorded r)
                          (roleSelectionMessageId r) (tradeDetailsStep r)
                          (step2MessageId r)
             else r,
             [RecordParticipation id (buyerUsername r)])
          else (r, [])
      | None => (r, [])
      end in
    match sellerId escrow with
    | Some id =>
        if negb (sellerStatsParticipationRecorded r) then
          (if recordParticipation env id
           then mkRoles (buyerUsername r) (sellerUsername r)
                        (buyerStatsParticipationRecorded r) true
                        (roleSelectionMessageId r) (tradeDetailsStep r)
                        (step2MessageId r)
           else r,
           did ++ [RecordParticipation id (sellerUsername r)])
        else (r, did)
    | None => (r, did)
    end
  else (r, []).

Definition select_role (isBuyer : bool) (ctx : Ctx) (env : Env)
           (stored : option (Escrow * Roles))
  : option (Escrow * Roles) * list Did :=
  let selected :=
    Answered (if isBuyer then "Buyer role selected"
              else "Seller role selected") in
  let found :=
    match stored with
    | Some (e, r) => if includes [draft; awaiting_details] (status e)
                     then Some (e, r) else None
    | None => None
    end in
  match found with
  | None => (stored, [selected; Answered "No active escrow found."])
  | Some (escrow, r) =>
      if isBuyer && is_user (sellerId escrow) (userId ctx)
      then (stored,
            [selected; Answered "You cannot be both buyer and seller."])
      else if negb isBuyer && is_user (buyerId escrow) (userId ctx)
      then (stored,
            [selected; Answered "You cannot be both buyer and seller."])
      else if isBuyer && is_other (buyerId escrow) (userId ctx)
      then (stored, [selected; Answered "Buyer role already taken."])
      else if negb isBuyer && is_other (sellerId escrow) (userId ctx)
      then (stored, [selected; Answered "Seller role already taken."])
      else
        let escrow :=
          if isBuyer then escrow <| buyerId := Some (userId ctx) |>
          else escrow <| sellerId := Some (userId ctx) |> in
        let r :=
          if isBuyer
          then mkRoles (username env) (sellerUsername r)
                       (buyerStatsParticipationRecorded r)
                       (sellerStatsParticipationRecorded r)
                       (roleSelectionMessageId r) (tradeDetailsStep r)
                       (step2MessageId r)
          else mkRoles (buyerUsername r) (username env)
                       (buyerStatsParticipationRecorded r)
                       (sellerStatsParticipationRecorded r)
                       (roleSelectionMessageId r) (tradeDetailsStep r)
                       (step2MessageId r) in
        let (r, recorded) := recordStats env escrow r in
        let did := selected :: recorded ++ [UpdateRoleSelectionMessage] in
        if JS.truthy_id (buyerId escrow) && JS.truthy_id (sellerId escrow)
           && JS.truthy_id (roleSelectionMessageId r)
        then
          let r := mkRoles (buyerUsername r) (sellerUsername r)
                           (buyerStatsParticipationRecorded r)
                           (sellerStatsParticipationRecorded r)
                           (roleSelectionMessageId r) "step2_blockchain"
                           (step2MessageId r) in
          match sendPhoto env with
          | Sent id =>
              (Some (escrow,
                     mkRoles (buyerUsername r) (sellerUsername r)
                             (buyerStatsParticipationRecorded r)
                             (sellerStatsParticipationRecorded r)
                             (roleSelectionMessageId r) (tradeDetailsStep r)
                             (Some id)),
               did ++ [SendStep2Prompt])
          | PhotoThrows description =>
              (Some (escrow, r),
               did ++ [SendStep2Prompt] ++ caught description)
          end
        else (Some (escrow, r), did)
  end.

(** No user is both the buyer and the seller of the trade. *)
Definition roles_apart (e : Escrow) : Prop :=
  forall v, v <> 0%Z -> ~ (buyerId e = Some v /\ sellerId e = Some v).

End SelectRole.

(** * Properties *)

(** ** Symbolic execution of handlers *)

Ltac hred :=
  cbv beta iota zeta delta
      [run bind ret when answer_return answer reply emit return_ throw
       try_catch lift save findById findOne require db trace fst snd
       settlement_statuses orFail callRelease callRefund].


(** Case analysis on the test the handler is stopped at. *)
Ltac hcase :=
  match goal with
  | |- context [(if ?c then _ else _) ?w] => destruct c eqn:?
  | |- context [(match ?x with _ => _ end) ?w] => destruct x eqn:?
  end; hred.

Lemma transfers_app a b : transfers (a ++ b) = transfers a ++ transfers b.
Proof. induction a as [|[]]; cbn; congruence. Qed.

Lemma truthy_str_true s : s <> "" -> JS.truthy_str s = true.
Proof. destruct s; [congruence | reflexivity]. Qed.

Lemma settlement_status_not_terminal s :
  includes settlement_statuses s = true ->
  includes [completed; refunded] s = false.
Proof. destruct s; cbn; congruence. Qed.

(** ** The consent gate of each handler *)

(** The release click adds the approval of the clicking user to the
    flags already on the trade and changes nothing else. *)
Lemma record_release_click_eq ctx e :
  record_release_click ctx e =
  e <| buyerConfirmedRelease :=
         same_id (buyerId e) (userId ctx) || buyerConfirmedRelease e |>
    <| sellerConfirmedRelease :=
         same_id (sellerId e) (userId ctx) || sellerConfirmedRelease e |>
    <| adminConfirmedRelease :=
         (configAdmin ctx && negb (same_id (buyerId e) (userId ctx))
          && negb (same_id (sellerId e) (userId ctx)))
         || adminConfirmedRelease e |>.
Proof.
  unfold record_release_click.
  destruct (same_id (buyerId e) (userId ctx)),
    (same_id (sellerId e) (userId ctx)), (configAdmin ctx); reflexivity.
Qed.

Lemma record_refund_click_eq ctx e :
  record_refund_click ctx e =
  let admin := middlewareAdmin ctx
               && negb (same_id (buyerId e) (userId ctx))
               && negb (same_id (sellerId e) (userId ctx)) in
  e <| buyerConfirmedRefund :=
         same_id (buyerId e) (userId ctx) || admin || buyerConfirmedRefund e |>
    <| sellerConfirmedRefund :=
         same_id (sellerId e) (userId ctx) || admin
         || sellerConfirmedRefund e |>.
Proof.
  unfold record_refund_click.
  destruct (same_id (buyerId e) (userId ctx)),
    (same_id (sellerId e) (userId ctx)), (middlewareAdmin ctx); reflexivity.
Qed.

Lemma release_confirm_yes_gate svc ctx e t :
  release_click_accepted ctx e = true ->
  release_confirm_yes svc ctx (mkWorld (Some e) t) =
  let u := record_release_click ctx e in
  if canExecute u
  then release_settle svc ctx u
         (mkWorld (Some u)
            (t ++ [Answer (ProcessingRelease (adminConfirmedRelease u))]))
  else (Returned, mkWorld (Some u) (t ++ [Answer ApprovalRecorded])).
Proof.
  unfold release_click_accepted. intros H.
  apply andb_prop in H as [H Hparty]. apply andb_prop in H as [Hst Hstale].
  apply negb_true_iff in Hstale.
  pose proof (settlement_status_not_terminal _ Hst) as Hterm.
  unfold settlement_statuses in Hst.
  unfold release_confirm_yes. hred.
  rewrite Hst. hred. rewrite Hstale. hred. rewrite Hterm. hred.
  replace (negb (same_id (buyerId e) (userId ctx)) &&
           negb (same_id (sellerId e) (userId ctx)) &&
           negb (configAdmin ctx)) with false
    by (destruct (same_id (buyerId e) (userId ctx)),
          (same_id (sellerId e) (userId ctx)), (configAdmin ctx);
        try reflexivity; discriminate Hparty).
  hred. destruct (canExecute (record_release_click ctx e)); reflexivity.
Qed.

Lemma release_confirm_yes_refused svc ctx stored :
  match stored with
  | Some e => release_click_accepted ctx e = false
  | None => True
  end ->
  exists s, release_confirm_yes svc ctx (mkWorld stored []) =
            (Returned, mkWorld stored [Answer s]).
Proof.
  destruct stored as [e|]; [|intros _; eexists; reflexivity].
  unfold release_click_accepted, release_confirm_yes, settlement_statuses.
  intros H. hred.
  destruct (includes _ (status e)) eqn:Hst; hred; [|eexists; reflexivity].
  destruct (stale _ _); hred; [eexists; reflexivity|].
  rewrite (settlement_status_not_terminal _ Hst). hred.
  destruct (same_id (buyerId e) (userId ctx)),
    (same_id (sellerId e) (userId ctx)), (configAdmin ctx);
    try discriminate H; eexists; reflexivity.
Qed.

(** ** Release through [release_confirm_yes_] *)




Lemma admin_release_confirm_yes_gate svc ctx e t :
  admin_click_accepted ctx e = true ->
  admin_release_confirm_yes svc ctx (mkWorld (Some e) t) =
  let u := e <| adminConfirmedRelease := true |> in
  admin_release_settle svc ctx u
    (mkWorld (Some u) (t ++ [Answer ProcessingAdminRelease])).
Proof.
  unfold admin_click_accepted. intros H.
  apply andb_prop in H as [H Hadmin]. apply andb_prop in H as [Hst Hstale].
  apply negb_true_iff in Hstale.
  pose proof (settlement_status_not_terminal _ Hst) as Hterm.
  unfold settlement_statuses in Hst.
  unfold admin_release_confirm_yes. hred.
  rewrite Hst. hred. rewrite Hstale. hred. rewrite Hterm. hred.
  rewrite Hadmin. reflexivity.
Qed.

Lemma admin_release_confirm_yes_refused svc ctx stored :
  match stored with
  | Some e => admin_click_accepted ctx e = false
  | None => True
  end ->
  exists s, admin_release_confirm_yes svc ctx (mkWorld stored []) =
            (Returned, mkWorld stored [Answer s]).
Proof.
  destruct stored as [e|]; [|intros _; eexists; reflexivity].
  unfold admin_click_accepted, admin_release_confirm_yes, settlement_statuses.
  intros H. hred.
  destruct (includes _ (status e)) eqn:Hst; hred; [|eexists; reflexivity].
  destruct (stale _ _); hred; [eexists; reflexivity|].
  rewrite (settlement_status_not_terminal _ Hst). hred.
  destruct (configAdmin ctx); try discriminate H; eexists; reflexivity.
Qed.

Lemma refund_confirm_yes_gate svc ctx e t :
  refund_click_accepted ctx e = true ->
  refund_confirm_yes svc ctx (mkWorld (Some e) t) =
  let u := record_refund_click ctx e in
  if bothConfirmedRefund u then refund_settle svc u (mkWorld (Some u) t)
  else if editCaptionOk ctx
       then (Returned, mkWorld (Some u) (t ++ [Answer WaitingOtherParty]))
       else (Val tt, mkWorld (Some u) t).
Proof.
  unfold refund_click_accepted. intros H.
  apply andb_prop in H as [Hstale Hparty]. apply negb_true_iff in Hstale.
  unfold refund_confirm_yes. hred. rewrite Hstale. hred.
  replace (negb (same_id (buyerId e) (userId ctx)) &&
           negb (same_id (sellerId e) (userId ctx)) &&
           negb (middlewareAdmin ctx)) with false
    by (destruct (same_id (buyerId e) (userId ctx)),
          (same_id (sellerId e) (userId ctx)), (middlewareAdmin ctx);
        try reflexivity; discriminate Hparty).
  hred. destruct (bothConfirmedRefund (record_refund_click ctx e)); cbn [negb andb].
  - hred. destruct (refund_settle svc _ _) as [[]]; reflexivity.
  - destruct (editCaptionOk ctx); reflexivity.
Qed.

Lemma refund_confirm_yes_refused svc ctx stored :
  match stored with
  | Some e => refund_click_accepted ctx e = false
  | None => True
  end ->
  exists s, refund_confirm_yes svc ctx (mkWorld stored []) =
            (Returned, mkWorld stored [Answer s]).
Proof.
  destruct stored as [e|]; [|intros _; eexists; reflexivity].
  unfold refund_click_accepted, refund_confirm_yes. intros H. hred.
  destruct (stale _ _); hred; [eexists; reflexivity|].
  destruct (same_id (buyerId e) (userId ctx)),
    (same_id (sellerId e) (userId ctx)), (middlewareAdmin ctx);
    try discriminate H; eexists; reflexivity.
Qed.

(** ** What the settlement phases do on every path *)

Ltac hpaths := hred; repeat hcase.

Ltac extension :=
  rewrite <- ?app_assoc;
  first [ eexists; reflexivity | exists []; symmetry; apply app_nil_r ].

Lemma release_settle_extends svc ctx u w :
  exists t', trace (snd (release_settle svc ctx u w)) = trace w ++ t'.
Proof.
  destruct w as [d t]. unfold release_settle. hpaths; extension.
Qed.

Lemma admin_release_settle_extends svc ctx u w :
  exists t', trace (snd (admin_release_settle svc ctx u w)) = trace w ++ t'.
Proof.
  destruct w as [d t]. unfold admin_release_settle. hpaths; extension.
Qed.

Lemma refund_settle_extends svc u w :
  exists t', trace (snd (refund_settle svc u w))
             = trace w ++ Answer ProcessingRefund :: t'.
Proof.
  destruct w as [d t]. unfold refund_settle. hpaths; extension.
Qed.

(** The outer [catch] only adds its answer to the trace. *)
Lemma run_spec h stored :
  let w := snd (h (mkWorld stored [])) in
  db (run h stored) = db w
  /\ exists t', trace (run h stored) = trace w ++ t'
                /\ (t' = [] \/ t' = [Answer ErrorOccurred]).
Proof.
  unfold run. destruct (h _) as [[] w]; cbn [snd db trace]; split; trivial;
    first [ exists []; split; [symmetry; apply app_nil_r | now left]
          | eexists; split; [reflexivity | now right] ].
Qed.

Lemma run_transfers h stored :
  transfers (trace (run h stored))
  = transfers (trace (snd (h (mkWorld stored [])))).
Proof.
  destruct (run_spec h stored) as [_ (t' & -> & [-> | ->])];
    now rewrite transfers_app, app_nil_r.
Qed.

(** A click that is refused, or that leaves the approvals short of the
    quorum, makes no transfer call. *)
Lemma release_needs_quorum svc ctx stored :
  transfers (trace (run (release_confirm_yes svc ctx) stored)) <> [] ->
  exists e, stored = Some e
            /\ release_click_accepted ctx e = true
            /\ canExecute (record_release_click ctx e) = true.
Proof.
  rewrite run_transfers. intros H.
  destruct stored as [e|].
  - destruct (release_click_accepted ctx e) eqn:Ha.
    + rewrite (release_confirm_yes_gate _ _ _ _ Ha) in H. cbv zeta in H.
      destruct (canExecute (record_release_click ctx e)) eqn:Hq;
        [exists e; auto|].
      now elim H.
    + destruct (release_confirm_yes_refused svc ctx (Some e) Ha) as [s Hs].
      rewrite Hs in H. now elim H.
  - destruct (release_confirm_yes_refused svc ctx None I) as [s Hs].
    rewrite Hs in H. now elim H.
Qed.

Lemma admin_release_needs_admin svc ctx stored :
  transfers (trace (run (admin_release_confirm_yes svc ctx) stored)) <> [] ->
  exists e, stored = Some e /\ admin_click_accepted ctx e = true.
Proof.
  rewrite run_transfers. intros H.
  destruct stored as [e|].
  - destruct (admin_click_accepted ctx e) eqn:Ha; [exists e; auto|].
    destruct (admin_release_confirm_yes_refused svc ctx (Some e) Ha)
      as [s Hs].
    rewrite Hs in H. now elim H.
  - destruct (admin_release_confirm_yes_refused svc ctx None I) as [s Hs].
    rewrite Hs in H. now elim H.
Qed.

Lemma refund_needs_quorum svc ctx stored :
  transfers (trace (run (refund_confirm_yes svc ctx) stored)) <> [] ->
  exists e, stored = Some e
            /\ refund_click_accepted ctx e = true
            /\ bothConfirmedRefund (record_refund_click ctx e) = true.
Proof.
  rewrite run_transfers. intros H.
  destruct stored as [e|].
  - destruct (refund_click_accepted ctx e) eqn:Ha.
    + rewrite (refund_confirm_yes_gate _ _ _ _ Ha) in H. cbv zeta in H.
      destruct (bothConfirmedRefund (record_refund_click ctx e)) eqn:Hq;
        [exists e; auto|].
      destruct (editCaptionOk ctx); now elim H.
    + destruct (refund_confirm_yes_refused svc ctx (Some e) Ha) as [s Hs].
      rewrite Hs in H. now elim H.
  - destruct (refund_confirm_yes_refused svc ctx None I) as [s Hs].
    rewrite Hs in H. now elim H.
Qed.

Lemma no_transfers_or (l : list TransferCall) (P : Prop) :
  (l <> [] -> P) -> (P -> False) -> l = [].
Proof. destruct l; [reflexivity|]. intros H N. exfalso. apply N, H. discriminate. Qed.

(** C4, as amended.  In the consent handlers the transfer collaborator
    is called only if, once the click is recorded, both parties' flags of
    the direction are set or (release) the admin flag is set; the release
    by [admin_release_confirm_yes_] needs an admin.  The settlement is
    attempted (the handler announces that it is processing) exactly when
    the quorum holds; whether it then transfers is up to the settlement
    guards.  The click of one party who is no admin, while the admin flag
    and the other party's flag are unset, never leads to a transfer. *)
Theorem consent_quorum_gate svc ctx e :
  let r := run (release_confirm_yes svc ctx) (Some e) in
  let a := run (admin_release_confirm_yes svc ctx) (Some e) in
  let f := run (refund_confirm_yes svc ctx) (Some e) in
  let ur := record_release_click ctx e in
  let uf := record_refund_click ctx e in
  (transfers (trace r) <> [] -> canExecute ur = true)
  /\ (transfers (trace a) <> [] -> configAdmin ctx = true)
  /\ (transfers (trace f) <> [] -> bothConfirmedRefund uf = true)
  /\ (release_click_accepted ctx e = true ->
      (In (Answer (ProcessingRelease (adminConfirmedRelease ur))) (trace r)
       <-> canExecute ur = true))
  /\ (refund_click_accepted ctx e = true ->
      (In (Answer ProcessingRefund) (trace f)
       <-> bothConfirmedRefund uf = true))
  /\ (configAdmin ctx = false -> adminConfirmedRelease e = false ->
      (same_id (sellerId e) (userId ctx) = false ->
       sellerConfirmedRelease e = false -> transfers (trace r) = [])
      /\ (same_id (buyerId e) (userId ctx) = false ->
          buyerConfirmedRelease e = false -> transfers (trace r) = []))
  /\ (middlewareAdmin ctx = false ->
      (same_id (sellerId e) (userId ctx) = false ->
       sellerConfirmedRefund e = false -> transfers (trace f) = [])
      /\ (same_id (buyerId e) (userId ctx) = false ->
          buyerConfirmedRefund e = false -> transfers (trace f) = [])).
Proof.
  intros r a f ur uf.
  assert (Hr : transfers (trace r) <> [] -> canExecute ur = true).
  { intros H. apply release_needs_quorum in H as (e' & [= <-] & _ & H).
    exact H. }
  assert (Hf : transfers (trace f) <> [] -> bothConfirmedRefund uf = true).
  { intros H. apply refund_needs_quorum in H as (e' & [= <-] & _ & H).
    exact H. }
  split; [exact Hr|]. split.
  { intros H. apply admin_release_needs_admin in H as (e' & [= <-] & H).
    unfold admin_click_accepted in H. now apply andb_prop in H as [_ H]. }
  split; [exact Hf|]. split.
  { intros Ha. subst r.
    destruct (run_spec (release_confirm_yes svc ctx) (Some e))
      as [_ (t' & -> & Ht')].
    rewrite (release_confirm_yes_gate _ _ _ _ Ha). cbv zeta. fold ur.
    destruct (canExecute ur).
    - destruct (release_settle_extends svc ctx ur
                  (mkWorld (Some ur)
                     ([] ++ [Answer (ProcessingRelease
                                       (adminConfirmedRelease ur))])))
        as [t'' ->].
      cbn [trace app]. split; [reflexivity|]. intros _. now left.
    - split; [|discriminate]. intros H. exfalso.
      apply in_app_or in H as [H|H].
      + cbn in H; intuition discriminate.
      + destruct Ht' as [-> | ->]; cbn in H; intuition discriminate. }
  split.
  { intros Ha. subst f.
    destruct (run_spec (refund_confirm_yes svc ctx) (Some e))
      as [_ (t' & -> & Ht')].
    rewrite (refund_confirm_yes_gate _ _ _ _ Ha). cbv zeta. fold uf.
    destruct (bothConfirmedRefund uf).
    - destruct (refund_settle_extends svc uf (mkWorld (Some uf) []))
        as [t'' ->].
      cbn [trace app]. split; [reflexivity|]. intros _. now left.
    - split; [|discriminate]. intros H. exfalso.
      apply in_app_or in H as [H|H].
      + destruct (editCaptionOk ctx); cbn in H; intuition discriminate.
      + destruct Ht' as [-> | ->]; cbn in H; intuition discriminate. }
  split.
  { intros Hadm Hflag. split; intros Hid Hother;
      apply (no_transfers_or _ _ Hr); subst ur;
      rewrite record_release_click_eq; unfold canExecute;
      cbn [adminConfirmedRelease buyerConfirmedRelease sellerConfirmedRelease
           setter set_buyerConfirmedRelease set_sellerConfirmedRelease
           set_adminConfirmedRelease];
      rewrite Hadm, Hflag, Hid, Hother; cbn;
      rewrite ?andb_false_r; discriminate. }
  intros Hadm. split; intros Hid Hother;
    apply (no_transfers_or _ _ Hf); subst uf;
    rewrite record_refund_click_eq; unfold bothConfirmedRefund;
    cbn [buyerConfirmedRefund sellerConfirmedRefund
         setter set_buyerConfirmedRefund set_sellerConfirmedRefund];
    rewrite Hadm, Hid, Hother; cbn;
    rewrite ?andb_false_r; discriminate.
Qed.

Lemma consent_quorum_gate_witness :
  configAdmin buyer_release_click = false
  /\ sellerConfirmedRelease sample_trade = false
  /\ transfers (trace (run (release_confirm_yes (sample_services [])
                              buyer_release_click) (Some sample_trade))) = [].
Proof.
  split; [reflexivity|]. split; [reflexivity|].
  pose proof (consent_quorum_gate (sample_services []) buyer_release_click
                sample_trade) as H.
  cbv zeta in H. destruct H as (_ & _ & _ & _ & _ & H & _).
  destruct H as [H _]; [reflexivity | reflexivity |].
  apply H; reflexivity.
Defined.

(** C4 as stated fails in both directions.  With both approvals on
    record the release is still refused when a release hash is already
    recorded; and [fiat_release_confirm_] releases on the click of the
    seller alone, without the buyer's or an admin's approval. *)
Lemma quorum_iff_counterexample :
  (let e := sample_trade <| buyerConfirmedRelease := true |>
                         <| releaseTransactionHash := "0x01d" |> in
   let w := run (release_confirm_yes (sample_services [])
                   seller_release_click) (Some e) in
   canExecute (record_release_click seller_release_click e) = true
   /\ trace w = [Answer (ProcessingRelease false); Answer AlreadySettled]
   /\ transfers (trace w) = [])
  /\ (let w := run (fiat_release_confirm (sample_services [])
                      seller_release_click) (Some sample_trade) in
      buyerConfirmedRelease sample_trade = false
      /\ adminConfirmedRelease sample_trade = false
      /\ configAdmin seller_release_click = false
      /\ map call_amount (transfers (trace w)) = [999.7]).
Proof. vm_compute. repeat split. Qed.

(** ** Amount validation *)






(** Every transfer call of [release_settle] pays the canonical net of
    the requested amount. *)
Lemma release_settle_calls svc ctx u w c :
  In c (transfers (trace (snd (release_settle svc ctx u w)))) ->
  In c (transfers (trace w))
  \/ exists balance,
      formattedTotalDeposited u (getTokenDecimals svc (token u) (chain u))
      = Ok balance
      /\ c = release_call u
               (netPayout (requestedRelease u balance) (JS.num (feeRate u))
                          (JS.num (networkFee u)))
               None.
Proof.
  destruct w as [d t]. unfold release_settle, requestedRelease. hpaths;
    rewrite ?transfers_app; cbn [transfers app]; rewrite ?app_nil_r;
    intros H; auto;
    (apply in_app_or in H as [H|[<-|[]]]; [now left|right]);
    eexists; split; reflexivity.
Qed.

(** In [release_confirm_yes_] the amount handed to the transfer
    collaborator is always [gross - gross * feeRate / 100 - networkFee],
    with the pending partial amount, else the balance, for [gross]. *)
Lemma bilateral_release_pays_canonical_net svc ctx e c :
  In c (transfers (trace (run (release_confirm_yes svc ctx) (Some e)))) ->
  exists balance,
    formattedTotalDeposited e (getTokenDecimals svc (token e) (chain e))
    = Ok balance
    /\ c = release_call e
             (netPayout (requestedRelease e balance) (JS.num (feeRate e))
                        (JS.num (networkFee e)))
             None.
Proof.
  intros Hc.
  assert (Hne : transfers (trace (run (release_confirm_yes svc ctx) (Some e)))
                <> []) by (intros E; now rewrite E in Hc).
  apply release_needs_quorum in Hne as (e' & [= <-] & Ha & Hq).
  rewrite run_transfers in Hc.
  rewrite (release_confirm_yes_gate _ _ _ _ Ha) in Hc. cbv zeta in Hc.
  rewrite Hq in Hc.
  apply release_settle_calls in Hc as [[]|(balance & Hb & ->)].
  exists balance. revert Hb. rewrite record_release_click_eq.
  intros Hb. split; [exact Hb | reflexivity].
Qed.

(** ** Refund approvals *)

Lemma refund_settle_keeps_flags svc u t :
  exists e', db (snd (refund_settle svc u (mkWorld (Some u) t))) = Some e'
             /\ buyerConfirmedRefund e' = buyerConfirmedRefund u
             /\ sellerConfirmedRefund e' = sellerConfirmedRefund u.
Proof.
  unfold refund_settle. hpaths; eexists; (split; [reflexivity|]);
    repeat match goal with
           | |- context [if ?c then _ else _] => destruct c
           end; split; reflexivity.
Qed.

(** C9. In [refund_confirm_yes_] the click of an admin who is neither
    the buyer nor the seller sets both [buyerConfirmedRefund] and
    [sellerConfirmedRefund] (while in [release_confirm_yes_] it sets the
    separate [adminConfirmedRelease] and nothing else); both flags are on
    the stored record after the handler, and the whole outcome, record
    and trace, is the one of any party's click that completes the
    bilateral approval of the same record. *)
Theorem admin_refund_sets_both_flags svc ctx e :
  stale (refundConfirmationMessageId e) (callbackMessageId ctx) = false ->
  middlewareAdmin ctx = true ->
  same_id (buyerId e) (userId ctx) = false ->
  same_id (sellerId e) (userId ctx) = false ->
  let w := run (refund_confirm_yes svc ctx) (Some e) in
  record_refund_click ctx e
  = e <| buyerConfirmedRefund := true |> <| sellerConfirmedRefund := true |>
  /\ (configAdmin ctx = true ->
      record_release_click ctx e = e <| adminConfirmedRelease := true |>)
  /\ (exists e', db w = Some e'
                 /\ buyerConfirmedRefund e' = true
                 /\ sellerConfirmedRefund e' = true)
  /\ (forall ctx',
        refund_click_accepted ctx' e = true ->
        bothConfirmedRefund (record_refund_click ctx' e) = true ->
        run (refund_confirm_yes svc ctx') (Some e) = w).
Proof.
  intros Hstale Hadm Hb Hs w.
  assert (Hclick : record_refund_click ctx e
                   = e <| buyerConfirmedRefund := true |>
                       <| sellerConfirmedRefund := true |>).
  { rewrite record_refund_click_eq, Hadm, Hb, Hs. reflexivity. }
  assert (Ha : refund_click_accepted ctx e = true).
  { unfold refund_click_accepted. now rewrite Hstale, Hadm, Hb, Hs. }
  assert (Hrun : refund_confirm_yes svc ctx (mkWorld (Some e) [])
                 = let u := e <| buyerConfirmedRefund := true |>
                             <| sellerConfirmedRefund := true |> in
                   refund_settle svc u (mkWorld (Some u) [])).
  { rewrite (refund_confirm_yes_gate _ _ _ _ Ha). cbv zeta.
    rewrite Hclick. reflexivity. }
  cbv zeta in Hrun.
  split; [exact Hclick|]. split.
  { intros Hc. rewrite record_release_click_eq, Hc, Hb, Hs. reflexivity. }
  split.
  { destruct (refund_settle_keeps_flags svc
                (e <| buyerConfirmedRefund := true |>
                   <| sellerConfirmedRefund := true |>) [])
      as (e' & He' & Hb' & Hs').
    exists e'. subst w.
    destruct (run_spec (refund_confirm_yes svc ctx) (Some e)) as [-> _].
    rewrite Hrun. auto. }
  intros ctx' Ha' Hq'. subst w. unfold run. rewrite Hrun.
  rewrite (refund_confirm_yes_gate _ _ _ _ Ha'). cbv zeta. rewrite Hq'.
  replace (record_refund_click ctx' e)
    with (e <| buyerConfirmedRefund := true |>
            <| sellerConfirmedRefund := true |>); [reflexivity|].
  revert Hq'. rewrite record_refund_click_eq. unfold bothConfirmedRefund.
  cbv zeta.
  cbn [buyerConfirmedRefund sellerConfirmedRefund setter
       set_buyerConfirmedRefund set_sellerConfirmedRefund].
  intros Hq'. apply andb_prop in Hq' as [-> ->]. reflexivity.
Qed.

Lemma admin_refund_sets_both_flags_witness :
  let w := run (refund_confirm_yes (sample_services []) admin_refund_click)
               (Some sample_trade) in
  exists e', db w = Some e'
             /\ buyerConfirmedRefund e' = true
             /\ sellerConfirmedRefund e' = true.
Proof.
  apply (admin_refund_sets_both_flags (sample_services []) admin_refund_click
           sample_trade); reflexivity.
Defined.

(** ** The integer mirror *)

Lemma to_int_not_nil n :
  Z.to_int n <> Decimal.Pos Decimal.Nil /\ Z.to_int n <> Decimal.Neg Decimal.Nil.
Proof.
  destruct n as [|p|p]; cbn; split; try discriminate;
    intros [= H]; exact (DecimalPos.Unsigned.to_uint_nonnil p H).
Qed.

Lemma BigInt_toString_nonempty n : JS.BigInt_toString n <> "".
Proof.
  unfold JS.BigInt_toString, NilZero.string_of_int, NilZero.string_of_uint.
  destruct (Z.to_int n) as [u|u]; [|discriminate].
  destruct u; discriminate.
Qed.

(** A stored spelling reads back as the integer it was printed from. *)
Lemma BigInt_of_toString n : JS.BigInt (JS.BigInt_toString n) = Some n.
Proof.
  pose proof (BigInt_toString_nonempty n) as Hne.
  unfold JS.BigInt. destruct (JS.BigInt_toString n) eqn:E; [congruence|].
  rewrite <- E. unfold JS.BigInt_toString.
  destruct (to_int_not_nil n) as [Hp Hn].
  rewrite (NilZero.isi _ Hp Hn). cbn. now rewrite DecimalZ.of_to.
Qed.

Lemma remainingWei_spec total override r :
  remainingWei total override = Ok r ->
  exists a b,
    JS.BigInt total = Some a /\ JS.BigInt override = Some b
    /\ ((a - b < 0)%Z -> r = "0")
    /\ ((0 <= a - b)%Z -> r = JS.BigInt_toString (a - b))
    /\ nonneg_integer_string r.
Proof.
  unfold remainingWei.
  destruct (JS.BigInt total) as [a|]; [|discriminate].
  destruct (JS.BigInt override) as [b|]; [|discriminate].
  intros [= <-]. exists a, b. repeat split; trivial.
  - intros H. apply Z.ltb_lt in H. now rewrite H.
  - intros H. apply Z.ltb_ge in H. now rewrite H.
  - destruct (Z.ltb_spec (a - b) 0).
    + exists 0%Z. split; [lia | reflexivity].
    + exists (a - b)%Z. split; [lia | reflexivity].
Qed.

Lemma keep_remainder_wei remaining totalWei override e e1 :
  keep_remainder remaining totalWei override e = Ok e1 ->
  accumulatedDepositAmountWei e1 = accumulatedDepositAmountWei e
  \/ nonneg_integer_string (accumulatedDepositAmountWei e1).
Proof.
  unfold keep_remainder.
  destruct totalWei as [w|]; [destruct override as [o|]|];
    try (intros [= <-]; now left).
  destruct (JS.truthy_str o); [|intros [= <-]; now left].
  destruct (remainingWei w o) as [r|] eqn:Hr; [|discriminate].
  intros [= <-]. right. cbn.
  now apply remainingWei_spec in Hr as (a & b & _ & _ & _ & _ & H).
Qed.

Lemma zero_is_nonneg_integer_string : nonneg_integer_string "0".
Proof. exists 0%Z. split; [lia | reflexivity]. Qed.

Ltac wei_done :=
  cbn [db snd]; intros e' [= <-];
  first [ now left
        | right; exact zero_is_nonneg_integer_string
        | match goal with
          | H : keep_remainder _ _ _ _ = Ok _ |- _ =>
              apply keep_remainder_wei in H; cbn in H |- *; exact H
          end ].

Lemma release_settle_wei svc ctx u t e' :
  db (snd (release_settle svc ctx u (mkWorld (Some u) t))) = Some e' ->
  accumulatedDepositAmountWei e' = accumulatedDepositAmountWei u
  \/ nonneg_integer_string (accumulatedDepositAmountWei e').
Proof.
  revert e'. unfold release_settle. hpaths; wei_done.
Qed.

Lemma admin_release_settle_wei svc ctx u t e' :
  db (snd (admin_release_settle svc ctx u (mkWorld (Some u) t))) = Some e' ->
  accumulatedDepositAmountWei e' = accumulatedDepositAmountWei u
  \/ nonneg_integer_string (accumulatedDepositAmountWei e').
Proof.
  revert e'. unfold admin_release_settle. hpaths; wei_done.
Qed.

(** C10. The integer mirror [accumulatedDepositAmountWei] that either
    release handler leaves on the record is the one it found or the
    canonical spelling of a non-negative integer: a partial settlement
    stores [BigInt(totalDepositedWei) - BigInt(amountWeiOverride)], and
    ["0"] in its place whenever that difference is negative. *)
Theorem wei_mirror_stays_nonnegative svc ctx e :
  (forall e', db (run (release_confirm_yes svc ctx) (Some e)) = Some e' ->
     accumulatedDepositAmountWei e' = accumulatedDepositAmountWei e
     \/ nonneg_integer_string (accumulatedDepositAmountWei e'))
  /\ (forall e', db (run (admin_release_confirm_yes svc ctx) (Some e))
                 = Some e' ->
     accumulatedDepositAmountWei e' = accumulatedDepositAmountWei e
     \/ nonneg_integer_string (accumulatedDepositAmountWei e'))
  /\ (forall remaining totalWei override u u',
        keep_remainder remaining totalWei override u = Ok u' ->
        accumulatedDepositAmountWei u' = accumulatedDepositAmountWei u
        \/ nonneg_integer_string (accumulatedDepositAmountWei u'))
  /\ (forall total override r,
        remainingWei total override = Ok r ->
        exists a b,
          JS.BigInt total = Some a /\ JS.BigInt override = Some b
          /\ ((a - b < 0)%Z -> r = "0")
          /\ ((0 <= a - b)%Z -> r = JS.BigInt_toString (a - b))
          /\ nonneg_integer_string r)
  /\ (forall s, nonneg_integer_string s ->
        exists n, (0 <= n)%Z /\ JS.BigInt s = Some n).
Proof.
  split; [|split; [|split; [|split]]].
  - intros e'.
    destruct (run_spec (release_confirm_yes svc ctx) (Some e)) as [-> _].
    destruct (release_click_accepted ctx e) eqn:Ha.
    + rewrite (release_confirm_yes_gate _ _ _ _ Ha). cbv zeta.
      destruct (canExecute _).
      * intros H. apply release_settle_wei in H.
        now rewrite record_release_click_eq in H.
      * cbn. intros [= <-]. left. now rewrite record_release_click_eq.
    + destruct (release_confirm_yes_refused svc ctx (Some e) Ha) as [s ->].
      cbn. intros [= <-]. now left.
  - intros e'.
    destruct (run_spec (admin_release_confirm_yes svc ctx) (Some e))
      as [-> _].
    destruct (admin_click_accepted ctx e) eqn:Ha.
    + rewrite (admin_release_confirm_yes_gate _ _ _ _ Ha). cbv zeta.
      intros H. now apply admin_release_settle_wei in H.
    + destruct (admin_release_confirm_yes_refused svc ctx (Some e) Ha)
        as [s ->].
      cbn. intros [= <-]. now left.
  - intros *. apply keep_remainder_wei.
  - intros *. apply remainingWei_spec.
  - intros s (n & Hn & ->). exists n. split; [exact Hn|].
    apply BigInt_of_toString.
Qed.

Lemma wei_mirror_stays_nonnegative_witness :
  remainingWei "1000000000" "1200000000" = Ok "0"
  /\ exists a b,
      JS.BigInt "1000000000" = Some a /\ JS.BigInt "1200000000" = Some b
      /\ ((a - b < 0)%Z -> "0" = "0")
      /\ ((0 <= a - b)%Z -> "0" = JS.BigInt_toString (a - b))
      /\ nonneg_integer_string "0".
Proof.
  split; [reflexivity|].
  destruct (wei_mirror_stays_nonnegative (sample_services [])
              seller_release_click sample_trade) as (_ & _ & _ & H & _).
  apply (H "1000000000" "1200000000" "0"). reflexivity.
Defined.

(** ** Deposit detection *)

Lemma recorded_blocks e vault tx :
  hash tx <> "" ->
  recorded e (hash tx) = true ->
  is_new_deposit e vault tx = false.
Proof.
  intros Hh Hr. unfold is_new_deposit.
  destruct (negb _); [reflexivity|].
  rewrite (truthy_str_true _ Hh), Hr. reflexivity.
Qed.

(** A hash that is the primary hash or in the partial list, letter for
    letter, is recorded in the sense of the filter. *)
Lemma stored_is_recorded e h :
  h <> "" ->
  transactionHash e = h \/ In h (partialTransactionHashes e) ->
  recorded e h = true.
Proof.
  intros Hh [<-|Hin]; unfold recorded.
  - now rewrite (truthy_str_true _ Hh), String.eqb_refl.
  - apply orb_true_iff. right. apply existsb_exists.
    exists h. split; [exact Hin | apply String.eqb_refl].
Qed.

Lemma record_hash_monotone e tx h :
  recorded e h = true -> recorded (record_hash e tx) h = true.
Proof.
  unfold record_hash.
  destruct (negb (JS.truthy_str (hash tx))); [trivial|].
  destruct (negb (JS.truthy_str (transactionHash e))) eqn:Hp.
  - apply negb_true_iff in Hp. unfold recorded.
    cbn [transactionHash partialTransactionHashes setter
         set_transactionHash set_depositTransactionFromAddress].
    rewrite Hp. cbn [andb orb]. intros ->. apply orb_true_r.
  - destruct (negb (existsb (String.eqb (hash tx))
                      (partialTransactionHashes e))
              && negb (transactionHash e =? hash tx)%string); [|trivial].
    unfold recorded.
    cbn [transactionHash partialTransactionHashes setter
         set_partialTransactionHashes].
    rewrite existsb_app. intros H.
    apply orb_true_iff in H as [-> | ->]; [reflexivity|].
    now rewrite orb_true_r.
Qed.

Lemma record_hash_records e tx :
  hash tx <> "" -> recorded (record_hash e tx) (hash tx) = true.
Proof.
  intros Hh. pose proof (truthy_str_true _ Hh) as Ht.
  unfold record_hash. rewrite Ht. cbn [negb].
  destruct (JS.truthy_str (transactionHash e)) eqn:Hp; cbn [negb].
  - destruct (existsb (String.eqb (hash tx)) (partialTransactionHashes e))
      eqn:Hex; cbn [negb andb].
    + apply stored_is_recorded; [exact Hh|]. right.
      apply existsb_exists in Hex as (p & Hin & Heq).
      apply String.eqb_eq in Heq. now subst p.
    + destruct (transactionHash e =? hash tx)%string eqn:Heq; cbn [negb].
      * apply stored_is_recorded; [exact Hh|]. left.
        now apply String.eqb_eq.
      * apply stored_is_recorded; [exact Hh|]. right. cbn.
        apply in_or_app. right. now left.
  - apply stored_is_recorded; [exact Hh|]. now left.
Qed.

Lemma fold_record_hash_monotone l : forall e h,
  recorded e h = true -> recorded (fold_left record_hash l e) h = true.
Proof.
  induction l as [|tx l IH]; intros e h H; cbn; [exact H|].
  apply IH, record_hash_monotone, H.
Qed.

Lemma fold_record_hash_records l : forall e tx,
  In tx l -> hash tx <> "" ->
  recorded (fold_left record_hash l e) (hash tx) = true.
Proof.
  induction l as [|tx0 l IH]; intros e tx Hin Hh; [destruct Hin|].
  cbn. destruct Hin as [->|Hin].
  - apply fold_record_hash_monotone, record_hash_records, Hh.
  - now apply IH.
Qed.

Lemma fold_record_hash_frame l : forall e,
  let e' := fold_left record_hash l e in
  status e' = status e /\ depositAddress e' = depositAddress e
  /\ depositAmount e' = depositAmount e /\ token e' = token e
  /\ chain e' = chain e /\ buyerId e' = buyerId e.
Proof.
  induction l as [|tx l IH]; intros e; [now repeat split|].
  cbn. specialize (IH (record_hash e tx)). cbv zeta in IH.
  destruct IH as (-> & -> & -> & -> & -> & ->).
  unfold record_hash.
  repeat match goal with
         | |- context [if ?c then _ else _] => destruct c
         end; now repeat split.
Qed.

(** What a poll that finds a positive new amount stores and says. *)
Lemma check_deposit_counts svc e :
  includes [awaiting_deposit; deposited] (status e) = true ->
  depositAddress e <> "" ->
  JS.gt (sum_values (newDeposits svc e)) 0 = true ->
  exists blocked,
    (blocked = e \/ exists n, blocked = e <| lastCheckedBlock := n |>)
    /\ let hashed := fold_left record_hash (newDeposits svc e) blocked in
       let total := depositAmount e + sum_values (newDeposits svc e) in
       let e1 := hashed <| depositAmount := total |>
                        <| confirmedAmount := total |>
                        <| status := deposited |> in
       db (run (check_deposit svc) (Some e)) = Some e1
       /\ exists t, trace (run (check_deposit svc) (Some e))
                    = Answer CheckingDeposit
                      :: Reply (DepositConfirmed
                                  (sum_values (newDeposits svc e)))
                      :: t.
Proof.
  intros Hst Haddr Hnew. pose proof (truthy_str_true _ Haddr) as Ha.
  exists (match getLatestBlockNumber svc (chain e) with
          | Some latest => if (latest =? 0)%Z then e
                           else e <| lastCheckedBlock := latest |>
          | None => e
          end).
  split.
  { destruct (getLatestBlockNumber svc (chain e)) as [n|];
      [destruct (n =? 0)%Z|]; eauto. }
  unfold run, check_deposit. hred.
  rewrite Hst. hred. rewrite Ha. cbn [negb]. hred. rewrite Hnew. hred.
  destruct (JS.truthy_id (buyerId _)); hred; split; try reflexivity;
    eexists; reflexivity.
Qed.

(** C8. A transfer whose hash is already on the trade, as the primary
    hash or in the partial list, is dropped by the filter of
    [check_deposit], whatever its amount; and once a poll has counted a
    transfer and recorded its hash, a later poll that brings into the
    vault only hashes already recorded, with the same or other amounts,
    changes nothing: the balance has grown by the transfer exactly
    once. *)
Theorem duplicate_hash_counted_once svc svc' e :
  includes [awaiting_deposit; deposited] (status e) = true ->
  depositAddress e <> "" ->
  JS.gt (sum_values (newDeposits svc e)) 0 = true ->
  (forall tx l1 l2 vault,
      hash tx <> "" ->
      transactionHash e = hash tx \/ In (hash tx) (partialTransactionHashes e) ->
      filter (is_new_deposit e vault) (l1 ++ tx :: l2)
      = filter (is_new_deposit e vault) (l1 ++ l2))
  /\ exists e1,
      db (run (check_deposit svc) (Some e)) = Some e1
      /\ depositAmount e1 = depositAmount e + sum_values (newDeposits svc e)
      /\ confirmedAmount e1 = depositAmount e1
      /\ (forall tx, In tx (newDeposits svc e) -> hash tx <> "" ->
                     recorded e1 (hash tx) = true)
      /\ ((forall tx', In tx' (observed svc' e1) ->
                       (JS.toLowerCase (to tx')
                        =? JS.toLowerCase (depositAddress e1))%string = true ->
                       hash tx' <> "" /\ recorded e1 (hash tx') = true) ->
          run (check_deposit svc') (Some e1)
          = mkWorld (Some e1) [Answer CheckingDeposit; Reply NoNewDeposit]).
Proof.
  intros Hst Haddr Hnew. split.
  { intros tx l1 l2 vault Hh Hin. rewrite !filter_app. cbn [filter].
    now rewrite (recorded_blocks e vault tx Hh (stored_is_recorded _ _ Hh Hin)). }
  pose proof (truthy_str_true _ Haddr) as Ha.
  destruct (check_deposit_counts svc e Hst Haddr Hnew)
    as (blocked & Hb & Hdb & _).
  cbv zeta in Hdb.
  set (hashed := fold_left record_hash (newDeposits svc e) blocked) in *.
  assert (Hba : depositAddress blocked = depositAddress e).
  { destruct Hb as [->|[n ->]]; reflexivity. }
  destruct (fold_record_hash_frame (newDeposits svc e) blocked)
    as (_ & Hda & _).
  fold hashed in Hda.
  eexists. split; [exact Hdb|].
  split; [reflexivity|]. split; [reflexivity|]. split.
  { intros tx Hin Hh.
    change (recorded hashed (hash tx) = true).
    subst hashed. now apply fold_record_hash_records. }
  set (e1 := hashed <| depositAmount := _ |> <| confirmedAmount := _ |>
                    <| status := _ |>) in *.
  intros Hdup.
  assert (Hnone : newDeposits svc' e1 = []).
  { unfold newDeposits.
    induction (observed svc' e1) as [|tx l IH]; [reflexivity|]. cbn [filter].
    assert (Hl : forall tx', In tx' l ->
              (JS.toLowerCase (to tx')
               =? JS.toLowerCase (depositAddress e1))%string = true ->
              hash tx' <> "" /\ recorded e1 (hash tx') = true)
      by (intros tx' Hin; apply Hdup; now right).
    rewrite (IH Hl).
    destruct (JS.toLowerCase (to tx)
              =? JS.toLowerCase (depositAddress e1))%string eqn:Hto.
    - destruct (Hdup tx (or_introl eq_refl) Hto) as [Hh Hr].
      now rewrite (recorded_blocks _ _ _ Hh Hr).
    - unfold is_new_deposit. now rewrite Hto. }
  unfold run, check_deposit. hred.
  change (status e1) with deposited. cbn [includes existsb Status_eqb orb].
  hred.
  change (depositAddress e1) with (depositAddress hashed).
  rewrite Hda, Hba, Ha. cbn [negb]. hred.
  rewrite Hnone. reflexivity.
Qed.

Lemma duplicate_hash_counted_once_witness :
  let first := sample_services [mkTransfer "0x5E11" "0xA017" "0xABC" 400] in
  let again := sample_services [mkTransfer "0x5E11" "0xa017" "0xabc" 700] in
  exists e1,
    db (run (check_deposit first) (Some funding_trade)) = Some e1
    /\ depositAmount e1 = 400
    /\ run (check_deposit again) (Some e1)
       = mkWorld (Some e1) [Answer CheckingDeposit; Reply NoNewDeposit].
Proof.
  intros first again.
  destruct (duplicate_hash_counted_once first again funding_trade)
    as [_ (e1 & H1 & H2 & _ & _ & H5)];
    [reflexivity | discriminate | reflexivity |].
  exists e1. split; [exact H1|]. split; [rewrite H2; reflexivity|].
  apply H5. vm_compute in H1. injection H1 as <-.
  intros tx' [<-|[]] _. split; [discriminate | reflexivity].
Defined.

(** C7 fails on the code.  Whenever a poll of [check_deposit] finds a
    positive new amount the trade becomes [deposited]: the amount is not
    compared with the agreed [quantity]; and only [depositAmount] and
    [confirmedAmount] are raised, [accumulatedDepositAmount] is left as
    it was. *)
Theorem any_deposit_marks_deposited svc e :
  includes [awaiting_deposit; deposited] (status e) = true ->
  depositAddress e <> "" ->
  JS.gt (sum_values (newDeposits svc e)) 0 = true ->
  exists e1,
    db (run (check_deposit svc) (Some e)) = Some e1
    /\ status e1 = deposited
    /\ quantity e1 = quantity e
    /\ depositAmount e1 = depositAmount e + sum_values (newDeposits svc e)
    /\ confirmedAmount e1 = depositAmount e + sum_values (newDeposits svc e)
    /\ accumulatedDepositAmount e1 = accumulatedDepositAmount e.
Proof.
  intros Hst Haddr Hnew.
  destruct (check_deposit_counts svc e Hst Haddr Hnew)
    as (blocked & Hb & Hdb & _).
  cbv zeta in Hdb. eexists. split; [exact Hdb|].
  assert (Hf : forall l x,
             quantity (fold_left record_hash l x) = quantity x
             /\ accumulatedDepositAmount (fold_left record_hash l x)
                = accumulatedDepositAmount x).
  { induction l as [|tx l IH]; intros x; [now split|]. cbn.
    destruct (IH (record_hash x tx)) as [-> ->]. unfold record_hash.
    repeat match goal with
           | |- context [if ?c then _ else _] => destruct c
           end; now split. }
  cbn [status quantity depositAmount confirmedAmount accumulatedDepositAmount
       setter set_status set_confirmedAmount set_depositAmount].
  destruct (Hf (newDeposits svc e) blocked) as [-> ->].
  destruct Hb as [->|[n ->]]; now repeat split.
Qed.

Lemma any_deposit_marks_deposited_witness :
  let svc := sample_services [mkTransfer "0x5E11" "0xA017" "0xabc" 400] in
  status funding_trade = awaiting_deposit
  /\ quantity funding_trade = 1000
  /\ sum_values (newDeposits svc funding_trade) = 400
  /\ exists e1,
      db (run (check_deposit svc) (Some funding_trade)) = Some e1
      /\ status e1 = deposited
      /\ quantity e1 = quantity funding_trade
      /\ depositAmount e1
         = depositAmount funding_trade
           + sum_values (newDeposits svc funding_trade)
      /\ confirmedAmount e1
         = depositAmount funding_trade
           + sum_values (newDeposits svc funding_trade)
      /\ accumulatedDepositAmount e1
         = accumulatedDepositAmount funding_trade.
Proof.
  intros svc. repeat (split; [reflexivity|]).
  apply (any_deposit_marks_deposited svc funding_trade);
    [reflexivity | discriminate | reflexivity].
Defined.

(** ** Divergences of the code, evaluated *)

(** C6 fails on the code.  The partial release of 400 out of 1000 pays
    the net of 400, leaves 600 in the three decimal fields and in the
    integer mirror and keeps the trade [deposited], but the approvals
    are not reset: [buyerConfirmedRelease] and [sellerConfirmedRelease]
    are still set on the stored record; only [pendingReleaseAmount] is
    cleared. *)
Theorem partial_release_keeps_approvals :
  let e := sample_trade <| buyerConfirmedRelease := true |>
                        <| pendingReleaseAmount := Some 400 |> in
  let w := run (release_confirm_yes (sample_services []) seller_release_click)
               (Some e) in
  netPayout 400 0.5 0.3 = 397.7
  /\ transfers (trace w) = [release_call e 397.7 None]
  /\ exists e', db w = Some e'
       /\ accumulatedDepositAmount e' = 600
       /\ depositAmount e' = 600
       /\ confirmedAmount e' = 600
       /\ accumulatedDepositAmountWei e' = "600000000000000000000"
       /\ status e' = deposited
       /\ pendingReleaseAmount e' = None
       /\ buyerConfirmedRelease e' = true
       /\ sellerConfirmedRelease e' = true
       /\ canExecute e' = true.
Proof.
  vm_compute. split; [reflexivity|]. split; [reflexivity|].
  eexists. repeat split.
Qed.

(** The same partial release approved by an admin through
    [release_confirm_yes_] leaves [adminConfirmedRelease] set, the flag
    that [admin_release_confirm_yes_] resets after its settlement. *)
Lemma admin_approval_survives_partial_release :
  let e := sample_trade <| pendingReleaseAmount := Some 400 |> in
  let w := run (release_confirm_yes (sample_services []) admin_release_click)
               (Some e) in
  let a := run (admin_release_confirm_yes (sample_services [])
                  admin_release_click) (Some e) in
  (exists e', db w = Some e' /\ accumulatedDepositAmount e' = 600
              /\ adminConfirmedRelease e' = true)
  /\ (exists e', db a = Some e' /\ accumulatedDepositAmount e' = 600
                 /\ adminConfirmedRelease e' = false).
Proof. vm_compute. split; eexists; repeat split. Qed.

(** C3 fails on the code.  On the trade of the round trip (1000, fee
    rate 0.5, network fee 0.3, nothing pending) the canonical net is
    994.7, but [admin_release_confirm_yes_] takes the grossed-up
    999.698.. as release amount and calls the transfer collaborator
    twice: with 994.4 (the net of the grossed-up amount, so the network
    fee is taken twice) and then with 999.398.. (the grossed-up amount
    less the network fee only).  The trade is left [deposited] with a
    remainder of 0.3015... *)
Theorem admin_release_not_canonical :
  let w := run (admin_release_confirm_yes (sample_services [])
                  admin_release_click) (Some sample_trade) in
  netPayout 1000 0.5 0.3 = 994.7
  /\ grossed_up sample_trade = 999.69849246231161
  /\ map call_amount (transfers (trace w))
     = [994.40000000000009; 999.39849246231165]
  /\ exists e', db w = Some e'
       /\ status e' = deposited
       /\ accumulatedDepositAmount e' = 0.30150753768839422
       /\ accumulatedDepositAmountWei e' = "301507537688394223".
Proof.
  vm_compute. repeat (split; [reflexivity|]).
  eexists. repeat split.
Qed.

(** C2 fails on the code.  [refund_confirm_yes_] looks neither at the
    status nor at [refundTransactionHash].  After a partial refund of 400
    has recorded its hash, the same click repeated finds both refund
    flags still set and refunds the remaining 600: the transfer
    collaborator is called a second time. *)
Theorem repeated_refund_click_transfers_again :
  let e := sample_trade <| buyerConfirmedRefund := true |>
                        <| pendingRefundAmount := Some 400 |> in
  let first := run (refund_confirm_yes (sample_services [])
                      seller_refund_click) (Some e) in
  let second := run (refund_confirm_yes (sample_services [])
                       seller_refund_click) (db first) in
  map call_amount (transfers (trace first)) = [399.7]
  /\ (exists e1, db first = Some e1
                 /\ refundTransactionHash e1 = "0xrefund"
                 /\ accumulatedDepositAmount e1 = 600
                 /\ bothConfirmedRefund e1 = true)
  /\ map call_amount (transfers (trace second)) = [599.7]
  /\ exists e2, db second = Some e2 /\ status e2 = refunded.
Proof.
  vm_compute. split; [reflexivity|]. split; [eexists; repeat split|].
  split; [reflexivity|]. eexists. repeat split.
Qed.

(** On [admin_release_confirm_yes_] the first transfer call precedes the
    balance checks: asked to release 1200 against a balance of 1000, the
    handler calls the transfer collaborator with the net of 1200 and
    only then answers that the amount exceeds the balance. *)
Lemma admin_release_transfers_before_validation :
  let e := sample_trade <| pendingReleaseAmount := Some 1200 |> in
  let w := run (admin_release_confirm_yes (sample_services [])
                  admin_release_click) (Some e) in
  trace w = [Answer ProcessingAdminRelease;
             CallRelease (release_call e 1193.7 None);
             Answer (ExceedsBalance 1000)].
Proof. vm_compute. reflexivity. Qed.

(** * Properties of the rest of the bot *)

Lemma prefix_app p s : String.prefix p (p ++ s) = true.
Proof.
  induction p as [|c p IH]; simpl; [now destruct s|].
  now destruct (ascii_dec c c).
Qed.

Lemma prefix_nil s : String.prefix "" s = true.
Proof. now destruct s. Qed.

Lemma substring_from_app p s :
  JSString.substring_from (String.length p) (p ++ s) = s.
Proof. induction p; simpl; auto. Qed.

Lemma remove_first_prefix p s : JSString.remove_first (p ++ s) p = s.
Proof.
  destruct p as [|c p].
  - simpl. destruct s; reflexivity.
  - cbn [append JSString.remove_first].
    change (String c p ++ s)%string with (String c (p ++ s)).
    cbn [String.prefix]. destruct (ascii_dec c c); [|congruence].
    rewrite prefix_app.
    cbn [String.length JSString.substring_from]. apply substring_from_app.
Qed.

(** X1. The second [release_confirm_no_] branch (line 2990) and the second
    [refund_confirm_no_] and [refund_confirm_yes_] branches (lines 3433
    and 3472) are never selected, whatever the callback data: an earlier
    branch with the same test takes every click they could take. *)
Theorem dead_branches data :
  dispatch data <> Some release_confirm_no_2990
  /\ dispatch data <> Some refund_confirm_no_3433
  /\ dispatch data <> Some refund_confirm_yes_3472.
Proof.
  unfold dispatch.
  repeat match goal with
  | |- context [if ?c then _ else _] =>
      lazymatch c with
      | context [if _ then _ else _] => fail
      | _ => destruct c eqn:?
      end
  end; repeat split; congruence.
Qed.

(** ** Routing of the buttons *)

Lemma no_underscore_cons c s :
  JSString.includes (String c s) "_" = false ->
  c <> "_"%char /\ JSString.includes s "_" = false.
Proof.
  cbn [JSString.includes String.prefix]. intros H.
  apply orb_false_iff in H. destruct H as [H1 H2]. split; [|exact H2].
  intros ->. destruct (ascii_dec "_" "_"); [|congruence].
  now destruct s.
Qed.

Lemma no_underscore_prefix p s :
  JSString.includes s "_" = false ->
  JSString.includes p "_" = true ->
  String.prefix p s = false.
Proof.
  revert s. induction p as [|c p IH]; intros s Hs Hp; [discriminate|].
  destruct s as [|d s]; [reflexivity|].
  apply no_underscore_cons in Hs. destruct Hs as [Hd Hs].
  cbn [String.prefix]. destruct (ascii_dec c d) as [->|]; [|reflexivity].
  cbn [JSString.includes String.prefix] in Hp.
  destruct (ascii_dec "_" d) as [<-|]; [congruence|].
  now apply IH.
Qed.

Lemma no_underscore_includes sub s :
  JSString.includes s "_" = false ->
  JSString.includes sub "_" = true ->
  JSString.includes s sub = false.
Proof.
  intros Hs Hsub. induction s as [|c s IH].
  - cbn [JSString.includes]. now rewrite (no_underscore_prefix sub "" Hs Hsub).
  - cbn [JSString.includes]. rewrite (no_underscore_prefix _ _ Hs Hsub).
    apply no_underscore_cons in Hs. destruct Hs as [_ Hs].
    now rewrite (IH Hs).
Qed.

Lemma split_no_underscore s :
  JSString.includes s "_" = false -> JSString.split "_" s = [s].
Proof.
  induction s as [|c s IH]; intros H; [reflexivity|].
  apply no_underscore_cons in H. destruct H as [Hc Hs].
  cbn [JSString.split]. destruct (Ascii.eqb_spec c "_"); [contradiction|].
  now rewrite (IH Hs).
Qed.

Lemma digits_no_underscore d :
  JSString.includes (NilEmpty.string_of_uint d) "_" = false.
Proof.
  induction d; cbn [NilEmpty.string_of_uint JSString.includes String.prefix];
    try reflexivity;
    match goal with
    | |- context [ascii_dec ?a ?b] => destruct (ascii_dec a b); [discriminate|]
    end; exact IHd.
Qed.

Lemma newEscrowId_no_underscore seq :
  JSString.includes (newEscrowId seq) "_" = false.
Proof.
  unfold newEscrowId.
  assert (H : JSString.includes
                (NilZero.string_of_uint (N.to_uint seq)) "_" = false).
  { unfold NilZero.string_of_uint.
    destruct (N.to_uint seq) eqn:E; try (rewrite <- E); try reflexivity;
      rewrite ?E; apply digits_no_underscore. }
  revert H. generalize (NilZero.string_of_uint (N.to_uint seq)). intros s H.
  cbn. exact H.
Qed.

Lemma prefix_alt p s : String.prefix p s = prefix_lit p s.
Proof.
  revert p. induction s as [|b s IH]; intros [|a p]; try reflexivity.
  cbn [String.prefix prefix_lit].
  destruct (ascii_dec a b) as [->|Hne].
  - now rewrite Ascii.eqb_refl.
  - destruct (Ascii.eqb_spec a b); [contradiction|reflexivity].
Qed.

Lemma prefix_cons_ne a b p s :
  a <> b -> String.prefix (String a p) (String b s) = false.
Proof. intros H. cbn [String.prefix]. now destruct (ascii_dec a b). Qed.

Lemma prefix_cons_eq a p s :
  String.prefix (String a p) (String a s) = String.prefix p s.
Proof. cbn [String.prefix]. now destruct (ascii_dec a a). Qed.

Lemma includes_app_r a s sub :
  JSString.includes s sub = true -> JSString.includes (a ++ s) sub = true.
Proof.
  intros H. induction a as [|c a IH]; [exact H|].
  cbn [append JSString.includes]. rewrite IH. apply orb_true_r.
Qed.

Lemma includes_prefix sub s : JSString.includes (sub ++ s) sub = true.
Proof.
  destruct sub as [|c sub]; cbn [append].
  - destruct s; reflexivity.
  - cbn [JSString.includes].
    change (String c (sub ++ s)) with (String c sub ++ s)%string.
    now rewrite prefix_app.
Qed.

Lemma dispatch_lit data :
  dispatch data =
  ltac:(let t := eval cbv beta zeta delta [dispatch JSString.startsWith]
                 in (dispatch data) in
        match eval pattern String.prefix in t with
        | ?g _ => let r := eval cbv beta in (g prefix_lit) in exact r
        end).
Proof.
  unfold dispatch, JSString.startsWith. cbv zeta.
  rewrite !prefix_alt. reflexivity.
Qed.

Ltac route := rewrite dispatch_lit; vm_compute; reflexivity.

Lemma routes_back_buttons id :
  JSString.includes id "_" = false -> Forall (routes_back id) buttons.
Proof.
  intros H.
  assert (Hyes : JSString.includes id "_yes_" = false)
    by now apply no_underscore_includes.
  assert (Hy : String.prefix "yes_" id = false)
    by now apply no_underscore_prefix.
  assert (Hc : String.prefix "confirm_" id = false)
    by now apply no_underscore_prefix.
  rewrite prefix_alt in Hc.
  unfold buttons.
  repeat (apply Forall_cons; [|]); try apply Forall_nil;
    unfold routes_back; cbn [fst snd]; (split; [|]).
  all: try match goal with
           | |- dispatch _ = _ => rewrite dispatch_lit; vm_compute
           end.
  all: try reflexivity.
  all: try (cbn [escrowId_read]; unfold id_after;
            apply remove_first_prefix).
  - (* fiat_received_seller_yes_ *)
    cbn [escrowId_read]. unfold id_after_yes_no.
    change ("fiat_received_seller_yes_" ++ id)%string
      with ("fiat_received_seller" ++ ("_yes_" ++ id))%string at 1.
    rewrite (includes_app_r "fiat_received_seller" ("_yes_" ++ id) "_yes_")
      by apply includes_prefix.
    apply remove_first_prefix.
  - (* fiat_received_seller_no_ *)
    cbn [escrowId_read]. unfold id_after_yes_no.
    replace (JSString.includes ("fiat_received_seller_no_" ++ id) "_yes_")
      with false; [apply remove_first_prefix|].
    cbn [append JSString.includes].
    repeat first [ rewrite prefix_cons_ne by discriminate
                 | rewrite prefix_cons_eq ].
    now rewrite Hy, Hyes.
  - (* close_trade_ *)
    cbn [escrowId_read]. unfold close_trade_id.
    cbn [append JSString.split Ascii.eqb Bool.eqb].
    now rewrite (split_no_underscore id H).
  - (* buyer_received_tokens_yes_ *)
    cbn [escrowId_read]. unfold id_after_yes_no.
    change ("buyer_received_tokens_yes_" ++ id)%string
      with ("buyer_received_tokens" ++ ("_yes_" ++ id))%string at 1.
    rewrite (includes_app_r "buyer_received_tokens" ("_yes_" ++ id) "_yes_")
      by apply includes_prefix.
    apply remove_first_prefix.
  - (* buyer_received_tokens_no_ *)
    cbn [escrowId_read]. unfold id_after_yes_no.
    replace (JSString.includes ("buyer_received_tokens_no_" ++ id) "_yes_")
      with false; [apply remove_first_prefix|].
    cbn [append JSString.includes].
    repeat first [ rewrite prefix_cons_ne by discriminate
                 | rewrite prefix_cons_eq ].
    now rewrite Hy, Hyes.
  - (* tron_verify_received_ *)
    vm_compute in Hc. now rewrite Hc.
  - (* tron_verify_not_received_ *)
    vm_compute in Hc. now rewrite Hc.
Qed.

(** X2. Every button the handlers build for an escrow made by [/deal]
    (its sequence number being below [1e21]) comes back to the branch it is meant for, and that branch reads the
    identifier of the escrow off the callback data: by [replace], by the
    [_yes_] test followed by [replace], or by [split("_")[2]]. *)
Theorem deal_buttons_route_back seq :
  (seq < 10 ^ 21)%N ->
  Forall (routes_back (newEscrowId seq)) buttons.
Proof. intros _. apply routes_back_buttons, newEscrowId_no_underscore. Qed.

Lemma deal_buttons_route_back_witness :
  Forall (routes_back (newEscrowId 1001)) buttons.
Proof. apply (deal_buttons_route_back 1001). reflexivity. Defined.

Lemma split_first a b :
  JSString.includes a "_" = false ->
  JSString.split "_" (a ++ String "_" b) = a :: JSString.split "_" b.
Proof.
  induction a as [|c a IH]; intros H; [reflexivity|].
  apply no_underscore_cons in H. destruct H as [Hc Ha].
  cbn [append JSString.split]. destruct (Ascii.eqb_spec c "_"); [contradiction|].
  now rewrite (IH Ha).
Qed.

(** X3. [close_trade_] reads its identifier with [split("_")[2]]: of an
    identifier that contains an underscore it keeps only what precedes
    the first one, where [replace] in the other branches keeps all. *)
Theorem close_trade_cuts_at_underscore a b :
  JSString.includes a "_" = false ->
  escrowId_read close_trade ("close_trade_" ++ a ++ "_" ++ b) = Some a
  /\ escrowId_read fiat_release_confirm_branch
       ("fiat_release_confirm_" ++ a ++ "_" ++ b) = Some (a ++ "_" ++ b)%string.
Proof.
  intros H. split.
  - cbn [escrowId_read]. unfold close_trade_id.
    cbn [append JSString.split Ascii.eqb Bool.eqb].
    change (a ++ String "_" b)%string with (a ++ String "_" b)%string.
    now rewrite (split_first a b H).
  - cbn [escrowId_read]. unfold id_after. f_equal. apply remove_first_prefix.
Qed.

Lemma close_trade_cuts_at_underscore_witness :
  escrowId_read close_trade "close_trade_P2P_7" = Some "P2P".
Proof.
  exact (proj1 (close_trade_cuts_at_underscore "P2P" "7" eq_refl)).
Defined.

(** ** Fees and tiers *)

Lemma upper_lower_ascii c :
  FeeConfig.upper_ascii (JS.lower_ascii c) = FeeConfig.upper_ascii c.
Proof.
  destruct c as [[] [] [] [] [] [] [] []]; vm_compute; reflexivity.
Qed.

Lemma toUpperCase_toLowerCase s :
  FeeConfig.toUpperCase (JS.toLowerCase s) = FeeConfig.toUpperCase s.
Proof.
  induction s as [|c s IH]; [reflexivity|].
  cbn [JS.toLowerCase FeeConfig.toUpperCase].
  now rewrite upper_lower_ascii, IH.
Qed.



(** X4. [getNetworkFee] reads the chain name without regard to letter
    case, charges every chain it does not know the BSC fee, and on every
    chain charges a deal with a bio tag less than a deal without. *)
Theorem network_fee_by_chain chain hasBioTag :
  FeeConfig.getNetworkFee (JS.toLowerCase chain) hasBioTag
    = FeeConfig.getNetworkFee chain hasBioTag
  /\ (FeeConfig.getNetworkFee chain hasBioTag
        = FeeConfig.getNetworkFee "TRON" hasBioTag
      \/ FeeConfig.getNetworkFee chain hasBioTag
        = FeeConfig.getNetworkFee "BSC" hasBioTag)
  /\ (FeeConfig.getNetworkFee chain hasBioTag
        = FeeConfig.getNetworkFee "TRON" hasBioTag
      <-> (FeeConfig.toUpperCase chain = "TRON"
           \/ FeeConfig.toUpperCase chain = "TRX")%string)
  /\ (FeeConfig.getNetworkFee chain true
        <? FeeConfig.getNetworkFee chain false) = true.
Proof.
  unfold FeeConfig.getNetworkFee. cbv zeta.
  rewrite toUpperCase_toLowerCase.
  change (FeeConfig.toUpperCase "TRON") with "TRON".
  change (FeeConfig.toUpperCase "BSC") with "BSC".
  destruct (String.eqb_spec (FeeConfig.toUpperCase chain) "BSC") as [E1|N1];
  destruct (String.eqb_spec (FeeConfig.toUpperCase chain) "BNB") as [E2|N2];
  destruct (String.eqb_spec (FeeConfig.toUpperCase chain) "TRON") as [E3|N3];
  destruct (String.eqb_spec (FeeConfig.toUpperCase chain) "TRX") as [E4|N4];
  try congruence; cbn [orb];
  (split; [reflexivity|]); (split; [tauto|]);
  (split; [| now destruct hasBioTag]).
  all: try (split; [intros _; tauto | reflexivity]).
  all: split; [destruct hasBioTag; vm_compute; intros [=]
              | intros [H|H]; congruence].
Qed.

Lemma prefix_spec p s :
  String.prefix p s = true <-> exists post, s = (p ++ post)%string.
Proof.
  revert s. induction p as [|a p IH]; intros s.
  - rewrite prefix_nil. split; [intros _; now exists s | reflexivity].
  - destruct s as [|b s].
    + split; [discriminate | intros [post [=]]].
    + cbn [String.prefix append]. destruct (ascii_dec a b) as [->|Hne].
      * rewrite IH. split; intros [post H]; exists post; congruence.
      * split; [discriminate | intros [post [= E _]]; congruence].
Qed.

Lemma includes_spec s sub :
  JSString.includes s sub = true
  <-> exists pre post, s = (pre ++ sub ++ post)%string.
Proof.
  induction s as [|c s IH].
  - cbn [JSString.includes]. rewrite orb_false_r, prefix_spec. split.
    + intros [post H]. now exists "", post.
    + intros [pre [post H]]. destruct pre; [now exists post|discriminate].
  - cbn [JSString.includes]. rewrite orb_true_iff, prefix_spec, IH. split.
    + intros [[post H]|[pre [post H]]].
      * now exists "", post.
      * exists (String c pre), post. cbn [append]. now rewrite H.
    + intros [pre [post H]]. destruct pre as [|d pre].
      * left. now exists post.
      * right. exists pre, post. cbn [append] in H. congruence.
Qed.

Lemma toLowerCase_app a b :
  JS.toLowerCase (a ++ b) = (JS.toLowerCase a ++ JS.toLowerCase b)%string.
Proof.
  induction a as [|c a IH]; [reflexivity|].
  cbn [append JS.toLowerCase]. now rewrite IH.
Qed.

Lemma toLowerCase_split s a b :
  JS.toLowerCase s = (a ++ b)%string ->
  exists a' b', s = (a' ++ b')%string
                /\ JS.toLowerCase a' = a /\ JS.toLowerCase b' = b.
Proof.
  revert s. induction a as [|c a IH]; intros s H.
  - now exists "", s.
  - destruct s as [|d s]; [discriminate|].
    cbn [JS.toLowerCase append] in H. injection H as Hc Hs.
    destruct (IH _ Hs) as (a' & b' & -> & Ha & Hb).
    exists (String d a'), b'. cbn [append JS.toLowerCase]. now subst.
Qed.

(** X5. [checkUserBio] finds the tag exactly when the bio has, somewhere,
    the letters of [@room] in any mixture of cases; a user without a bio
    and a user whose lookup fails have no tag. *)
Theorem bio_tag_any_case getChat userId :
  (forall bio,
      getChat userId = BioCheckService.Chat (Some bio) ->
      (BioCheckService.checkUserBio getChat userId = true
       <-> exists pre tag post,
             bio = (pre ++ tag ++ post)%string
             /\ JS.toLowerCase tag = "@room"))
  /\ (getChat userId = BioCheckService.Chat None ->
      BioCheckService.checkUserBio getChat userId = false)
  /\ (forall response,
        getChat userId = BioCheckService.ChatThrows response ->
        BioCheckService.checkUserBio getChat userId = false).
Proof.
  unfold BioCheckService.checkUserBio. repeat split.
  - rewrite H. unfold BioCheckService.hasRoom. rewrite includes_spec.
    intros (pre & post & E).
    apply toLowerCase_split in E. destruct E as (pre' & r & -> & _ & E).
    apply toLowerCase_split in E. destruct E as (tag & post' & -> & E & _).
    now exists pre', tag, post'.
  - rewrite H. unfold BioCheckService.hasRoom. rewrite includes_spec.
    intros (pre & tag & post & -> & E).
    exists (JS.toLowerCase pre), (JS.toLowerCase post).
    now rewrite !toLowerCase_app, E.
  - intros ->. reflexivity.
  - intros response ->. reflexivity.
Qed.

Lemma bio_tag_any_case_witness :
  BioCheckService.checkUserBio
    (fun _ => BioCheckService.Chat (Some "Trader, join @RooM today")) 7 = true.
Proof.
  apply (proj1 (bio_tag_any_case
                  (fun _ => BioCheckService.Chat
                              (Some "Trader, join @RooM today")) 7)
               "Trader, join @RooM today" eq_refl).
  now exists "Trader, join ", "@RooM", " today".
Defined.

(** X6. The tier [determineTier] returns, the tier the [/deal] command
    works out, the service fee of the fee table and the network fee
    written on the new escrow all follow the number of tagged parties:
    0.75 percent and 0.3 with no tag, 0.5 percent and 0.2 with one, 0.25
    percent and 0.2 with both, whichever of the two parties has it. *)
Theorem tier_and_fees_agree getChat buyerId sellerId :
  let b := BioCheckService.checkUserBio getChat buyerId in
  let s := BioCheckService.checkUserBio getChat sellerId in
  let t := BioCheckService.determineTier getChat buyerId sellerId in
  Deal.tier b s = t /\ Deal.tier s b = t
  /\ FeeConfig.getServiceFee s b = FeeConfig.getServiceFee b s
  /\ FeeConfig.getServiceFee s b
     = match t with
       | BioCheckService.no_tag => 0.75
       | BioCheckService.one_tag => 0.5
       | BioCheckService.both_tags => 0.25
       end
  /\ Deal.networkFee b s
     = match t with
       | BioCheckService.no_tag => 0.3
       | _ => 0.2
       end.
Proof.
  unfold BioCheckService.determineTier.
  destruct (BioCheckService.checkUserBio getChat buyerId),
           (BioCheckService.checkUserBio getChat sellerId);
    vm_compute; repeat split; reflexivity.
Qed.

(** X7. [checkBio] of the [/deal] command looks a user up at most three
    times: it reports the tag exactly when one of the first three
    lookups succeeds and shows the tag, every lookup before it having
    failed with an error other than the error 400 "chat not found".  So
    the first flag of the deal is set exactly then. *)
Theorem checkBio_retries getChat :
  (Deal.checkBio getChat = Some true
   <-> exists k bio,
         (1 <= k <= 3)%nat
         /\ getChat k = BioCheckService.Chat bio
         /\ BioCheckService.hasRoom bio = true
         /\ forall j, (1 <= j < k)%nat ->
              exists response,
                getChat j = BioCheckService.ChatThrows response
                /\ Deal.chat_not_found response = Some false)
  /\ forall counterparty counterpartyId,
       fst (Deal.bioTags getChat counterparty counterpartyId) = true
       <-> Deal.checkBio getChat = Some true.
Proof.
  split.
  2:{ intros counterparty counterpartyId. unfold Deal.bioTags.
      destruct (Deal.checkBio getChat) as [[|]|];
        destruct (JS.truthy_id counterpartyId);
        try destruct (Deal.checkBio counterparty);
        cbn [fst]; split; congruence. }
  unfold Deal.checkBio, Deal.maxRetries. cbn [Deal.checkBio_from]. split.
  - destruct (getChat 1%nat) as [r1|b1] eqn:E1.
    2:{ intros [= H]. exists 1%nat, b1. repeat split; auto; lia. }
    destruct (Deal.chat_not_found r1) as [[|]|] eqn:N1; try discriminate.
    destruct (getChat 2%nat) as [r2|b2] eqn:E2.
    2:{ intros [= H]. exists 2%nat, b2. repeat split; auto.
        intros j Hj. assert (j = 1%nat) as -> by lia. eauto. }
    destruct (Deal.chat_not_found r2) as [[|]|] eqn:N2; try discriminate.
    destruct (getChat 3%nat) as [r3|b3] eqn:E3.
    2:{ intros [= H]. exists 3%nat, b3. repeat split; auto.
        intros j Hj. assert (j = 1 \/ j = 2)%nat as [-> | ->] by lia; eauto. }
    destruct (Deal.chat_not_found r3) as [[|]|]; discriminate.
  - intros (k & bio & Hk & Ek & Hb & Hprev).
    assert (k = 1 \/ k = 2 \/ k = 3)%nat as [-> | [-> | ->]] by lia.
    + now rewrite Ek, Hb.
    + destruct (Hprev 1%nat) as (r & -> & ->); [lia|]. now rewrite Ek, Hb.
    + destruct (Hprev 1%nat) as (r & -> & ->); [lia|].
      destruct (Hprev 2%nat) as (r' & -> & ->); [lia|]. now rewrite Ek, Hb.
Qed.

(** ** The room fee scripts *)

Lemma literal_ci_app pat tag s :
  JS.toLowerCase tag = JS.toLowerCase pat ->
  SetRoomFees.literal_ci pat (tag ++ s) = Some s.
Proof.
  revert tag. induction pat as [|a pat IH]; intros [|b tag] H;
    try discriminate; [reflexivity|].
  cbn [JS.toLowerCase] in H. injection H as Hc Ht.
  cbn [append SetRoomFees.literal_ci].
  rewrite <- (upper_lower_ascii a), <- (upper_lower_ascii b), Hc.
  rewrite Ascii.eqb_refl. now apply IH.
Qed.

Lemma digits_of_uint d rest :
  match rest with
  | String c _ => SetRoomFees.is_digit c = false
  | EmptyString => True
  end ->
  SetRoomFees.digits (NilEmpty.string_of_uint d ++ rest)
  = NilEmpty.string_of_uint d.
Proof.
  intros Hrest. induction d;
    cbn [NilEmpty.string_of_uint append SetRoomFees.digits];
    try (change (SetRoomFees.is_digit _) with true; cbv iota; now rewrite IHd).
  destruct rest as [|c rest]; [reflexivity|].
  cbn [SetRoomFees.digits]. now rewrite Hrest.
Qed.

Lemma to_uint_nonnil k : N.to_uint k <> Decimal.Nil.
Proof.
  destruct k as [|p]; [discriminate|].
  apply DecimalPos.Unsigned.to_uint_nonnil.
Qed.

Lemma room_match_decimal tag k rest :
  JS.toLowerCase tag = "mm room " ->
  match rest with
  | String c _ => SetRoomFees.is_digit c = false
  | EmptyString => True
  end ->
  SetRoomFees.feeOfTitle
    (tag ++ NilZero.string_of_uint (N.to_uint k) ++ rest)
  = SetRoomFees.feeOfRoom k.
Proof.
  intros Htag Hrest. unfold SetRoomFees.feeOfTitle.
  assert (Hd : NilZero.string_of_uint (N.to_uint k)
               = NilEmpty.string_of_uint (N.to_uint k)).
  { pose proof (to_uint_nonnil k) as Hk. unfold NilZero.string_of_uint.
    destruct (N.to_uint k); [congruence|..]; reflexivity. }
  assert (Hne : NilEmpty.string_of_uint (N.to_uint k) <> "").
  { pose proof (to_uint_nonnil k) as Hk.
    destruct (N.to_uint k); [congruence|..]; discriminate. }
  assert (Hm : SetRoomFees.room_match
                 (tag ++ NilZero.string_of_uint (N.to_uint k) ++ rest)
               = Some (NilZero.string_of_uint (N.to_uint k))).
  { assert (Hat : SetRoomFees.room_at
                    (tag ++ NilZero.string_of_uint (N.to_uint k) ++ rest)
                  = Some (NilZero.string_of_uint (N.to_uint k))).
    { unfold SetRoomFees.room_at.
      rewrite (literal_ci_app "MM Room " tag) by exact Htag.
      rewrite Hd, digits_of_uint by exact Hrest.
      destruct (NilEmpty.string_of_uint (N.to_uint k)); congruence. }
    destruct (tag ++ NilZero.string_of_uint (N.to_uint k) ++ rest)%string;
      cbn [SetRoomFees.room_match]; now rewrite Hat. }
  rewrite Hm. unfold SetRoomFees.parseInt.
  rewrite NilZero.usu by apply to_uint_nonnil.
  cbn [option_map]. now rewrite DecimalN.Unsigned.of_to.
Qed.

(** X8. [setRoomFees] reads the room number after "MM Room ", in any
    letter case, and sets the fee by the number: 0 for the rooms 1 to
    10, 0.25 for 11 to 15, 0.5 for 16 to 20; room 0 and the rooms above
    20 are skipped. *)
Theorem room_fee_by_number tag k rest :
  JS.toLowerCase tag = "mm room " ->
  match rest with
  | String c _ => SetRoomFees.is_digit c = false
  | EmptyString => True
  end ->
  let title := (tag ++ NilZero.string_of_uint (N.to_uint k) ++ rest)%string in
  ((1 <= k <= 10)%N -> SetRoomFees.feeOfTitle title = Some 0)
  /\ ((11 <= k <= 15)%N -> SetRoomFees.feeOfTitle title = Some 0.25)
  /\ ((16 <= k <= 20)%N -> SetRoomFees.feeOfTitle title = Some 0.5)
  /\ ((k = 0 \/ 20 < k)%N -> SetRoomFees.feeOfTitle title = None).
Proof.
  intros Htag Hrest title. unfold title.
  rewrite (room_match_decimal tag k rest Htag Hrest).
  unfold SetRoomFees.feeOfRoom.
  repeat split; intros H;
    repeat match goal with
           | |- context [(?a <=? ?b)%N] => destruct (N.leb_spec a b); try lia
           end; reflexivity.
Qed.

Lemma room_fee_by_number_witness :
  SetRoomFees.feeOfTitle "mm ROOM 12 (vip)" = Some 0.25.
Proof.
  apply (room_fee_by_number "mm ROOM " 12 " (vip)" eq_refl eq_refl).
  unfold N.le, N.compare. cbn. split; discriminate.
Defined.

Lemma feeOfTitle_values title fee :
  SetRoomFees.feeOfTitle title = Some fee ->
  fee = 0 \/ fee = 0.25 \/ fee = 0.5.
Proof.
  unfold SetRoomFees.feeOfTitle.
  destruct (SetRoomFees.room_match _); [|discriminate].
  destruct (SetRoomFees.parseInt _); [|discriminate].
  unfold SetRoomFees.feeOfRoom.
  repeat match goal with
         | |- (if ?c then _ else _) = _ -> _ => destruct c
         end; intros [= <-]; auto.
Qed.

(** X9. The loop of [setRoomFees] changes nothing of a room but its fee,
    the fee it writes is 0, 0.25 or 0.5, and [updated] counts the rooms
    it wrote. *)
Theorem setRoomFees_frame groups :
  let (saved, updated) := SetRoomFees.setRoomFees groups in
  Forall2 (fun g g' =>
             (SetRoomFees.feeOfTitle (GroupPool.groupTitle g) = None
              /\ g' = g)
             \/ exists fee,
                  SetRoomFees.feeOfTitle (GroupPool.groupTitle g) = Some fee
                  /\ g' = GroupPool.with_feePercent fee g
                  /\ (fee = 0 \/ fee = 0.25 \/ fee = 0.5))
          groups saved
  /\ updated
     = List.length
         (filter (fun g => match SetRoomFees.feeOfTitle
                                   (GroupPool.groupTitle g) with
                           | Some _ => true
                           | None => false
                           end) groups).
Proof.
  induction groups as [|g groups IH]; [split; constructor|].
  cbn [SetRoomFees.setRoomFees filter].
  destruct (SetRoomFees.setRoomFees groups) as [saved updated].
  destruct IH as [IH1 IH2].
  destruct (SetRoomFees.feeOfTitle (GroupPool.groupTitle g)) as [fee|] eqn:E.
  - split; [constructor; [right|exact IH1] | cbn [List.length]; now f_equal].
    exists fee. split; [exact E|]. split; [reflexivity|].
    exact (feeOfTitle_values _ _ E).
  - split; [constructor; [left; auto | exact IH1] | exact IH2].
Qed.

Lemma eqb_finite_eq f g s m e :
  Prim2SF g = S754_finite s m e -> (f =? g) = true -> f = g.
Proof.
  intros Hg. rewrite FloatAxioms.eqb_spec, Hg. intros H. apply FloatAxioms.Prim2SF_inj. rewrite Hg.
  unfold SFeqb, SFcompare in H.
  destruct (Prim2SF f) as [s'|s'| |s' m' e']; try discriminate;
    destruct s', s; try discriminate;
    destruct (Z.compare_spec e' e); try discriminate; subst e';
    change (PosDef.Pos.compare_cont Eq m' m) with (Pos.compare m' m) in H;
    destruct (Pos.compare_spec m' m); try discriminate; now subst.
Qed.

Lemma newFee_spec old fee :
  MigrateFees.newFee old = Some fee ->
  exists f, old = Some f /\ (fee <? f) = true /\ (0 <=? fee) = true
            /\ (fee =? 0.75) = false
            /\ MigrateFees.changed old fee = true.
Proof.
  destruct old as [f|]; [|discriminate]. cbn [MigrateFees.newFee].
  destruct (f =? 0.25) eqn:E1.
  { intros [= <-]. exists f. apply (eqb_finite_eq f 0.25 _ _ _ eq_refl) in E1.
    subst f. repeat split; reflexivity. }
  destruct (f =? 0.5) eqn:E2.
  { intros [= <-]. exists f. apply (eqb_finite_eq f 0.5 _ _ _ eq_refl) in E2.
    subst f. repeat split; reflexivity. }
  destruct (f =? 0.75) eqn:E3; [|discriminate].
  intros [= <-]. exists f. apply (eqb_finite_eq f 0.75 _ _ _ eq_refl) in E3.
  subst f. repeat split; reflexivity.
Qed.

(** X10. The fee migration looks at every room once: each room is either
    updated or skipped, so the two counts add up to the number of rooms;
    an updated room keeps everything but its fee, which goes strictly
    down and stays at least 0; and no room is left at 0.75. *)
Theorem migrateFees_once groups :
  let '(saved, (updatedCount, skippedCount)) :=
    MigrateFees.migrateFees groups in
  (updatedCount + skippedCount)%nat = List.length groups
  /\ Forall2 (fun g g' =>
                g' = g
                \/ exists old fee,
                     GroupPool.feePercent g = Some old
                     /\ g' = GroupPool.with_feePercent fee g
                     /\ (fee <? old) = true /\ (0 <=? fee) = true)
             groups saved
  /\ Forall (fun g' => forall fee,
                 GroupPool.feePercent g' = Some fee -> (fee =? 0.75) = false)
            saved.
Proof.
  induction groups as [|g groups IH]; [repeat split; constructor|].
  cbn [MigrateFees.migrateFees].
  destruct (MigrateFees.migrateFees groups) as [saved [u s]].
  destruct IH as (IH1 & IH2 & IH3).
  destruct (MigrateFees.newFee (GroupPool.feePercent g)) as [fee|] eqn:E.
  - destruct (newFee_spec _ _ E) as (f & Hf & Hlt & Hge & H75 & Hch).
    rewrite Hch. repeat split.
    + cbn [List.length]. lia.
    + constructor; [right; now exists f, fee | exact IH2].
    + constructor; [|exact IH3]. intros fee' [= <-]. exact H75.
  - repeat split.
    + cbn [List.length]. lia.
    + constructor; [now left | exact IH2].
    + constructor; [|exact IH3]. intros fee Hfee. rewrite Hfee in E.
      cbn [MigrateFees.newFee] in E.
      destruct (fee =? 0.25), (fee =? 0.5), (fee =? 0.75); congruence.
Qed.

(** ** The deposit address *)

Lemma toUpperCase_empty s : FeeConfig.toUpperCase s = "" -> s = "".
Proof. destruct s; [reflexivity|discriminate]. Qed.


Lemma toUpperCase_truthy s :
  JS.truthy_str (FeeConfig.toUpperCase s) = JS.truthy_str s.
Proof. now destruct s. Qed.




(** X12. [assignDepositAddress] reads the token and the network without
    regard to letter case and treats the names of one network alike:
    two calls whose tokens differ only in case and whose networks
    normalise to the same name give the same result. *)
Theorem assignDepositAddress_by_normal_form
        db escrowId token token' network network' groupId :
  FeeConfig.toUpperCase token = FeeConfig.toUpperCase token' ->
  network <> "" -> network' <> "" ->
  AddressAssignmentService.normalizeChainToNetwork network
  = AddressAssignmentService.normalizeChainToNetwork network' ->
  AddressAssignmentService.assignDepositAddress
    db escrowId token network groupId
  = AddressAssignmentService.assignDepositAddress
      db escrowId token' network' groupId.
Proof.
  intros Ht Hn Hn' Hnorm.
  unfold AddressAssignmentService.assignDepositAddress.
  rewrite Ht, Hnorm.
  destruct network; [contradiction|]. destruct network'; [contradiction|].
  reflexivity.
Qed.

Lemma assignDepositAddress_by_normal_form_witness :
  AddressAssignmentService.assignDepositAddress
    sample_db "P2PMMX1" "usdt" "bnb" None
  = AddressAssignmentService.assignDepositAddress
      sample_db "P2PMMX1" "USDT" "BSC" None.
Proof.
  apply (assignDepositAddress_by_normal_form
           sample_db "P2PMMX1" "usdt" "USDT" "bnb" "BSC" None);
    [reflexivity | discriminate | discriminate | reflexivity].
Defined.






(** ** The vault contract *)

(** X14. Only the owner moves the vault: whatever transactions other
    senders send, in any number and order, the storage stays as it is
    and no token transfer and no event comes out; and once the owner
    has handed the vault to another address, the same holds of the
    former owner. *)
Theorem vault_only_owner v tokens this s :
  (forall txs,
      Forall (fun tx => fst tx <> EscrowVault.owner s) txs ->
      EscrowVault.run v tokens this txs s = (s, []))
  /\ (forall newOwner txs,
        newOwner <> EscrowVault.owner s ->
        Forall (fun tx => fst tx = EscrowVault.owner s) txs ->
        EscrowVault.run v tokens this
          ((EscrowVault.owner s, EscrowVault.setOwner newOwner) :: txs) s
        = (EscrowVault.mkState newOwner (EscrowVault.token s)
             (EscrowVault.feeWallet s), [])).
Proof.
  assert (H : forall s txs,
             Forall (fun tx => fst tx <> EscrowVault.owner s) txs ->
             EscrowVault.run v tokens this txs s = (s, [])).
  { clear s. intros s txs. induction 1 as [|[sender c] txs Hne _ IH];
      [reflexivity|].
    cbn [EscrowVault.run fst] in *. unfold EscrowVault.exec.
    destruct (Z.eqb_spec sender (EscrowVault.owner s)); [contradiction|].
    exact IH. }
  split; [apply H|].
  intros newOwner txs Hne Htxs.
  cbn [EscrowVault.run]. unfold EscrowVault.exec at 1.
  rewrite Z.eqb_refl. cbn [negb].
  rewrite H; [reflexivity|].
  cbn [EscrowVault.owner]. eapply Forall_impl; [|exact Htxs].
  intros tx ->. congruence.
Qed.

Lemma vault_only_owner_witness :
  EscrowVault.run EscrowVault.SafeTransfer
    (EscrowVault.mkTokens
       (fun _ _ _ _ => EscrowVault.Returned (EscrowVault.BoolWord true))
       (fun _ _ => Some 5%Z))
    100%Z
    [(7%Z, EscrowVault.release 7%Z 5%Z);
     (8%Z, EscrowVault.setOwner 8%Z);
     (7%Z, EscrowVault.withdrawToken 50%Z 7%Z)]
    (EscrowVault.constructor 1%Z 50%Z 2%Z)
  = (EscrowVault.constructor 1%Z 50%Z 2%Z, []).
Proof.
  apply (proj1 (vault_only_owner _ _ _ _)).
  repeat constructor; discriminate.
Defined.



(** X16. [withdrawToken] sends away the whole balance or nothing: when it
    succeeds, the receiver is not the zero address, the balance of the
    vault in that token was positive, the one effect is the transfer of
    exactly that balance to the receiver, and the storage is as before.
    A zero receiver is refused before the balance is read. *)
Theorem vault_withdraw_sweeps v tokens this s erc20Token to :
  (forall s' effects,
      EscrowVault.exec v tokens this (EscrowVault.owner s)
        (EscrowVault.withdrawToken erc20Token to) s
      = EscrowVault.Success s' effects ->
      s' = s /\ to <> 0%Z
      /\ exists bal,
           (0 < bal)%Z
           /\ EscrowVault.balanceOf tokens erc20Token this = Some bal
           /\ effects = [EscrowVault.TokenTransfer erc20Token to bal])
  /\ (to = 0%Z ->
      EscrowVault.exec v tokens this (EscrowVault.owner s)
        (EscrowVault.withdrawToken erc20Token to) s
      = EscrowVault.Revert (Some "zero-to"))
  /\ (to <> 0%Z ->
      EscrowVault.balanceOf tokens erc20Token this = Some 0%Z ->
      EscrowVault.exec v tokens this (EscrowVault.owner s)
        (EscrowVault.withdrawToken erc20Token to) s
      = EscrowVault.Revert (Some "no-balance")).
Proof.
  unfold EscrowVault.exec. rewrite Z.eqb_refl. cbn [negb].
  split; [|split].
  - intros s' effects.
    destruct (Z.eqb_spec to 0); [discriminate|].
    destruct (EscrowVault.balanceOf tokens erc20Token this) as [bal|];
      [|discriminate].
    destruct (Z.gtb_spec bal 0); cbn [negb]; [|discriminate].
    destruct (EscrowVault.callTransfer v tokens this erc20Token to bal);
      [|discriminate].
    intros [= <- <-]. repeat split; [assumption|]. now exists bal.
  - intros ->. reflexivity.
  - intros Hto ->. destruct (Z.eqb_spec to 0); [contradiction|]. reflexivity.
Qed.

Lemma vault_withdraw_sweeps_witness :
  EscrowVault.exec EscrowVault.Interface
    (EscrowVault.mkTokens
       (fun _ _ _ _ => EscrowVault.Returned (EscrowVault.BoolWord true))
       (fun _ _ => Some 0%Z))
    100%Z 1%Z (EscrowVault.withdrawToken 50%Z 7%Z)
    (EscrowVault.constructor 1%Z 50%Z 2%Z)
  = EscrowVault.Revert (Some "no-balance").
Proof.
  apply (proj2 (proj2 (vault_withdraw_sweeps EscrowVault.Interface
    (EscrowVault.mkTokens
       (fun _ _ _ _ => EscrowVault.Returned (EscrowVault.BoolWord true))
       (fun _ _ => Some 0%Z))
    100%Z (EscrowVault.constructor 1%Z 50%Z 2%Z) 50%Z 7%Z)));
    [discriminate | reflexivity].
Defined.

(** ** Declines *)

Lemma same_id_both a b u :
  same_id a u = true -> same_id b u = true -> a = b.
Proof.
  destruct a as [x|], b as [y|]; cbn [same_id]; try discriminate.
  intros Hx Hy. apply Z.eqb_eq in Hx, Hy. congruence.
Qed.

Lemma no_refund_without_quorum svc ctx e :
  middlewareAdmin ctx = false ->
  buyerId e <> sellerId e ->
  buyerConfirmedRefund e = false -> sellerConfirmedRefund e = false ->
  transfers (trace (run (refund_confirm_yes svc ctx) (Some e))) = [].
Proof.
  intros Hadm Hne Hb Hs.
  destruct (transfers _) eqn:E; [reflexivity|exfalso].
  destruct (refund_needs_quorum svc ctx (Some e)) as (e0 & [= <-] & _ & Hq);
    [rewrite E; discriminate|].
  rewrite record_refund_click_eq in Hq. cbv zeta in Hq.
  unfold bothConfirmedRefund in Hq. cbn in Hq.
  rewrite Hadm, Hb, Hs in Hq. cbn [andb orb] in Hq.
  rewrite !orb_false_r in Hq. apply andb_prop in Hq as [H1 H2].
  exact (Hne (same_id_both _ _ _ H1 H2)).
Qed.

Lemma no_release_without_quorum svc ctx e :
  configAdmin ctx = false ->
  buyerId e <> sellerId e ->
  buyerConfirmedRelease e = false -> sellerConfirmedRelease e = false ->
  adminConfirmedRelease e = false ->
  transfers (trace (run (release_confirm_yes svc ctx) (Some e))) = [].
Proof.
  intros Hadm Hne Hb Hs Ha.
  destruct (transfers _) eqn:E; [reflexivity|exfalso].
  destruct (release_needs_quorum svc ctx (Some e)) as (e0 & [= <-] & _ & Hq);
    [rewrite E; discriminate|].
  rewrite record_release_click_eq in Hq.
  unfold canExecute in Hq. cbn in Hq.
  rewrite Hadm, Hb, Hs, Ha in Hq. cbn [andb orb] in Hq.
  rewrite !orb_false_r in Hq. apply andb_prop in Hq as [H1 H2].
  exact (Hne (same_id_both _ _ _ H1 H2)).
Qed.

(** X17. [refund_confirm_no_] by the buyer, the seller or an admin takes
    both refund approvals and the pending amount off the trade and
    leaves the rest of it alone; after it, the click of one party alone
    on the refund prompt makes no transfer. *)
Theorem refund_decline_needs_new_quorum svc ctx ctx' e :
  same_id (buyerId e) (userId ctx) || same_id (sellerId e) (userId ctx)
  || middlewareAdmin ctx = true ->
  middlewareAdmin ctx' = false ->
  buyerId e <> sellerId e ->
  let declined := fst (refund_confirm_no ctx (Some e)) in
  declined = Some (e <| buyerConfirmedRefund := false |>
                     <| sellerConfirmedRefund := false |>
                     <| pendingRefundAmount := None |>)
  /\ transfers (trace (run (refund_confirm_yes svc ctx') declined)) = [].
Proof.
  intros Hcan Hadm Hne. cbv zeta. unfold refund_confirm_no.
  rewrite Hcan. cbn [negb fst]. split; [reflexivity|].
  now apply no_refund_without_quorum.
Qed.

Lemma refund_decline_needs_new_quorum_witness :
  transfers
    (trace (run (refund_confirm_yes (sample_services []) seller_refund_click)
              (fst (refund_confirm_no buyer_refund_click
                      (Some (sample_trade
                               <| buyerConfirmedRefund := true |>
                               <| sellerConfirmedRefund := true |>))))))
  = [].
Proof.
  apply (refund_decline_needs_new_quorum (sample_services [])
           buyer_refund_click seller_refund_click
           (sample_trade <| buyerConfirmedRefund := true |>
                         <| sellerConfirmedRefund := true |>));
    [reflexivity | reflexivity | discriminate].
Defined.

(** X18. [release_confirm_no_] takes back the approvals of the buyer and
    the seller, and nothing else: the approval of an admin and the
    pending amount stay on the trade.  So after a decline the click of
    one party alone makes no transfer when no admin approval is on the
    trade, while an admin approval still on the trade keeps the release
    executable. *)
Theorem release_decline_keeps_admin_approval svc ctx names ctx' e :
  let declined := fst (release_confirm_no ctx names (Some e)) in
  (exists e', declined = Some e'
              /\ adminConfirmedRelease e' = adminConfirmedRelease e
              /\ pendingReleaseAmount e' = pendingReleaseAmount e
              /\ (adminConfirmedRelease e = true -> canExecute e' = true))
  /\ (snd (release_confirm_no ctx names (Some e))
      = [Answered "Release cancelled.";
         Messaged "Release cancelled by user."] ->
      declined = Some (e <| buyerConfirmedRelease := false |>
                         <| sellerConfirmedRelease := false |>)
      /\ (adminConfirmedRelease e = false ->
          configAdmin ctx' = false ->
          buyerId e <> sellerId e ->
          transfers (trace (run (release_confirm_yes svc ctx') declined))
          = [])).
Proof.
  cbv zeta. unfold release_confirm_no.
  destruct (includes settlement_statuses (status e)).
  2:{ split; [exists e; repeat split; auto; unfold canExecute;
              now intros -> | discriminate]. }
  destruct (expired _ _).
  { split; [exists e; repeat split; auto; unfold canExecute;
            now intros -> | discriminate]. }
  cbv zeta.
  match goal with |- context [if ?c then _ else _] => destruct c end.
  { split; [exists e; repeat split; auto; unfold canExecute;
            now intros -> | discriminate]. }
  cbn [fst snd]. split.
  - eexists. split; [reflexivity|]. repeat split.
    unfold canExecute. cbn. now intros ->.
  - intros _. split; [reflexivity|]. intros Ha Hadm Hne.
    now apply no_release_without_quorum.
Qed.

(** X19. [admin_release_confirm_no_] by an admin takes the admin approval
    and the pending amount off the trade and leaves the approvals of
    the parties: a release both parties have approved stays executable,
    and otherwise the click of one party alone makes no transfer. *)
Theorem admin_decline_keeps_party_approvals svc ctx ctx' e :
  includes settlement_statuses (status e) = true ->
  expired (releaseConfirmationMessageId e) (callbackMessageId ctx) = false ->
  configAdmin ctx = true ->
  let declined := fst (admin_release_confirm_no ctx (Some e)) in
  declined = Some (e <| adminConfirmedRelease := false |>
                     <| pendingReleaseAmount := None |>)
  /\ (forall e', declined = Some e' ->
        canExecute e'
        = buyerConfirmedRelease e && sellerConfirmedRelease e)
  /\ (buyerConfirmedRelease e = false ->
      sellerConfirmedRelease e = false ->
      configAdmin ctx' = false ->
      buyerId e <> sellerId e ->
      transfers (trace (run (release_confirm_yes svc ctx') declined)) = []).
Proof.
  intros Hst Hexp Hadm. cbv zeta. unfold admin_release_confirm_no.
  rewrite Hst, Hexp, Hadm. cbn [negb fst]. split; [reflexivity|]. split.
  - intros e' [= <-]. reflexivity.
  - intros Hb Hs Hadm' Hne. now apply no_release_without_quorum.
Qed.

Lemma admin_decline_keeps_party_approvals_witness :
  fst (admin_release_confirm_no admin_release_click
         (Some (sample_trade <| adminConfirmedRelease := true |>)))
  = Some (sample_trade <| adminConfirmedRelease := true |>
                       <| adminConfirmedRelease := false |>
                       <| pendingReleaseAmount := None |>).
Proof.
  apply (admin_decline_keeps_party_approvals (sample_services [])
           admin_release_click buyer_release_click
           (sample_trade <| adminConfirmedRelease := true |>));
    reflexivity.
Defined.

(** X20. [reject_] asks nothing of who clicks.  Unless the action in the
    callback data is [refund], it takes the four approvals of the
    parties off a trade in a settlement state, whoever clicked, and
    leaves an admin approval; after it, with no admin approval on the
    trade, the click of one party alone makes no transfer in either
    direction. *)
Theorem reject_resets_party_approvals svc ctx' callbackData e :
  action_of callbackData <> Some "refund" ->
  includes settlement_statuses (status e) = true ->
  let rejected := fst (reject callbackData (Some e)) in
  rejected = Some (e <| buyerConfirmedRelease := false |>
                     <| sellerConfirmedRelease := false |>
                     <| buyerConfirmedRefund := false |>
                     <| sellerConfirmedRefund := false |>)
  /\ (adminConfirmedRelease e = false ->
      configAdmin ctx' = false -> middlewareAdmin ctx' = false ->
      buyerId e <> sellerId e ->
      transfers (trace (run (release_confirm_yes svc ctx') rejected)) = []
      /\ transfers (trace (run (refund_confirm_yes svc ctx') rejected)) = []).
Proof.
  intros Hact Hst. cbv zeta. unfold reject.
  destruct (action_of callbackData) as [action|] eqn:Ea.
  - destruct (String.eqb_spec action "refund") as [->|_]; [congruence|].
    rewrite Hst. cbn [fst]. split; [reflexivity|].
    intros Ha Hc Hm Hne. split.
    + now apply no_release_without_quorum.
    + now apply no_refund_without_quorum.
  - rewrite Hst. cbn [fst]. split; [reflexivity|].
    intros Ha Hc Hm Hne. split.
    + now apply no_release_without_quorum.
    + now apply no_refund_without_quorum.
Qed.

Lemma reject_resets_party_approvals_witness :
  fst (reject "reject_release"
         (Some (sample_trade <| buyerConfirmedRelease := true |>)))
  = Some (sample_trade <| buyerConfirmedRelease := true |>
                       <| buyerConfirmedRelease := false |>
                       <| sellerConfirmedRelease := false |>
                       <| buyerConfirmedRefund := false |>
                       <| sellerConfirmedRefund := false |>).
Proof.
  apply (reject_resets_party_approvals (sample_services [])
           buyer_release_click "reject_release"
           (sample_trade <| buyerConfirmedRelease := true |>));
    [discriminate | reflexivity].
Defined.


(** X22. [tron_verify_received_confirm_] by an admin adds the pending
    amount to the accumulated amount and moves a trade that is not yet
    funded to [deposited] only when the new total reaches the agreed
    quantity less 0.01.  It does not look at the pending flag and
    leaves the pending hash and amount on the trade, so a second click
    counts the same amount again and lists its hash among the partial
    hashes. *)
Theorem tron_verify_counts_every_click e p h amount :
  tronPendingTxHash p = Some h -> h <> "" ->
  tronPendingAmount p = Some amount ->
  let once := fst (tron_verify_received_confirm true (Some (e, p))) in
  let twice := fst (tron_verify_received_confirm true once) in
  let total := accumulatedDepositAmount e + amount in
  (exists e1,
      once = Some (e1, mkTronPending (Some h) (Some amount) false)
      /\ accumulatedDepositAmount e1 = total
      /\ depositAmount e1 = total
      /\ (status e1 = deposited
          <-> status e = deposited
              \/ (includes [draft; awaiting_details; awaiting_deposit]
                           (status e) = true
                  /\ JS.ge total (quantity e - 0.01) = true)))
  /\ (exists e2 p2,
        twice = Some (e2, p2)
        /\ accumulatedDepositAmount e2 = total + amount
        /\ In h (partialTransactionHashes e2)).
Proof.
  intros Hh Hne Ha. destruct p as [th ta tp]. cbn in Hh, Ha. subst th ta.
  cbv zeta.
  assert (Hh' : JS.truthy_str h = true)
    by (destruct h; [now elim Hne | reflexivity]).
  set (total := accumulatedDepositAmount e + amount).
  remember (fst (tron_verify_received_confirm true
                   (Some (e, mkTronPending (Some h) (Some amount) tp))))
    as once eqn:Ho.
  unfold tron_verify_received_confirm in Ho.
  cbn [negb fst tronPendingTxHash tronPendingAmount JS.num] in Ho.
  cbv zeta in Ho. fold total in Ho.
  change (transactionHash (e <| accumulatedDepositAmount := total |>))
    with (transactionHash e) in Ho.
  change (partialTransactionHashes
            (e <| accumulatedDepositAmount := total |>))
    with (partialTransactionHashes e) in Ho.
  match type of Ho with
  | _ = Some (?x, _) => set (e1 := x) in Ho
  end.
  assert (Hacc : accumulatedDepositAmount e1 = total).
  { unfold e1. destruct (JS.truthy_str (transactionHash e));
      destruct (JS.ge total (quantity e - 0.01)); cbn [negb];
      try destruct (includes _ _); reflexivity. }
  assert (Hhash : JS.truthy_str (transactionHash e1) = true).
  { unfold e1. destruct (JS.truthy_str (transactionHash e)) eqn:Et;
      destruct (JS.ge total (quantity e - 0.01)); cbn [negb];
      try destruct (includes _ _); cbn; assumption. }
  subst once. split.
  - exists e1. split; [reflexivity|]. split; [exact Hacc|]. split.
    { unfold e1. destruct (JS.truthy_str (transactionHash e));
        destruct (JS.ge total (quantity e - 0.01)); cbn [negb];
        try destruct (includes _ _); reflexivity. }
    unfold e1. clear. unfold total.
    destruct (JS.truthy_str (transactionHash e)); cbn [negb];
      change (quantity _) with (quantity e);
      change (includes ?l (status _)) with (includes l (status e));
      destruct (JS.ge _ _);
      destruct (status e) eqn:Es; cbn; rewrite ?Es;
      (split;
       [ intros H; first [discriminate H | now left | right; now split]
       | intros [H|[H H']];
         first [discriminate H | discriminate H' | reflexivity] ]).
  - clearbody e1. unfold tron_verify_received_confirm.
    cbn [negb fst tronPendingTxHash tronPendingAmount JS.num]. cbv zeta.
    change (transactionHash (e1 <| accumulatedDepositAmount := _ |>))
      with (transactionHash e1).
    rewrite Hhash, Hacc. cbn [negb].
    destruct (JS.ge _ _); [destruct (includes _ _)|];
      do 2 eexists; (split; [reflexivity|]); cbn;
      (split; [reflexivity|]); rewrite in_app_iff; cbn; auto.
Qed.

Lemma tron_verify_counts_every_click_witness :
  exists e2 p2,
    fst (tron_verify_received_confirm true
           (fst (tron_verify_received_confirm true
                   (Some (funding_trade,
                          mkTronPending (Some "0xtron") (Some 400) true)))))
    = Some (e2, p2)
    /\ accumulatedDepositAmount e2
       = accumulatedDepositAmount funding_trade + 400 + 400
    /\ In "0xtron" (partialTransactionHashes e2).
Proof.
  apply (proj2 (tron_verify_counts_every_click
                  funding_trade
                  (mkTronPending (Some "0xtron") (Some 400) true)
                  "0xtron" 400 eq_refl ltac:(discriminate) eq_refl)).
Defined.

(** ** Transfers per click *)

Ltac count_paths :=
  hpaths; cbn [trace snd db]; rewrite ?transfers_app; cbn [transfers app];
  rewrite ?app_nil_r, ?length_app; cbn [List.length]; lia.

Lemma release_settle_count svc ctx u d t :
  (List.length (transfers (trace (snd (release_settle svc ctx u
                                         (mkWorld d t)))))
   <= List.length (transfers t) + 1)%nat.
Proof. unfold release_settle. count_paths. Qed.

Lemma admin_release_settle_count svc ctx u d t :
  (List.length (transfers (trace (snd (admin_release_settle svc ctx u
                                         (mkWorld d t)))))
   <= List.length (transfers t) + 2)%nat.
Proof. unfold admin_release_settle. count_paths. Qed.

Lemma refund_settle_count svc u d t :
  (List.length (transfers (trace (snd (refund_settle svc u (mkWorld d t)))))
   <= List.length (transfers t) + 1)%nat.
Proof. unfold refund_settle. count_paths. Qed.

Lemma transfers_length_of_run h stored (n : nat) :
  (List.length (transfers (trace (snd (h (mkWorld stored []))))) <= n)%nat ->
  (List.length (transfers (trace (run h stored))) <= n)%nat.
Proof. now rewrite run_transfers. Qed.

(** X23. One click makes at most one call of the transfer collaborator
    in [release_confirm_yes_], [refund_confirm_yes_] and
    [fiat_release_confirm_], and at most two in
    [admin_release_confirm_yes_], whatever the trade and whatever the
    collaborator answers. *)
Theorem transfers_per_click svc ctx stored :
  (List.length (transfers (trace (run (release_confirm_yes svc ctx) stored)))
   <= 1)%nat
  /\ (List.length
        (transfers (trace (run (refund_confirm_yes svc ctx) stored)))
      <= 1)%nat
  /\ (List.length
        (transfers (trace (run (fiat_release_confirm svc ctx) stored)))
      <= 1)%nat
  /\ (List.length
        (transfers (trace (run (admin_release_confirm_yes svc ctx) stored)))
      <= 2)%nat.
Proof.
  repeat split; apply transfers_length_of_run.
  - destruct stored as [e|]; [|cbn; lia].
    destruct (release_click_accepted ctx e) eqn:Ha.
    + rewrite (release_confirm_yes_gate _ _ _ _ Ha). cbv zeta.
      destruct (canExecute _); [|cbn; lia].
      etransitivity; [apply release_settle_count|].
      rewrite transfers_app. cbn. lia.
    + destruct (release_confirm_yes_refused svc ctx (Some e) Ha) as [s ->].
      cbn. lia.
  - destruct stored as [e|]; [|cbn; lia].
    destruct (refund_click_accepted ctx e) eqn:Ha.
    + rewrite (refund_confirm_yes_gate _ _ _ _ Ha). cbv zeta.
      destruct (bothConfirmedRefund _).
      * etransitivity; [apply refund_settle_count|]. cbn. lia.
      * destruct (editCaptionOk ctx); cbn; lia.
    + destruct (refund_confirm_yes_refused svc ctx (Some e) Ha) as [s ->].
      cbn. lia.
  - unfold fiat_release_confirm. count_paths.
  - destruct stored as [e|]; [|cbn; lia].
    destruct (admin_click_accepted ctx e) eqn:Ha.
    + rewrite (admin_release_confirm_yes_gate _ _ _ _ Ha). cbv zeta.
      etransitivity; [apply admin_release_settle_count|].
      rewrite transfers_app. cbn. lia.
    + destruct (admin_release_confirm_yes_refused svc ctx (Some e) Ha)
        as [s ->].
      cbn. lia.
Qed.

(** ** Clicks that are refused *)

Lemma run_returned h stored w :
  h (mkWorld stored []) = (Returned, w) -> run h stored = w.
Proof. unfold run. now intros ->. Qed.

(** X24. A click the consent handlers refuse (no trade in a settlement
    state, a prompt other than the one on the trade, a user who is
    neither party nor admin) writes nothing: the document stays as it
    was, the user gets one answer, and no transfer is asked for. *)
Theorem refused_click_writes_nothing svc ctx e :
  (release_click_accepted ctx e = false ->
   exists s, run (release_confirm_yes svc ctx) (Some e)
             = mkWorld (Some e) [Answer s])
  /\ (admin_click_accepted ctx e = false ->
      exists s, run (admin_release_confirm_yes svc ctx) (Some e)
                = mkWorld (Some e) [Answer s])
  /\ (refund_click_accepted ctx e = false ->
      exists s, run (refund_confirm_yes svc ctx) (Some e)
                = mkWorld (Some e) [Answer s]).
Proof.
  repeat split; intros Ha.
  - destruct (release_confirm_yes_refused svc ctx (Some e) Ha) as [s Hs].
    exists s. now apply run_returned.
  - destruct (admin_release_confirm_yes_refused svc ctx (Some e) Ha)
      as [s Hs].
    exists s. now apply run_returned.
  - destruct (refund_confirm_yes_refused svc ctx (Some e) Ha) as [s Hs].
    exists s. now apply run_returned.
Qed.

(** ** A collaborator that throws *)

Ltac collaborator_threw Hrel :=
  match goal with
  | E : releaseFunds ?svc ?c = _ |- _ =>
      let m := fresh "m" in
      let Hm := fresh "Hm" in
      destruct (Hrel c) as [m Hm]; rewrite Hm in E; discriminate E
  | E : refundFunds ?svc ?c = _ |- _ =>
      let m := fresh "m" in
      let Hm := fresh "Hm" in
      destruct (Hrel c) as [m Hm]; rewrite Hm in E; discriminate E
  end.

Lemma release_settle_throws svc ctx u d t :
  (forall c, exists m, releaseFunds svc c = TxThrows m) ->
  db (snd (release_settle svc ctx u (mkWorld d t))) = d.
Proof.
  intros Hrel. unfold release_settle. hpaths; cbn [db snd];
    try reflexivity; collaborator_threw Hrel.
Qed.

Lemma admin_release_settle_throws svc ctx u d t :
  (forall c, exists m, releaseFunds svc c = TxThrows m) ->
  db (snd (admin_release_settle svc ctx u (mkWorld d t))) = d.
Proof.
  intros Hrel. unfold admin_release_settle. hpaths; cbn [db snd];
    try reflexivity; collaborator_threw Hrel.
Qed.

Lemma refund_settle_throws svc u d t :
  (forall c, exists m, refundFunds svc c = TxThrows m) ->
  db (snd (refund_settle svc u (mkWorld d t))) = d.
Proof.
  intros Hrel. unfold refund_settle. hpaths; cbn [db snd];
    try reflexivity; collaborator_threw Hrel.
Qed.

(** X25. When the transfer collaborator throws, a click changes nothing
    of the trade but the approvals it records: the state and the ledger
    stay, in all four settlement handlers.  After
    [admin_release_confirm_yes_] the admin approval stays on the
    trade. *)
Theorem thrown_transfer_keeps_ledger svc ctx e :
  (forall c, exists m, releaseFunds svc c = TxThrows m) ->
  (forall c, exists m, refundFunds svc c = TxThrows m) ->
  (db (run (release_confirm_yes svc ctx) (Some e)) = Some e
   \/ db (run (release_confirm_yes svc ctx) (Some e))
      = Some (record_release_click ctx e))
  /\ (db (run (admin_release_confirm_yes svc ctx) (Some e)) = Some e
      \/ db (run (admin_release_confirm_yes svc ctx) (Some e))
         = Some (e <| adminConfirmedRelease := true |>))
  /\ (db (run (refund_confirm_yes svc ctx) (Some e)) = Some e
      \/ db (run (refund_confirm_yes svc ctx) (Some e))
         = Some (record_refund_click ctx e))
  /\ db (run (fiat_release_confirm svc ctx) (Some e)) = Some e.
Proof.
  intros Hrel Href. repeat split.
  - destruct (run_spec (release_confirm_yes svc ctx) (Some e)) as [-> _].
    destruct (release_click_accepted ctx e) eqn:Ha.
    + right. rewrite (release_confirm_yes_gate _ _ _ _ Ha). cbv zeta.
      destruct (canExecute _); [|reflexivity].
      now apply release_settle_throws.
    + left.
      destruct (release_confirm_yes_refused svc ctx (Some e) Ha) as [s ->].
      reflexivity.
  - destruct (run_spec (admin_release_confirm_yes svc ctx) (Some e))
      as [-> _].
    destruct (admin_click_accepted ctx e) eqn:Ha.
    + right. rewrite (admin_release_confirm_yes_gate _ _ _ _ Ha). cbv zeta.
      now apply admin_release_settle_throws.
    + left.
      destruct (admin_release_confirm_yes_refused svc ctx (Some e) Ha)
        as [s ->].
      reflexivity.
  - destruct (run_spec (refund_confirm_yes svc ctx) (Some e)) as [-> _].
    destruct (refund_click_accepted ctx e) eqn:Ha.
    + right. rewrite (refund_confirm_yes_gate _ _ _ _ Ha). cbv zeta.
      destruct (bothConfirmedRefund _).
      * now apply refund_settle_throws.
      * destruct (editCaptionOk ctx); reflexivity.
    + left.
      destruct (refund_confirm_yes_refused svc ctx (Some e) Ha) as [s ->].
      reflexivity.
  - destruct (run_spec (fiat_release_confirm svc ctx) (Some e)) as [-> _].
    unfold fiat_release_confirm. hpaths; cbn [db snd];
      try reflexivity; collaborator_threw Hrel.
Qed.

Lemma thrown_transfer_keeps_ledger_witness :
  let svc :=
    {| getTokenDecimals := fun _ _ => 18%Z;
       releaseFunds := fun _ => TxThrows "insufficient funds";
       refundFunds := fun _ => TxThrows "insufficient funds";
       getTokenTransfersViaRPC := fun _ _ _ _ => [];
       getTokenTransactions := fun _ _ _ => [];
       getLatestBlockNumber := fun _ => None |} in
  db (run (fiat_release_confirm svc seller_release_click) (Some sample_trade))
  = Some sample_trade.
Proof.
  refine (proj2 (proj2 (proj2 (thrown_transfer_keeps_ledger _ _ _ _ _))));
    intros c; eexists; reflexivity.
Defined.

(** ** Deposits that are not for the vault *)

Lemma filter_nil {A} (f : A -> bool) l :
  (forall x, In x l -> f x = false) -> filter f l = [].
Proof.
  induction l as [|a l IH]; intros H; [reflexivity|]. cbn [filter].
  rewrite (H a (or_introl eq_refl)). apply IH. intros x Hx. apply H. now right.
Qed.

(** X26. A poll of [check_deposit] that reports only transfers to other
    addresses than the deposit address of the trade leaves the trade as
    it is and tells the user that no new deposit was found; so does a
    poll that reports nothing. *)
Theorem check_deposit_ignores_other_addresses svc e :
  includes [awaiting_deposit; deposited] (status e) = true ->
  depositAddress e <> "" ->
  (forall tx, In tx (observed svc e) ->
     (JS.toLowerCase (to tx) =? JS.toLowerCase (depositAddress e))%string
     = false) ->
  run (check_deposit svc) (Some e)
  = mkWorld (Some e) [Answer CheckingDeposit; Reply NoNewDeposit].
Proof.
  intros Hst Haddr Hto. unfold check_deposit. hred. rewrite Hst. hred.
  assert (Ha : JS.truthy_str (depositAddress e) = true)
    by (destruct (depositAddress e); [now elim Haddr | reflexivity]).
  rewrite Ha. hred.
  assert (Hnew : newDeposits svc e = []).
  { unfold newDeposits. apply filter_nil. intros tx Hin.
    unfold is_new_deposit. now rewrite (Hto tx Hin). }
  rewrite Hnew. reflexivity.
Qed.

Lemma check_deposit_ignores_other_addresses_witness :
  run (check_deposit
         (sample_services [mkTransfer "0x5E11" "0xELSE" "0xabc" 400]))
      (Some funding_trade)
  = mkWorld (Some funding_trade) [Answer CheckingDeposit; Reply NoNewDeposit].
Proof.
  apply check_deposit_ignores_other_addresses;
    [reflexivity | discriminate |].
  intros tx [<-|[]]. reflexivity.
Defined.

(** ** The integer mirror and the refund *)

Lemma refund_settle_wei svc u t e' :
  db (snd (refund_settle svc u (mkWorld (Some u) t))) = Some e' ->
  accumulatedDepositAmountWei e' = accumulatedDepositAmountWei u
  /\ releaseTransactionHash e' = releaseTransactionHash u
  /\ (status e' = status u \/ status e' = refunded).
Proof.
  unfold refund_settle. hpaths; cbn [db snd]; intros [= <-];
    repeat match goal with
           | |- context [if ?c then _ else _] => destruct c
           end; cbn; auto.
Qed.

(** X27. [refund_confirm_yes_] never writes the integer mirror of the
    balance: whatever it refunds, [accumulatedDepositAmountWei] is
    after the click what it was before.  The balance the release
    handlers read off a mirror that is set is therefore the same after
    a refund as before it. *)
Theorem refund_leaves_wei_mirror svc ctx e :
  exists e',
    db (run (refund_confirm_yes svc ctx) (Some e)) = Some e'
    /\ accumulatedDepositAmountWei e' = accumulatedDepositAmountWei e
    /\ (status e' = status e \/ status e' = refunded)
    /\ forall decimals,
         totalDepositedWei e <> None ->
         formattedTotalDeposited e' decimals
         = formattedTotalDeposited e decimals.
Proof.
  assert (H : exists e',
             db (run (refund_confirm_yes svc ctx) (Some e)) = Some e'
             /\ accumulatedDepositAmountWei e'
                = accumulatedDepositAmountWei e
             /\ (status e' = status e \/ status e' = refunded)).
  { destruct (run_spec (refund_confirm_yes svc ctx) (Some e)) as [-> _].
    destruct (refund_click_accepted ctx e) eqn:Ha.
    - rewrite (refund_confirm_yes_gate _ _ _ _ Ha). cbv zeta.
      assert (Hu : accumulatedDepositAmountWei (record_refund_click ctx e)
                   = accumulatedDepositAmountWei e
                   /\ status (record_refund_click ctx e) = status e).
      { rewrite record_refund_click_eq. split; reflexivity. }
      destruct Hu as [Hw Hs].
      destruct (bothConfirmedRefund _).
      + destruct (db (snd (refund_settle svc (record_refund_click ctx e)
                             (mkWorld (Some (record_refund_click ctx e))
                                      [])))) as [e'|] eqn:E.
        * destruct (refund_settle_wei _ _ _ _ E) as (H1 & _ & H3).
          exists e'. rewrite H1, Hw, <- Hs. auto.
        * destruct (refund_settle_keeps_flags svc
                      (record_refund_click ctx e) []) as (x & Hx & _).
          congruence.
      + destruct (editCaptionOk ctx); eexists; cbn [db snd];
          (split; [reflexivity|]); auto.
    - destruct (refund_confirm_yes_refused svc ctx (Some e) Ha) as [s ->].
      exists e. cbn. auto. }
  destruct H as (e' & Hdb & Hw & Hs). exists e'. repeat split; auto.
  intros decimals Hset. unfold formattedTotalDeposited, totalDepositedWei in *.
  rewrite Hw. destruct (JS.truthy_str _ && _); [reflexivity|congruence].
Qed.

(** ** The choice of roles *)

Lemma truthy_id_some v : v <> 0%Z -> JS.truthy_id (Some v) = true.
Proof. intros H. cbn. now destruct (Z.eqb_spec v 0). Qed.

(** X28. The choice of roles never makes one user both buyer and seller,
    and never takes a role from the user who holds it: if no user holds
    both roles before a click, none does after it, and an identifier
    that was on a role is still on it. *)
Theorem roles_stay_apart isBuyer ctx env e r :
  userId ctx <> 0%Z ->
  SelectRole.roles_apart e ->
  exists e' r',
    fst (SelectRole.select_role isBuyer ctx env (Some (e, r)))
    = Some (e', r')
    /\ SelectRole.roles_apart e'
    /\ (forall v, v <> 0%Z -> buyerId e = Some v -> buyerId e' = Some v)
    /\ (forall v, v <> 0%Z -> sellerId e = Some v -> sellerId e' = Some v)
    /\ status e' = status e
    /\ accumulatedDepositAmount e' = accumulatedDepositAmount e.
Proof.
  intros Hu Hap. unfold SelectRole.select_role. cbv zeta.
  destruct (includes _ (status e));
    [|exists e, r; cbn [fst]; repeat split; auto].
  destruct isBuyer; cbn [andb negb].
  - destruct (SelectRole.is_user (sellerId e) (userId ctx)) eqn:Hs;
      [exists e, r; cbn [fst]; repeat split; auto|].
    destruct (SelectRole.is_other (buyerId e) (userId ctx)) eqn:Hb;
      [exists e, r; cbn [fst]; repeat split; auto|].
    destruct (SelectRole.recordStats _ _ _) as [r1 did].
    match goal with
    | |- context [if ?c then _ else _] => destruct c
    end; [destruct (SelectRole.sendPhoto env)|];
      eexists; eexists; cbn [fst]; (split; [reflexivity|]); cbn;
      repeat split; auto.
    all: try (unfold SelectRole.roles_apart; cbn; intros v Hv [[= <-] Hsv];
              unfold SelectRole.is_user in Hs; rewrite Hsv in Hs;
              rewrite (truthy_id_some _ Hv) in Hs; cbn in Hs;
              now rewrite Z.eqb_refl in Hs).
    all: intros v Hv Hbv; unfold SelectRole.is_other in Hb;
      rewrite Hbv in Hb; rewrite (truthy_id_some _ Hv) in Hb; cbn in Hb;
      destruct (Z.eqb_spec v (userId ctx)); [congruence|discriminate].
  - destruct (SelectRole.is_user (buyerId e) (userId ctx)) eqn:Hb;
      [exists e, r; cbn [fst]; repeat split; auto|].
    destruct (SelectRole.is_other (sellerId e) (userId ctx)) eqn:Hs;
      [exists e, r; cbn [fst]; repeat split; auto|].
    destruct (SelectRole.recordStats _ _ _) as [r1 did].
    match goal with
    | |- context [if ?c then _ else _] => destruct c
    end; [destruct (SelectRole.sendPhoto env)|];
      eexists; eexists; cbn [fst]; (split; [reflexivity|]); cbn;
      repeat split; auto.
    all: try (unfold SelectRole.roles_apart; cbn; intros v Hv [Hbv [= <-]];
              unfold SelectRole.is_user in Hb; rewrite Hbv in Hb;
              rewrite (truthy_id_some _ Hv) in Hb; cbn in Hb;
              now rewrite Z.eqb_refl in Hb).
    all: intros v Hv Hsv; unfold SelectRole.is_other in Hs;
      rewrite Hsv in Hs; rewrite (truthy_id_some _ Hv) in Hs; cbn in Hs;
      destruct (Z.eqb_spec v (userId ctx)); [congruence|discriminate].
Qed.

Lemma roles_stay_apart_witness :
  exists e' r',
    fst (SelectRole.select_role
           false (click 11 500 false)
           (SelectRole.mkEnv (Some "bob") (fun _ => true)
                             (SelectRole.Sent 7%Z))
           (Some (sample_trade <| status := draft |>,
                  SelectRole.mkRoles (Some "bob") (Some "sue") true true
                                     (Some 3%Z) "step1" None)))
    = Some (e', r')
    /\ buyerId e' = Some 11%Z /\ sellerId e' = Some 22%Z.
Proof.
  destruct (roles_stay_apart
              false (click 11 500 false)
              (SelectRole.mkEnv (Some "bob") (fun _ => true)
                                (SelectRole.Sent 7%Z))
              (sample_trade <| status := draft |>)
              (SelectRole.mkRoles (Some "bob") (Some "sue") true true
                                  (Some 3%Z) "step1" None))
    as (e' & r' & E & _ & Hb & Hs & _).
  - discriminate.
  - intros v _ [Hbv Hsv]. cbn in Hbv, Hsv. congruence.
  - exists e', r'. split; [exact E|]. split.
    + apply Hb; [discriminate | reflexivity].
    + apply Hs; [discriminate | reflexivity].
Defined.
